(** * AutoLens: plane construction, multi-plane ray tracing and point-source fits

    A shallow embedding of
      - [src/analysis/ray_tracing.py]   (Tracer, MultiTracer, TracerGeometry, Plane),
      - [autolens/lens/plane.py]        (AbstractPlane, AbstractGriddedPlane, Plane, PlaneSlice),
      - [autolens/fit/fit_point_source.py] (FitPositionsImage, FitFluxes).

    Floating-point numbers are modelled by exact rationals ([Qc]) wherever
    a property is one of exact arithmetic; where it depends on rounding,
    overflow or division by zero the code is read over IEEE-754 doubles
    ([PrimFloat.float], module [Binary64]).  Python exceptions are modelled
    by an error monad; numpy arrays by lists with the scalar broadcasting
    rule written out. *)

From Stdlib Require Import Floats.
From Stdlib Require Import String QArith Qcanon ZArith List Sorted Permutation Bool Lia.
Import ListNotations.

Set Implicit Arguments.

(** ** Exceptions *)

(** The exception kinds that the modelled code can raise.  [IndexError],
    [AttributeError] and [TypeError] are Python's own; the others live in
    the [exc] module.  [GeometryException] is the kind the documentation of
    the geometry names; no path of the code below raises it. *)
Inductive exn : Type :=
| IndexError
| AttributeError (attr : string)
| TypeError
| RayTracingException (msg : string)
| PixelizationException (msg : string)
| PointSourceExtractionException (msg : string)
| GeometryException (msg : string).

Inductive result (A : Type) : Type :=
| Ok (a : A)
| Raise (e : exn).

Arguments Ok {A} a.
Arguments Raise {A} e.

Definition bind {A B : Type} (m : result A) (k : A -> result B) : result B :=
  match m with
  | Ok a => k a
  | Raise e => Raise e
  end.

Notation "x <- m ;; k" := (bind m (fun x => k))
  (at level 61, m at next level, right associativity).

(** A loop [for x in xs: acc = body(acc, x)] whose body may raise. *)
Fixpoint for_each {A S : Type} (body : S -> A -> result S) (xs : list A) (acc : S)
  : result S :=
  match xs with
  | [] => Ok acc
  | x :: xs' => acc' <- body acc x ;; for_each body xs' acc'
  end.

Definition is_ok {A : Type} (r : result A) : bool :=
  match r with Ok _ => true | Raise _ => false end.

(** ** Numbers *)

(** [x < y] and [x == y] on floats, modelled exactly. *)
Definition Qcltb (x y : Qc) : bool :=
  match (x ?= y)%Qc with Lt => true | _ => false end.

Definition Qceqb (x y : Qc) : bool :=
  match (x ?= y)%Qc with Eq => true | _ => false end.

(** A literal [n / d]. *)
Definition qc (n : Z) (d : positive) : Qc := Q2Qc (n # d).

(** ** Python lists *)

(** [l[i]]: a negative index counts from the end, an index outside
    [-len(l), len(l)) raises [IndexError]. *)
Definition getitem {A : Type} (l : list A) (i : Z) : result A :=
  let n := Z.of_nat (length l) in
  let j := if (i <? 0)%Z then (i + n)%Z else i in
  if ((j <? 0) || (n <=? j))%Z then Raise IndexError
  else match nth_error l (Z.to_nat j) with
       | Some x => Ok x
       | None => Raise IndexError
       end.

(** [range(n)] *)
Definition range (n : Z) : list Z := map Z.of_nat (seq 0 (Z.to_nat n)).

(** [len(l)] *)
Definition len {A : Type} (l : list A) : Z := Z.of_nat (length l).

(** An index that [l[i]] rejects. *)
Definition out_of_range {A : Type} (l : list A) (i : Z) : Prop :=
  (i < - len l \/ len l <= i)%Z.

(** ** numpy arrays *)

(** A row [(y, x)] of an array of shape (n, 2). *)
Definition vec : Type := (Qc * Qc)%type.

(** The elements an array is made of: numbers for shape (n,), rows for
    shape (n, 2).  [e_fill c] is the element a scalar [c] broadcasts to. *)
Class Elem (E : Type) : Type := {
  e_add : E -> E -> E;
  e_sub : E -> E -> E;
  e_mul : Qc -> E -> E;
  e_fill : Qc -> E
}.

#[export] Instance Elem_Qc : Elem Qc := {
  e_add := Qcplus;
  e_sub := Qcminus;
  e_mul := Qcmult;
  e_fill := fun c => c
}.

#[export] Instance Elem_vec : Elem vec := {
  e_add := fun a b => (fst a + fst b, snd a + snd b)%Qc;
  e_sub := fun a b => (fst a - fst b, snd a - snd b)%Qc;
  e_mul := fun c a => (c * fst a, c * snd a)%Qc;
  e_fill := fun c => (c, c)
}.

(** The laws of exact arithmetic that the two kinds of element obey. *)
Class ElemLaws (E : Type) {elem : Elem E} : Prop := {
  e_add_assoc : forall x y z : E, e_add (e_add x y) z = e_add x (e_add y z);
  e_add_0_l : forall x : E, e_add (e_fill 0%Qc) x = x;
  e_add_0_r : forall x : E, e_add x (e_fill 0%Qc) = x;
  e_fill_add : forall a b : Qc, e_fill (a + b)%Qc = e_add (e_fill a) (e_fill b);
  e_sub_0 : forall x : E, e_sub x (e_fill 0%Qc) = x;
  e_sub_sub : forall x a b : E, e_sub (e_sub x a) b = e_sub x (e_add a b)
}.

Arguments ElemLaws E {elem}.

(** The value of a numpy expression: a scalar (Python's [0], a float) or an
    array whose first axis is the list. *)
Inductive ndarray (E : Type) : Type :=
| Scalar (c : Qc)
| Array (rows : list E).

Arguments Scalar {E} c.
Arguments Array {E} rows.

Fixpoint zip_with {A B C : Type} (f : A -> B -> C) (xs : list A) (ys : list B)
  : list C :=
  match xs, ys with
  | x :: xs', y :: ys' => f x y :: zip_with f xs' ys'
  | _, _ => []
  end.

(** [a + b] with a scalar broadcast over an array.  Two arrays are combined
    row by row; every pair of arrays the code combines is computed over
    the same grid, so the rows line up. *)
Definition np_add {E : Type} `{Elem E} (a b : ndarray E) : ndarray E :=
  match a, b with
  | Scalar x, Scalar y => Scalar (x + y)%Qc
  | Scalar x, Array ys => Array (map (fun y => e_add (e_fill x) y) ys)
  | Array xs, Scalar y => Array (map (fun x => e_add x (e_fill y)) xs)
  | Array xs, Array ys => Array (zip_with e_add xs ys)
  end.

(** [np.subtract(grid, d)] and [grid - d] for an array [grid]. *)
Definition np_subtract {E : Type} `{Elem E} (grid : list E) (d : ndarray E) : list E :=
  match d with
  | Scalar y => map (fun x => e_sub x (e_fill y)) grid
  | Array ys => zip_with e_sub grid ys
  end.

(** [np.multiply(c, a)] for a scalar [c]. *)
Definition np_multiply {E : Type} `{Elem E} (c : Qc) (a : ndarray E) : ndarray E :=
  match a with
  | Scalar y => Scalar (c * y)%Qc
  | Array ys => Array (map (e_mul c) ys)
  end.

(** Python's [sum(xs)]: starts from the integer [0] and adds from the left. *)
Definition py_sum {E : Type} `{Elem E} (xs : list (ndarray E)) : ndarray E :=
  fold_left np_add xs (Scalar 0%Qc).

(** [np.full((n, 2), 0.0)] and [np.zeros((n,))] *)
Definition np_full {E : Type} `{Elem E} (n : nat) (c : Qc) : ndarray E :=
  Array (repeat (e_fill c) n).

(** The row of an array at an index; a scalar broadcasts to every row. *)
Definition row_at {E : Type} `{Elem E} (a : ndarray E) (i : nat) : option E :=
  match a with
  | Scalar c => Some (e_fill c)
  | Array rows => nth_error rows i
  end.

(** An array with [n] rows. *)
Definition has_shape {E : Type} (n : nat) (a : ndarray E) : Prop :=
  match a with
  | Scalar _ => False
  | Array rows => length rows = n
  end.

(** ** Grids *)

(** A grid is an array of (y, x) arc-second coordinates. *)
Definition grid : Type := list vec.

(** Modelled from the spec: the grid bundle ([mask.CoordinateCollection] in
    ray_tracing.py, [grids.GridStack] in plane.py), whose class is not among
    the sources.  It carries the grid variants together (the image grid,
    the sub-grid [sub_grid_coords] / [sub] and the blurring grid
    [blurring_coords] / [blurring]); [apply_function] transforms every
    variant by one function, [map_function] combines every variant with the
    same variant of the other bundle. *)
Record GridBundle (A : Type) : Type := {
  regular : A;
  sub : A;
  blurring : A
}.

Definition apply_function {A B : Type} (f : A -> B) (b : GridBundle A) : GridBundle B :=
  {| regular := f (regular b); sub := f (sub b); blurring := f (blurring b) |}.

Definition map_function {A B C : Type} (f : A -> B -> C)
  (b : GridBundle A) (o : GridBundle B) : GridBundle C :=
  {| regular := f (regular b) (regular o);
     sub := f (sub b) (sub o);
     blurring := f (blurring b) (blurring o) |}.

(** [g'] is [g] with the deflection [d] subtracted at every coordinate. *)
Definition traced_by (g : grid) (d : ndarray vec) (g' : grid) : Prop :=
  length g' = length g /\
  forall (i : nat) (c : vec), nth_error g i = Some c ->
    exists dv, row_at d i = Some dv /\ nth_error g' i = Some (e_sub c dv).

(** The grid variants, to quantify over them. *)
Inductive variant : Type := Regular | Sub | Blurring.

Definition get_variant {A : Type} (v : variant) (b : GridBundle A) : A :=
  match v with
  | Regular => regular b
  | Sub => sub b
  | Blurring => blurring b
  end.


(** ** More of Python's built-ins *)

(** [list(map(f, xs))] for an [f] that may raise: the first exception ends
    the traversal. *)
Fixpoint map_result {A B : Type} (f : A -> result B) (xs : list A) : result (list B) :=
  match xs with
  | [] => Ok []
  | x :: xs' => y <- f x ;; ys <- map_result f xs' ;; Ok (y :: ys)
  end.

(** [x <= y] on floats, modelled exactly. *)
Definition Qcleb (x y : Qc) : bool :=
  match (x ?= y)%Qc with Gt => false | _ => true end.

(** An index that [l[i]] accepts. *)
Definition valid_index {A : Type} (l : list A) (i : Z) : Prop :=
  (- len l <= i < len l)%Z.

(** The errors of the built-ins used below, which are not among the
    exceptions above. *)
Inductive builtin_error : Type := ValueError | ZeroDivisionError.

Inductive outcome (A : Type) : Type :=
| Returned (a : A)
| Failed (e : builtin_error).

Arguments Returned {A} a.
Arguments Failed {A} e.

(** [max(xs)]: the first of the greatest elements; [ValueError] on an empty
    sequence. *)
Definition py_max (xs : list Qc) : outcome Qc :=
  match xs with
  | [] => Failed ValueError
  | x :: rest => Returned (fold_left (fun m y => if Qcltb m y then y else m) rest x)
  end.

(** The entries of a numpy value. *)
Definition entries (a : ndarray Qc) : list Qc :=
  match a with
  | Scalar c => [c]
  | Array xs => xs
  end.

(** The rows make a rectangular array: all of them scalars, or all of
    them arrays of one length. *)
Definition rectangular (rows : list (ndarray Qc)) : bool :=
  match rows with
  | [] => true
  | Scalar _ :: rest =>
      forallb (fun r => match r with Scalar _ => true | Array _ => false end) rest
  | Array xs :: rest =>
      forallb (fun r => match r with
                        | Scalar _ => false
                        | Array ys => Nat.eqb (length ys) (length xs)
                        end) rest
  end.

(** [np.ndarray.sum(np.array(rows))]: without an axis every entry of the
    array is added up.  What numpy makes of rows that are not rectangular
    is not modelled ([None]). *)
Definition np_sum_all (rows : list (ndarray Qc)) : option Qc :=
  if rectangular rows
  then Some (fold_left Qcplus (concat (map entries rows)) 0%Qc)
  else None.

(** * src/analysis/ray_tracing.py *)

Module RayTracing.

(** Modelled from the spec: the galaxy, an external capability whose class
    is not among the sources.  A galaxy has a redshift and may carry a
    light profile (coordinate to intensity), a mass profile (coordinate to
    deflection vector) and a pixelization.  A galaxy without a light
    profile has zero intensity everywhere, one without a mass profile the
    zero deflection vector. *)
Record Galaxy : Type := {
  redshift : Qc;
  light_profile : option (vec -> Qc);
  mass_profile : option (vec -> vec);
  has_pixelization : bool
}.

(** Modelled from the spec: [galaxy.intensity_from_grid(grid)], the
    intensity of the light profile at every coordinate, zeros without one. *)
Definition intensity_from_grid (g : Galaxy) (coords : grid) : ndarray Qc :=
  match light_profile g with
  | Some f => Array (map f coords)
  | None => np_full (length coords) 0%Qc
  end.

(** Modelled from the spec: [galaxy.deflections_from_coordinate_grid(grid)],
    the deflection of the mass profile at every coordinate, zero vectors
    without one. *)
Definition deflections_from_coordinate_grid (g : Galaxy) (coords : grid) : ndarray vec :=
  match mass_profile g with
  | Some f => Array (map f coords)
  | None => np_full (length coords) 0%Qc
  end.

(** Modelled from the spec: the cosmology provider (astropy), with every
    distance already converted to kpc, and the constant [c^2 / (4 pi G)]. *)
Record Cosmology : Type := {
  arcsec_per_kpc_proper : Qc -> Qc;
  angular_diameter_distance : Qc -> Qc;
  angular_diameter_distance_z1z2 : Qc -> Qc -> Qc;
  constant_kpc : Qc
}.

(** ** class TracerGeometry *)

Record TracerGeometry : Type := {
  cosmology : Cosmology;
  redshifts : list Qc;
  final_plane : Z;
  ang_to_final_plane : Qc
}.

(** The body of [ang_to_earth], which [__init__] calls before the last
    attribute is set. *)
Definition ang_to_earth_of (c : Cosmology) (zs : list Qc) (plane_i : Z) : result Qc :=
  z <- getitem zs plane_i ;;
  Ok (angular_diameter_distance c z).

Definition TracerGeometry_init (zs : list Qc) (c : Cosmology) : result TracerGeometry :=
  let final := (len zs - 1)%Z in
  d <- ang_to_earth_of c zs final ;;
  Ok {| cosmology := c; redshifts := zs; final_plane := final; ang_to_final_plane := d |}.

Definition arcsec_per_kpc (self : TracerGeometry) (plane_i : Z) : result Qc :=
  z <- getitem (redshifts self) plane_i ;;
  Ok (arcsec_per_kpc_proper (cosmology self) z).

Definition kpc_per_arcsec (self : TracerGeometry) (plane_i : Z) : result Qc :=
  z <- getitem (redshifts self) plane_i ;;
  Ok (1 / arcsec_per_kpc_proper (cosmology self) z)%Qc.

Definition ang_to_earth (self : TracerGeometry) (plane_i : Z) : result Qc :=
  ang_to_earth_of (cosmology self) (redshifts self) plane_i.

Definition ang_between_planes (self : TracerGeometry) (plane_i plane_j : Z) : result Qc :=
  zi <- getitem (redshifts self) plane_i ;;
  zj <- getitem (redshifts self) plane_j ;;
  Ok (angular_diameter_distance_z1z2 (cosmology self) zi zj).

Definition critical_density_kpc (self : TracerGeometry) (plane_i plane_j : Z) : result Qc :=
  dj <- ang_to_earth self plane_j ;;
  dij <- ang_between_planes self plane_i plane_j ;;
  di <- ang_to_earth self plane_i ;;
  Ok (constant_kpc (cosmology self) * dj / (dij * di))%Qc.

Definition critical_density_arcsec (self : TracerGeometry) (plane_i plane_j : Z) : result Qc :=
  ck <- critical_density_kpc self plane_i plane_j ;;
  k <- kpc_per_arcsec self plane_i ;;
  Ok (ck * (k * k))%Qc.

Definition scaling_factor (self : TracerGeometry) (plane_i plane_j : Z) : result Qc :=
  dij <- ang_between_planes self plane_i plane_j ;;
  dj <- ang_to_earth self plane_j ;;
  dif <- ang_between_planes self plane_i (final_plane self) ;;
  Ok ((dij * ang_to_final_plane self) / (dj * dif))%Qc.

(** ** class Plane *)

Record Plane : Type := {
  galaxies : list Galaxy;
  coordinates_collection : GridBundle grid;
  (** the attribute is set only when the plane is built with
      [compute_deflections] *)
  deflections : option (GridBundle (ndarray vec))
}.

Definition calculate_deflections (gs : list Galaxy) (coords : grid) : ndarray vec :=
  py_sum (map (fun galaxy => deflections_from_coordinate_grid galaxy coords) gs).

Definition Plane_init (gs : list Galaxy) (cc : GridBundle grid) (compute_deflections : bool)
  : Plane :=
  {| galaxies := gs;
     coordinates_collection := cc;
     deflections :=
       if compute_deflections
       then Some (apply_function (calculate_deflections gs) cc)
       else None |}.

Definition trace_to_next_plane (self : Plane) : result (GridBundle grid) :=
  match deflections self with
  | Some d => Ok (map_function np_subtract (coordinates_collection self) d)
  | None => Raise (AttributeError "deflections")
  end.

Definition intensities_via_grid (coords_grid : grid) (gs : list Galaxy) : ndarray Qc :=
  py_sum (map (fun g => intensity_from_grid g coords_grid) gs).

Definition deflections_for_grid (coords_grid : grid) (gs : list Galaxy) : ndarray vec :=
  py_sum (map (fun galaxy => deflections_from_coordinate_grid galaxy coords_grid) gs).

Definition deflections_for_coordinates_collection (cc : GridBundle grid) (gs : list Galaxy)
  : GridBundle (ndarray vec) :=
  apply_function (fun g => deflections_for_grid g gs) cc.

Definition traced_collection_for_deflections (cc : GridBundle grid)
  (d : GridBundle (ndarray vec)) : GridBundle grid :=
  map_function np_subtract cc d.

Definition generate_blurring_image_of_galaxy_light_profiles (self : Plane) : ndarray Qc :=
  intensities_via_grid (blurring (coordinates_collection self)) (galaxies self).

(** ** class Tracer *)

Record Tracer : Type := {
  geometry : option TracerGeometry;
  image_plane : Plane;
  source_plane : Plane
}.

Definition Tracer_init (lens_galaxies source_galaxies : list Galaxy)
  (image_plane_grids : GridBundle grid) (cosmo : option Cosmology) : result Tracer :=
  geom <- match cosmo with
          | Some c =>
              l0 <- getitem lens_galaxies 0 ;;
              s0 <- getitem source_galaxies 0 ;;
              g <- TracerGeometry_init [redshift l0; redshift s0] c ;;
              Ok (Some g)
          | None => Ok None
          end ;;
  let image := Plane_init lens_galaxies image_plane_grids true in
  source_plane_grids <- trace_to_next_plane image ;;
  let source := Plane_init source_galaxies source_plane_grids false in
  Ok {| geometry := geom; image_plane := image; source_plane := source |}.

(** ** class MultiTracer *)

(** [sorted(galaxies, key=lambda galaxy: galaxy.redshift)]: Python's sort is
    stable, so a galaxy goes in front of the first one of the sorted rest
    that does not have a smaller redshift. *)
Fixpoint insert_by_redshift (g : Galaxy) (l : list Galaxy) : list Galaxy :=
  match l with
  | [] => [g]
  | h :: t =>
      if Qcltb (redshift h) (redshift g) then h :: insert_by_redshift g t
      else g :: h :: t
  end.

Definition sorted_by_redshift (gs : list Galaxy) : list Galaxy :=
  fold_right insert_by_redshift [] gs.

(** [[z for i, z in enumerate(zs) if z not in zs[:i]]] *)
Fixpoint first_occurrences (seen zs : list Qc) : list Qc :=
  match zs with
  | [] => []
  | z :: zs' =>
      if existsb (Qceqb z) seen then first_occurrences (seen ++ [z]) zs'
      else z :: first_occurrences (seen ++ [z]) zs'
  end.

(** The galaxies of one plane: [filter(None, map(lambda galaxy: galaxy if
    galaxy.redshift == plane_redshift else None, ...))]. *)
Definition galaxies_of_plane (ordered : list Galaxy) (plane_redshift : Qc) : list Galaxy :=
  filter (fun galaxy => Qceqb (redshift galaxy) plane_redshift) ordered.

Record MultiTracer : Type := {
  galaxies_redshift_order : list Galaxy;
  planes_redshift_order : list Qc;
  mt_geometry : TracerGeometry;
  planes_galaxies : list (list Galaxy);
  planes : list Plane
}.

(** One round of the inner loop over [previous_plane_index]. *)
Definition subtract_previous (geom : TracerGeometry) (built : list Plane) (plane_index : Z)
  (new_grid : GridBundle grid) (previous_plane_index : Z) : result (GridBundle grid) :=
  s <- scaling_factor geom previous_plane_index plane_index ;;
  previous <- getitem built previous_plane_index ;;
  d <- match deflections previous with
       | Some d => Ok d
       | None => Raise (AttributeError "deflections")
       end ;;
  let scaled_deflections := apply_function (np_multiply s) d in
  Ok (map_function np_subtract new_grid scaled_deflections).

(** One round of the loop over [plane_index], appending to [self.planes]. *)
Definition build_plane (geom : TracerGeometry) (zs : list Qc) (pgs : list (list Galaxy))
  (image_plane_grids : GridBundle grid) (built : list Plane) (plane_index : Z)
  : result (list Plane) :=
  compute_deflections <-
    (if (plane_index <? len zs - 1)%Z then Ok true
     else if (plane_index =? len zs - 1)%Z then Ok false
     else Raise (RayTracingException
                   "A galaxy was not correctly allocated its previous / next redshifts")) ;;
  new_grid <-
    (if (plane_index >? 0)%Z
     then for_each (subtract_previous geom built plane_index)
                   (range plane_index) image_plane_grids
     else Ok image_plane_grids) ;;
  gs <- getitem pgs plane_index ;;
  Ok (built ++ [Plane_init gs new_grid compute_deflections]).

Definition MultiTracer_init (gs : list Galaxy) (image_plane_grids : GridBundle grid)
  (cosmo : Cosmology) : result MultiTracer :=
  let ordered := sorted_by_redshift gs in
  let galaxy_redshifts := map redshift ordered in
  let zs := first_occurrences [] galaxy_redshifts in
  geom <- TracerGeometry_init zs cosmo ;;
  let pgs := map (galaxies_of_plane ordered) zs in
  built <- for_each (build_plane geom zs pgs image_plane_grids) (range (len zs)) [] ;;
  Ok {| galaxies_redshift_order := ordered;
        planes_redshift_order := zs;
        mt_geometry := geom;
        planes_galaxies := pgs;
        planes := built |}.

(** ** Notions used to state what the constructors build *)

(** Every plane of [built] before the last of [n] planes has a deflection
    field. *)
Definition deflections_computed (n : nat) (built : list Plane) : Prop :=
  forall q, (q < length built)%nat -> (q < n - 1)%nat ->
    exists pl d, nth_error built q = Some pl /\ deflections pl = Some d.

(** The order that [sorted] establishes. *)
Definition redshift_le (g h : Galaxy) : Prop := (redshift g <= redshift h)%Qc.

(** [sd] pairs the scaling factor from plane [p] to plane [k] with the
    deflection field of plane [p], [built] being the planes of the tracer. *)
Definition scaled_deflection_of (geom : TracerGeometry) (built : list Plane) (k p : Z)
  (sd : Qc * GridBundle (ndarray vec)) : Prop :=
  scaling_factor geom p k = Ok (fst sd) /\
  exists previous, getitem built p = Ok previous /\ deflections previous = Some (snd sd).

(** One scaled deflection field subtracted from a bundle. *)
Definition subtract_scaled (new_grid : GridBundle grid)
  (sd : Qc * GridBundle (ndarray vec)) : GridBundle grid :=
  map_function np_subtract new_grid (apply_function (np_multiply (fst sd)) (snd sd)).

(** [pl] is the plane that the loop builds at [plane_index] when
    [built] holds the planes before it. *)
Definition built_at (geom : TracerGeometry) (zs : list Qc) (pgs : list (list Galaxy))
  (image_plane_grids : GridBundle grid) (built : list Plane) (plane_index : Z)
  (pl : Plane) : Prop :=
  exists gs new_grid,
    getitem pgs plane_index = Ok gs /\
    for_each (subtract_previous geom built plane_index) (range plane_index)
             image_plane_grids = Ok new_grid /\
    pl = Plane_init gs new_grid (plane_index <? len zs - 1)%Z.

(** ** The remaining methods of Plane, Tracer and MultiTracer *)

(** [Plane.generate_pixelization_matrices_of_galaxy].  The pixelization of
    a galaxy is an external collaborator: [inversion_from_pix_grids galaxy]
    stands for [galaxy.pixelization.inversion_from_pix_grids]. *)
Definition generate_pixelization_matrices_of_galaxy {S M : Type}
  (inversion_from_pix_grids : Galaxy -> GridBundle grid -> S -> M)
  (self : Plane) (sparse_mask : S) : result (option M) :=
  let pixelized_galaxies := filter has_pixelization (galaxies self) in
  if (len pixelized_galaxies =? 0)%Z then Ok None
  else if (len pixelized_galaxies =? 1)%Z then
    g <- getitem pixelized_galaxies 0 ;;
    Ok (Some (inversion_from_pix_grids g (coordinates_collection self) sparse_mask))
  else if (len pixelized_galaxies >? 1)%Z then
    Raise (PixelizationException
             "The number of galaxies with pixelizations in one plane is above 1")
  else Ok None.

(** [Tracer.generate_pixelization_matrices_of_source_galaxy] *)
Definition generate_pixelization_matrices_of_source_galaxy {S M : Type}
  (inversion_from_pix_grids : Galaxy -> GridBundle grid -> S -> M)
  (self : Tracer) (sparse_mask : S) : result (option M) :=
  generate_pixelization_matrices_of_galaxy inversion_from_pix_grids
    (source_plane self) sparse_mask.

(** [MultiTracer.generate_pixelization_matrices_of_galaxies] *)
Definition generate_pixelization_matrices_of_galaxies {S M : Type}
  (inversion_from_pix_grids : Galaxy -> GridBundle grid -> S -> M)
  (self : MultiTracer) (mapping : S) : result (list (option M)) :=
  map_result
    (fun plane => generate_pixelization_matrices_of_galaxy inversion_from_pix_grids
                    plane mapping)
    (planes self).

(** [Tracer.generate_blurring_image_of_galaxy_light_profiles] *)
Definition Tracer_generate_blurring_image_of_galaxy_light_profiles (self : Tracer)
  : ndarray Qc :=
  np_add (generate_blurring_image_of_galaxy_light_profiles (image_plane self))
         (generate_blurring_image_of_galaxy_light_profiles (source_plane self)).

(** [MultiTracer.generate_blurring_image_of_galaxy_light_profiles] *)
Definition MultiTracer_generate_blurring_image_of_galaxy_light_profiles
  (self : MultiTracer) : option Qc :=
  np_sum_all (map generate_blurring_image_of_galaxy_light_profiles (planes self)).


End RayTracing.

(** * autolens/lens/plane.py *)

Module LensPlane.

(** Modelled from the spec: the galaxy of this module (its class is not
    among the sources).  The redshift may be absent; [einstein_radius] is
    absent for a galaxy without mass profiles. *)
Record Galaxy : Type := {
  redshift : option Qc;
  light_profile : option (vec -> Qc);
  mass_profile : option (vec -> vec);
  einstein_radius : option Qc;
  has_pixelization : bool;
  has_regularization : bool
}.

Definition has_light_profile (g : Galaxy) : bool :=
  match light_profile g with Some _ => true | None => false end.

Definition has_mass_profile (g : Galaxy) : bool :=
  match mass_profile g with Some _ => true | None => false end.

(** Modelled from the spec: [galaxy.deflections_from_grid(grid)], the
    deflection of the mass profile at every coordinate, zero vectors
    without one. *)
Definition deflections_from_grid (g : Galaxy) (coords : grid) : ndarray vec :=
  match mass_profile g with
  | Some f => Array (map f coords)
  | None => np_full (length coords) 0%Qc
  end.

(** Modelled from the spec: the cosmology provider (astropy), with the
    unit conversions of the callers folded in. *)
Record Cosmology : Type := {
  cosmo_arcsec_per_kpc_proper : Qc -> Qc;
  cosmo_angular_diameter_distance : Qc -> Qc;
  cosmo_critical_density : Qc -> Qc
}.

(** Modelled from the spec: the border of the regular grid
    ([masks.RegularGridBorder]), an opaque handle that the plane only
    stores. *)
Inductive RegularGridBorder : Type := border_pixels (pixels : list Z).

(** ** class AbstractPlane *)

Record AbstractPlane : Type := {
  plane_redshift : option Qc;
  galaxies : list Galaxy;
  cosmology : Cosmology
}.

(** A place where the code computes with a value as a number: [None]
    there is a [TypeError]. *)
Definition number (v : option Qc) : result Qc :=
  match v with
  | Some x => Ok x
  | None => Raise TypeError
  end.

(** The decorator.  A property returns a Python value, [Ok None] being
    Python's [None]. *)
Definition check_plane_for_redshift {A : Type}
  (func : AbstractPlane -> result (option A)) (self : AbstractPlane) : result (option A) :=
  match plane_redshift self with
  | Some _ => func self
  | None => Ok None
  end.

(** The undecorated property bodies. *)
Definition arcsec_per_kpc_proper_body (self : AbstractPlane) : result (option Qc) :=
  z <- number (plane_redshift self) ;;
  Ok (Some (cosmo_arcsec_per_kpc_proper (cosmology self) z)).

Definition arcsec_per_kpc_proper (self : AbstractPlane) : result (option Qc) :=
  check_plane_for_redshift arcsec_per_kpc_proper_body self.

Definition kpc_per_arcsec_proper_body (self : AbstractPlane) : result (option Qc) :=
  a <- arcsec_per_kpc_proper self ;;
  a <- number a ;;
  Ok (Some (1 / a)%Qc).

Definition kpc_per_arcsec_proper (self : AbstractPlane) : result (option Qc) :=
  check_plane_for_redshift kpc_per_arcsec_proper_body self.

Definition angular_diameter_distance_to_earth_body (self : AbstractPlane)
  : result (option Qc) :=
  z <- number (plane_redshift self) ;;
  Ok (Some (cosmo_angular_diameter_distance (cosmology self) z)).

Definition angular_diameter_distance_to_earth (self : AbstractPlane) : result (option Qc) :=
  check_plane_for_redshift angular_diameter_distance_to_earth_body self.

Definition cosmic_average_mass_density_arcsec_body (self : AbstractPlane)
  : result (option Qc) :=
  z <- number (plane_redshift self) ;;
  a <- arcsec_per_kpc_proper self ;;
  a <- number a ;;
  Ok (Some (cosmo_critical_density (cosmology self) z / (a * a * a))%Qc).

Definition cosmic_average_mass_density_arcsec (self : AbstractPlane) : result (option Qc) :=
  check_plane_for_redshift cosmic_average_mass_density_arcsec_body self.

Definition plane_has_light_profile (self : AbstractPlane) : bool :=
  existsb has_light_profile (galaxies self).

Definition plane_has_mass_profile (self : AbstractPlane) : bool :=
  existsb has_mass_profile (galaxies self).

Definition plane_has_pixelization (self : AbstractPlane) : bool :=
  existsb has_pixelization (galaxies self).

Definition plane_has_regularization (self : AbstractPlane) : bool :=
  existsb has_regularization (galaxies self).

(** [filter(None, values)] keeps the values that are neither [None] nor
    zero; [sum] adds them up. *)
Fixpoint sum_truthy (values : list (option Qc)) (acc : Qc) : Qc :=
  match values with
  | [] => acc
  | Some x :: rest => if Qceqb x 0%Qc then sum_truthy rest acc
                      else sum_truthy rest (acc + x)%Qc
  | None :: rest => sum_truthy rest acc
  end.

Definition einstein_radius_arcsec (self : AbstractPlane) : option Qc :=
  if plane_has_mass_profile self
  then Some (sum_truthy (map einstein_radius (galaxies self)) 0%Qc)
  else None.

Definition einstein_radius_kpc_body (self : AbstractPlane) : result (option Qc) :=
  if plane_has_mass_profile self
  then k <- kpc_per_arcsec_proper self ;;
       k <- number k ;;
       e <- number (einstein_radius_arcsec self) ;;
       Ok (Some (k * e)%Qc)
  else Ok None.

Definition einstein_radius_kpc (self : AbstractPlane) : result (option Qc) :=
  check_plane_for_redshift einstein_radius_kpc_body self.

(** ** class AbstractGriddedPlane *)

Record AbstractGriddedPlane : Type := {
  base : AbstractPlane;
  grid_stack : GridBundle grid;
  border : option RegularGridBorder;
  deflection_stack : option (GridBundle (ndarray vec))
}.

Definition calculate_deflections (gs : list Galaxy) (coords : grid) : ndarray vec :=
  match gs with
  | _ :: _ => py_sum (map (fun galaxy => deflections_from_grid galaxy coords) gs)
  | [] => np_full (length coords) 0%Qc
  end.

Definition AbstractGriddedPlane_init (z : option Qc) (gs : list Galaxy)
  (stack : GridBundle grid) (b : option RegularGridBorder) (compute_deflections : bool)
  (cosmo : Cosmology) : AbstractGriddedPlane :=
  {| base := {| plane_redshift := z; galaxies := gs; cosmology := cosmo |};
     grid_stack := stack;
     border := b;
     deflection_stack :=
       if compute_deflections
       then Some (apply_function (calculate_deflections gs) stack)
       else None |}.

(** [map_function] zips the grids of the stack with those of its argument;
    [None] is not iterable. *)
Definition trace_grid_stack_to_next_plane (self : AbstractGriddedPlane)
  : result (GridBundle grid) :=
  match deflection_stack self with
  | Some d => Ok (map_function np_subtract (grid_stack self) d)
  | None => Raise TypeError
  end.

(** ** class Plane *)

Definition redshift_eqb (a b : option Qc) : bool :=
  match a, b with
  | Some x, Some y => Qceqb x y
  | None, None => true
  | _, _ => false
  end.

Definition is_not_None {A : Type} (v : option A) : bool :=
  match v with Some _ => true | None => false end.

Definition Plane_init (gs : list Galaxy) (stack : GridBundle grid)
  (b : option RegularGridBorder) (compute_deflections : bool) (cosmo : Cosmology)
  : result AbstractGriddedPlane :=
  match gs with
  | [] => Raise (RayTracingException "An empty list of galaxies was supplied to Plane")
  | first :: _ =>
      let galaxy_redshifts := map redshift gs in
      if existsb is_not_None galaxy_redshifts
         && negb (forallb (fun galaxy => redshift_eqb (redshift first) (redshift galaxy)) gs)
      then Raise (RayTracingException
                    "The galaxies supplied to A Plane have different redshifts or one galaxy does not have a redshift.")
      else Ok (AbstractGriddedPlane_init (redshift first) gs stack b compute_deflections cosmo)
  end.

(** ** class PlaneSlice *)

Definition PlaneSlice_init (gs : list Galaxy) (stack : GridBundle grid) (z : option Qc)
  (b : option RegularGridBorder) (compute_deflections : bool) (cosmo : Cosmology)
  : result AbstractGriddedPlane :=
  Ok (AbstractGriddedPlane_init z gs stack b compute_deflections cosmo).

(** ** The remaining members of the planes *)

(** [AbstractPlane.regularization]; [regularization_of galaxy] stands for
    the attribute [galaxy.regularization]. *)
Definition regularization {R : Type} (regularization_of : Galaxy -> R)
  (self : AbstractPlane) : result (option R) :=
  let galaxies_with_regularization := filter has_regularization (galaxies self) in
  if (len galaxies_with_regularization =? 0)%Z then Ok None
  else if (len galaxies_with_regularization =? 1)%Z then
    g <- getitem galaxies_with_regularization 0 ;;
    Ok (Some (regularization_of g))
  else if (len galaxies_with_regularization >? 1)%Z then
    Raise (PixelizationException
             "The number of galaxies with regularizations in one plane is above 1")
  else Ok None.

(** [AbstractGriddedPlane.mapper]; [mapper_from_grid_stack_and_border galaxy]
    stands for [galaxy.pixelization.mapper_from_grid_stack_and_border]. *)
Definition mapper {M : Type}
  (mapper_from_grid_stack_and_border :
     Galaxy -> GridBundle grid -> option RegularGridBorder -> M)
  (self : AbstractGriddedPlane) : result (option M) :=
  let galaxies_with_pixelization := filter has_pixelization (galaxies (base self)) in
  if (len galaxies_with_pixelization =? 0)%Z then Ok None
  else if (len galaxies_with_pixelization =? 1)%Z then
    g <- getitem galaxies_with_pixelization 0 ;;
    Ok (Some (mapper_from_grid_stack_and_border g (grid_stack self) (border self)))
  else if (len galaxies_with_pixelization >? 1)%Z then
    Raise (PixelizationException
             "The number of galaxies with pixelizations in one plane is above 1")
  else Ok None.

(** ** class PlanePositions *)

Record PlanePositions : Type := {
  pp_redshift : option Qc;
  pp_galaxies : list Galaxy;
  positions : list grid;
  (** the attribute is set only when the plane is built with
      [compute_deflections] *)
  pp_deflections : option (list (ndarray vec));
  pp_cosmology : option Cosmology
}.

Definition PlanePositions_calculate_deflections (gs : list Galaxy) (pos : grid)
  : ndarray vec :=
  py_sum (map (fun galaxy => deflections_from_grid galaxy pos) gs).

Definition PlanePositions_init (z : option Qc) (gs : list Galaxy) (pos : list grid)
  (compute_deflections : bool) (cosmo : option Cosmology) : PlanePositions :=
  {| pp_redshift := z;
     pp_galaxies := gs;
     positions := pos;
     pp_deflections :=
       if compute_deflections
       then Some (map (PlanePositions_calculate_deflections gs) pos)
       else None;
     pp_cosmology := cosmo |}.

(** [PlanePositions.trace_to_next_plane]: [map] over two lists stops at the
    end of the shorter one. *)
Definition PlanePositions_trace_to_next_plane (self : PlanePositions)
  : result (list grid) :=
  match pp_deflections self with
  | Some ds => Ok (zip_with np_subtract (positions self) ds)
  | None => Raise (AttributeError "deflections")
  end.

End LensPlane.

(** * autolens/fit/fit_point_source.py *)

Module FitPointSource.

(** Modelled from the spec: a point-source profile, a fixed source-plane
    coordinate plus an optional flux.  [flux] is absent when the object has
    no [flux] attribute ([hasattr] is false). *)
Record PointSourceProfile : Type := {
  class_name : string;
  centre : vec;
  flux : option Qc
}.

(** Modelled from the spec: a galaxy of the tracer, seen as its named
    profiles. *)
Record Galaxy : Type := {
  profiles : list (string * PointSourceProfile)
}.

(** Modelled from the spec: a plane of the tracer, seen as its galaxies. *)
Record Plane : Type := {
  galaxies : list Galaxy
}.

(** Modelled from the spec: the tracer this module is given, whose class is
    not among the sources.  It is an ordered sequence of planes, answers
    queries for a named point-source profile, and computes magnifications
    from the Hessian of a deflection function (chosen by the upper plane
    index, [None] standing for [deflections_from_grid]). *)
Record Tracer : Type := {
  planes : list Plane;
  magnification_via_hessian_from_grid : option Z -> grid -> list Qc
}.

Fixpoint lookup_profile (name : string) (ps : list (string * PointSourceProfile))
  : option PointSourceProfile :=
  match ps with
  | [] => None
  | (k, p) :: rest => if String.eqb k name then Some p else lookup_profile name rest
  end.

Fixpoint find_in_galaxies (name : string) (gs : list Galaxy) : option PointSourceProfile :=
  match gs with
  | [] => None
  | g :: rest =>
      match lookup_profile name (profiles g) with
      | Some p => Some p
      | None => find_in_galaxies name rest
      end
  end.

(** Modelled from the spec: [tracer.extract_profile(profile_name)], the
    first profile of that name among the galaxies of the planes, [None]
    when no plane has one. *)
Definition extract_profile (tracer : Tracer) (profile_name : string)
  : option PointSourceProfile :=
  find_in_galaxies profile_name (flat_map galaxies (planes tracer)).

Fixpoint plane_index_from (name : string) (ps : list Plane) (i : Z) : result Z :=
  match ps with
  | [] => Raise (PointSourceExtractionException name)
  | p :: rest =>
      match find_in_galaxies name (galaxies p) with
      | Some _ => Ok i
      | None => plane_index_from name rest (i + 1)%Z
      end
  end.

(** Modelled from the spec: [tracer.extract_plane_index_of_profile], the
    index of the plane that holds the profile. *)
Definition extract_plane_index_of_profile (tracer : Tracer) (profile_name : string)
  : result Z :=
  plane_index_from profile_name (planes tracer) 0%Z.

(** Modelled from the spec: the point-source solver, an external numeric
    root finder, and the pairing of its answer with the observed
    positions. *)
Record PositionsSolver : Type := {
  solve : Tracer -> vec -> option Z -> grid;
  grid_of_closest_from_grid_pair : grid -> grid -> grid
}.

Definition no_profile_message (name : string) : string :=
  "For the point-source named " ++ name ++
  " there was no matching point source profile in the tracer (make sure your tracer's point source name is the same the dataset name.".

Definition no_flux_message (name cls : string) : string :=
  "For the point-source named " ++ name ++
  " the extracted point source was the class " ++ cls ++
  " and therefore does not contain a flux component.".

(** ** class FitPositionsImage *)

Record FitPositionsImage : Type := {
  fpi_name : string;
  fpi_positions_solver : PositionsSolver;
  fpi_point_source_profile : PointSourceProfile;
  source_plane_coordinate : vec;
  fpi_data : grid;
  fpi_noise_map : list Qc;
  fpi_model_data : grid
}.

Definition FitPositionsImage_init (name : string) (positions : grid) (noise_map : list Qc)
  (tracer : Tracer) (positions_solver : PositionsSolver) : result FitPositionsImage :=
  match extract_profile tracer name with
  | None => Raise (PointSourceExtractionException (no_profile_message name))
  | Some profile =>
      let coordinate := centre profile in
      upper_plane_index <-
        (if (len (planes tracer) >? 2)%Z
         then i <- extract_plane_index_of_profile tracer name ;; Ok (Some i)
         else Ok None) ;;
      let model_positions := solve positions_solver tracer coordinate upper_plane_index in
      let model_positions :=
        grid_of_closest_from_grid_pair positions_solver model_positions positions in
      Ok {| fpi_name := name;
            fpi_positions_solver := positions_solver;
            fpi_point_source_profile := profile;
            source_plane_coordinate := coordinate;
            fpi_data := positions;
            fpi_noise_map := noise_map;
            fpi_model_data := model_positions |}
  end.

(** ** class FitFluxes *)

Record FitFluxes : Type := {
  ff_name : string;
  ff_positions : grid;
  ff_point_source_profile : PointSourceProfile;
  magnifications : list Qc;
  ff_data : list Qc;
  ff_noise_map : list Qc;
  ff_model_data : list Qc
}.

Definition Qcabs (x : Qc) : Qc :=
  match (x ?= 0)%Qc with Lt => (- x)%Qc | _ => x end.

Definition FitFluxes_init (name : string) (fluxes noise_map : list Qc) (positions : grid)
  (tracer : Tracer) : result FitFluxes :=
  match extract_profile tracer name with
  | None => Raise (PointSourceExtractionException (no_profile_message name))
  | Some profile =>
      match flux profile with
      | None =>
          Raise (PointSourceExtractionException (no_flux_message name (class_name profile)))
      | Some f =>
          deflections_func <-
            (if (len (planes tracer) >? 2)%Z
             then i <- extract_plane_index_of_profile tracer name ;; Ok (Some i)
             else Ok None) ;;
          let mags :=
            map Qcabs (magnification_via_hessian_from_grid tracer deflections_func positions) in
          let model_fluxes := map (fun magnification => (magnification * f)%Qc) mags in
          Ok {| ff_name := name;
                ff_positions := positions;
                ff_point_source_profile := profile;
                magnifications := mags;
                ff_data := fluxes;
                ff_noise_map := noise_map;
                ff_model_data := model_fluxes |}
      end
  end.

(** The name occurs in the message. *)
Definition mentions (message name : string) : Prop :=
  exists before after : string, message = (before ++ name ++ after)%string.

(** Some galaxy of some plane of the tracer has a profile of that name. *)
Definition has_matching_profile (tracer : Tracer) (name : string) : Prop :=
  exists plane galaxy p,
    In plane (planes tracer) /\ In galaxy (galaxies plane) /\
    lookup_profile name (profiles galaxy) = Some p.

(** ** class AbstractFitPositionsSourcePlane *)

Record AbstractFitPositionsSourcePlane : Type := {
  afp_positions : grid;
  afp_noise_map : list Qc;
  source_plane_positions : grid
}.

(** [traced_grids_of_planes_from_grid] stands for the tracer's method of
    that name, an external collaborator giving the grid traced to every
    plane; the source plane is the last one. *)
Definition AbstractFitPositionsSourcePlane_init
  (traced_grids_of_planes_from_grid : Tracer -> grid -> list grid)
  (pos : grid) (noise_map : list Qc) (tracer : Tracer)
  : result AbstractFitPositionsSourcePlane :=
  traced <- getitem (traced_grids_of_planes_from_grid tracer pos) (-1) ;;
  Ok {| afp_positions := pos; afp_noise_map := noise_map;
        source_plane_positions := traced |}.

(** [furthest_distances_from_other_coordinates] stands for the property of
    that name of the traced grid, an external collaborator. *)
Definition furthest_separations_of_source_plane_positions
  (furthest_distances_from_other_coordinates : grid -> list Qc)
  (self : AbstractFitPositionsSourcePlane) : list Qc :=
  furthest_distances_from_other_coordinates (source_plane_positions self).

Definition max_separation_of_source_plane_positions
  (furthest_distances_from_other_coordinates : grid -> list Qc)
  (self : AbstractFitPositionsSourcePlane) : outcome Qc :=
  py_max (furthest_separations_of_source_plane_positions
            furthest_distances_from_other_coordinates self).

Definition max_separation_within_threshold
  (furthest_distances_from_other_coordinates : grid -> list Qc)
  (self : AbstractFitPositionsSourcePlane) (threshold : Qc) : outcome bool :=
  match max_separation_of_source_plane_positions
          furthest_distances_from_other_coordinates self with
  | Returned m => Returned (Qcleb m threshold)
  | Failed e => Failed e
  end.

End FitPointSource.

(** * autolens/pipeline/phase.py *)

Module Phase.

(** ** class ResultsCollection, a list *)

Definition last {A : Type} (self : list A) : result (option A) :=
  if (len self >? 0)%Z then x <- getitem self (-1) ;; Ok (Some x) else Ok None.

Definition first {A : Type} (self : list A) : result (option A) :=
  if (len self >? 0)%Z then x <- getitem self 0 ;; Ok (Some x) else Ok None.

(** ** class IntervalCounter *)

Record IntervalCounter : Type := {
  count : Z;
  interval : Z
}.

Definition IntervalCounter_init (n : Z) : IntervalCounter :=
  {| count := 0; interval := n |}.

(** [__call__]: the counter after the call and what the call gives.  The
    count is incremented before the remainder is taken, so it is
    incremented also when the remainder fails. *)
Definition IntervalCounter_call (self : IntervalCounter) : IntervalCounter * outcome bool :=
  if (interval self =? -1)%Z then (self, Returned false)
  else
    let self' := {| count := count self + 1; interval := interval self |} in
    if (interval self =? 0)%Z then (self', Failed ZeroDivisionError)
    else (self', Returned ((count self' mod interval self') =? 0)%Z).

(** [k] calls in a row, with what each gave. *)
Fixpoint calls (k : nat) (self : IntervalCounter) : IntervalCounter * list (outcome bool) :=
  match k with
  | O => (self, [])
  | S k' =>
      let (self', r) := IntervalCounter_call self in
      let (self'', rs) := calls k' self' in
      (self'', r :: rs)
  end.

(** How often calls gave [True]. *)
Definition count_true (rs : list (outcome bool)) : nat :=
  length (filter (fun r => match r with Returned true => true | _ => false end) rs).

End Phase.

(** * src/analysis/ray_tracing.py: TracerGeometry in double precision

    The distances of a [TracerGeometry] are numpy [float64] values, and
    [scaling_factor] multiplies and divides them.  This module reads the
    class over IEEE-754 binary64 numbers: numpy's [*] and [/] on [float64]
    are the IEEE operations, rounded to nearest; a product that overflows
    is an infinity, one that underflows is a subnormal or zero, and [/]
    never raises (x / 0 is an infinity, 0 / 0 and inf / inf are nan). *)

Module Binary64.

(** Modelled from the spec: the cosmology provider (astropy), with every
    distance already converted to kpc, as a [float64]. *)
Record Cosmology : Type := {
  angular_diameter_distance : float -> float;
  angular_diameter_distance_z1z2 : float -> float -> float
}.

(** ** class TracerGeometry *)

Record TracerGeometry : Type := {
  cosmology : Cosmology;
  redshifts : list float;
  final_plane : Z;
  ang_to_final_plane : float
}.

(** The body of [ang_to_earth], which [__init__] calls before the last
    attribute is set. *)
Definition ang_to_earth_of (c : Cosmology) (zs : list float) (plane_i : Z) : result float :=
  z <- getitem zs plane_i ;;
  Ok (angular_diameter_distance c z).

Definition TracerGeometry_init (zs : list float) (c : Cosmology) : result TracerGeometry :=
  let final := (len zs - 1)%Z in
  d <- ang_to_earth_of c zs final ;;
  Ok {| cosmology := c; redshifts := zs; final_plane := final; ang_to_final_plane := d |}.

Definition ang_to_earth (self : TracerGeometry) (plane_i : Z) : result float :=
  ang_to_earth_of (cosmology self) (redshifts self) plane_i.

Definition ang_between_planes (self : TracerGeometry) (plane_i plane_j : Z) : result float :=
  zi <- getitem (redshifts self) plane_i ;;
  zj <- getitem (redshifts self) plane_j ;;
  Ok (angular_diameter_distance_z1z2 (cosmology self) zi zj).

Definition scaling_factor (self : TracerGeometry) (plane_i plane_j : Z) : result float :=
  dij <- ang_between_planes self plane_i plane_j ;;
  dj <- ang_to_earth self plane_j ;;
  dif <- ang_between_planes self plane_i (final_plane self) ;;
  Ok ((dij * ang_to_final_plane self) / (dj * dif))%float.

(** A double that is neither nan, nor an infinity, nor a zero: Python's
    [math.isfinite(x) and x != 0.0]. *)
Definition is_finite_nonzero (x : float) : bool :=
  PrimFloat.is_finite x && negb (PrimFloat.is_zero x).

End Binary64.

(** * Concrete inputs used by the examples below *)

Module Examples.

(** A toy cosmology: the distance to redshift [z] is [z], the distance
    between two redshifts their difference. *)
Definition flat_cosmology : RayTracing.Cosmology :=
  {| RayTracing.arcsec_per_kpc_proper := fun z => (z + 1)%Qc;
     RayTracing.angular_diameter_distance := fun z => z;
     RayTracing.angular_diameter_distance_z1z2 := fun z1 z2 => (z2 - z1)%Qc;
     RayTracing.constant_kpc := 1%Qc |}.

Definition two_planes : RayTracing.TracerGeometry :=
  {| RayTracing.cosmology := flat_cosmology;
     RayTracing.redshifts := [qc 1 2; qc 1 1];
     RayTracing.final_plane := 1%Z;
     RayTracing.ang_to_final_plane := qc 1 1 |}.

Definition sis_deflection (c : vec) : vec := (fst c * qc 1 2, snd c * qc 1 2)%Qc.

Definition lens_galaxy : RayTracing.Galaxy :=
  {| RayTracing.redshift := qc 1 2;
     RayTracing.light_profile := Some (fun c => (fst c + snd c)%Qc);
     RayTracing.mass_profile := Some sis_deflection;
     RayTracing.has_pixelization := false |}.

Definition dark_galaxy : RayTracing.Galaxy :=
  {| RayTracing.redshift := qc 1 1;
     RayTracing.light_profile := None;
     RayTracing.mass_profile := Some sis_deflection;
     RayTracing.has_pixelization := false |}.

Definition source_galaxy : RayTracing.Galaxy :=
  {| RayTracing.redshift := qc 2 1;
     RayTracing.light_profile := Some (fun c => fst c);
     RayTracing.mass_profile := None;
     RayTracing.has_pixelization := false |}.

Definition three_galaxies : list RayTracing.Galaxy :=
  [source_galaxy; lens_galaxy; dark_galaxy].

Definition small_grid : grid := [(qc 1 1, qc 1 1); (qc 1 1, qc (-1) 1)].

Definition small_bundle : GridBundle grid :=
  {| regular := small_grid; sub := small_grid; blurring := [(qc 2 1, qc 0 1)] |}.

Definition planck : LensPlane.Cosmology :=
  {| LensPlane.cosmo_arcsec_per_kpc_proper := fun z => (z + 1)%Qc;
     LensPlane.cosmo_angular_diameter_distance := fun z => z;
     LensPlane.cosmo_critical_density := fun z => (z * z)%Qc |}.

Definition isothermal_galaxy (z : option Qc) : LensPlane.Galaxy :=
  {| LensPlane.redshift := z;
     LensPlane.light_profile := None;
     LensPlane.mass_profile := Some sis_deflection;
     LensPlane.einstein_radius := Some (qc 8 5);
     LensPlane.has_pixelization := false;
     LensPlane.has_regularization := false |}.

Definition plane_without_redshift : LensPlane.AbstractPlane :=
  {| LensPlane.plane_redshift := None;
     LensPlane.galaxies := [isothermal_galaxy None];
     LensPlane.cosmology := planck |}.

Definition plane_at_redshift_one : LensPlane.AbstractPlane :=
  {| LensPlane.plane_redshift := Some (qc 1 1);
     LensPlane.galaxies := [isothermal_galaxy (Some (qc 1 1))];
     LensPlane.cosmology := planck |}.

Definition quasar : FitPointSource.PointSourceProfile :=
  {| FitPointSource.class_name := "PointSourceFlux";
     FitPointSource.centre := (qc 0 1, qc 0 1);
     FitPointSource.flux := Some (qc 2 1) |}.

Definition fluxless : FitPointSource.PointSourceProfile :=
  {| FitPointSource.class_name := "PointSource";
     FitPointSource.centre := (qc 0 1, qc 0 1);
     FitPointSource.flux := None |}.

Definition point_tracer : FitPointSource.Tracer :=
  {| FitPointSource.planes :=
       [ {| FitPointSource.galaxies := [ {| FitPointSource.profiles := [] |} ] |};
         {| FitPointSource.galaxies :=
              [ {| FitPointSource.profiles :=
                     [("point_0"%string, quasar); ("point_1"%string, fluxless)] |} ] |} ];
     FitPointSource.magnification_via_hessian_from_grid :=
       fun _ positions => map (fun _ => qc (-3) 1) positions |}.

Definition pixelized_galaxy : RayTracing.Galaxy :=
  {| RayTracing.redshift := qc 2 1;
     RayTracing.light_profile := None;
     RayTracing.mass_profile := None;
     RayTracing.has_pixelization := true |}.

Definition pixelized_plane : RayTracing.Plane :=
  RayTracing.Plane_init [source_galaxy; pixelized_galaxy] small_bundle false.

Definition regularized_galaxy : LensPlane.Galaxy :=
  {| LensPlane.redshift := Some (qc 2 1);
     LensPlane.light_profile := None;
     LensPlane.mass_profile := None;
     LensPlane.einstein_radius := None;
     LensPlane.has_pixelization := true;
     LensPlane.has_regularization := true |}.

Definition regularized_plane : LensPlane.AbstractPlane :=
  {| LensPlane.plane_redshift := Some (qc 2 1);
     LensPlane.galaxies := [isothermal_galaxy (Some (qc 2 1)); regularized_galaxy];
     LensPlane.cosmology := planck |}.

Definition traced_twice (tracer : FitPointSource.Tracer) (pos : grid) : list grid :=
  [pos; map sis_deflection pos].

Definition first_coordinates (g : grid) : list Qc := map fst g.

(** A toy cosmology in doubles: the distance to redshift [z] is
    [scale * z], the distance between two redshifts [scale] times their
    difference. *)
Definition linear_cosmology (scale : float) : Binary64.Cosmology :=
  {| Binary64.angular_diameter_distance := fun z => (scale * z)%float;
     Binary64.angular_diameter_distance_z1z2 := fun z1 z2 => (scale * (z2 - z1))%float |}.

(** Distances of the order of 1e200 kpc and of 1e-200 kpc; the literals
    stand for the nearest doubles, as in Python. *)
Set Warnings "-inexact-float".
Definition huge_cosmology : Binary64.Cosmology := linear_cosmology 1e200.
Definition tiny_cosmology : Binary64.Cosmology := linear_cosmology 1e-200.
Set Warnings "inexact-float".

(** A massive galaxy behind, and a luminous galaxy in front of it. *)
Definition background_lens : RayTracing.Galaxy :=
  {| RayTracing.redshift := qc 2 1;
     RayTracing.light_profile := None;
     RayTracing.mass_profile := Some sis_deflection;
     RayTracing.has_pixelization := false |}.

Definition foreground_source : RayTracing.Galaxy :=
  {| RayTracing.redshift := qc 1 2;
     RayTracing.light_profile := Some (fun c => fst c);
     RayTracing.mass_profile := None;
     RayTracing.has_pixelization := false |}.

End Examples.

(** * Facts about the error monad and Python lists *)

Unset Implicit Arguments.

Lemma bind_Ok_inv {A B : Type} (m : result A) (k : A -> result B) (b : B) :
  bind m k = Ok b -> exists a, m = Ok a /\ k a = Ok b.
Proof.
  destruct m as [a | e]; simpl; intros Hk.
  - exists a. split; [reflexivity | exact Hk].
  - discriminate Hk.
Qed.

Lemma getitem_nil {A : Type} (i : Z) : getitem (@nil A) i = Raise IndexError.
Proof.
  unfold getitem. simpl.
  destruct (i <? 0)%Z eqn:Hi.
  - replace (i + 0)%Z with i by lia. rewrite Hi. reflexivity.
  - destruct (0 <=? i)%Z eqn:Hle.
    + rewrite orb_true_r. reflexivity.
    + apply Z.ltb_ge in Hi. apply Z.leb_gt in Hle. lia.
Qed.

(** The only exception that indexing raises is [IndexError]. *)
Lemma getitem_raises {A : Type} (l : list A) (i : Z) (e : exn) :
  getitem l i = Raise e -> e = IndexError.
Proof.
  unfold getitem.
  destruct ((_ <? 0) || _)%Z; [intros H; inversion H; reflexivity |].
  destruct (nth_error l _); [discriminate |].
  intros H; inversion H; reflexivity.
Qed.

Lemma getitem_out_of_range {A : Type} (l : list A) (i : Z) :
  out_of_range l i -> getitem l i = Raise IndexError.
Proof.
  unfold out_of_range, getitem, len. intros Hi.
  destruct (i <? 0)%Z eqn:Hneg.
  - apply Z.ltb_lt in Hneg.
    assert (Hj : (i + Z.of_nat (length l) <? 0)%Z = true) by (apply Z.ltb_lt; lia).
    rewrite Hj. reflexivity.
  - apply Z.ltb_ge in Hneg.
    assert (Hj : (Z.of_nat (length l) <=? i)%Z = true) by (apply Z.leb_le; lia).
    rewrite Hj, orb_true_r. reflexivity.
Qed.

Lemma getitem_nat {A : Type} (l : list A) (i : nat) :
  getitem l (Z.of_nat i) =
  match nth_error l i with Some x => Ok x | None => Raise IndexError end.
Proof.
  unfold getitem.
  assert (Hneg : (Z.of_nat i <? 0)%Z = false) by (apply Z.ltb_ge; lia).
  cbv zeta. rewrite Hneg. cbv iota. rewrite Hneg, Nat2Z.id.
  destruct (Z.of_nat (length l) <=? Z.of_nat i)%Z eqn:Hle; simpl.
  - apply Z.leb_le in Hle.
    assert (Hnone : nth_error l i = None) by (apply nth_error_None; lia).
    rewrite Hnone. reflexivity.
  - reflexivity.
Qed.

Lemma getitem_negative {A : Type} (l : list A) (i : Z) :
  (- len l <= i < 0)%Z -> getitem l i = getitem l (i + len l).
Proof.
  unfold getitem, len. intros [Hlo Hhi].
  assert (H1 : (i <? 0)%Z = true) by (apply Z.ltb_lt; lia).
  assert (H2 : (i + Z.of_nat (length l) <? 0)%Z = false) by (apply Z.ltb_ge; lia).
  cbv zeta. rewrite H1. cbv iota. rewrite !H2. reflexivity.
Qed.

(** * TracerGeometry *)

Section GeometryFacts.

Import RayTracing.

Variable self : TracerGeometry.

Lemma ang_to_earth_raises (i : Z) :
  redshifts self = [] \/ out_of_range (redshifts self) i ->
  ang_to_earth self i = Raise IndexError.
Proof.
  unfold ang_to_earth, ang_to_earth_of. intros [Hnil | Hi].
  - rewrite Hnil, getitem_nil. reflexivity.
  - rewrite (getitem_out_of_range _ _ Hi). reflexivity.
Qed.

Lemma ang_between_planes_raises (i j : Z) :
  redshifts self = [] \/ out_of_range (redshifts self) i \/ out_of_range (redshifts self) j ->
  ang_between_planes self i j = Raise IndexError.
Proof.
  unfold ang_between_planes. intros [Hnil | [Hi | Hj]].
  - rewrite Hnil, getitem_nil. reflexivity.
  - rewrite (getitem_out_of_range _ _ Hi). reflexivity.
  - rewrite (getitem_out_of_range _ _ Hj).
    destruct (getitem (redshifts self) i) as [zi | e] eqn:Hzi; simpl.
    + reflexivity.
    + rewrite (getitem_raises _ _ _ Hzi). reflexivity.
Qed.

Lemma ang_to_earth_exn (i : Z) (e : exn) :
  ang_to_earth self i = Raise e -> e = IndexError.
Proof.
  unfold ang_to_earth, ang_to_earth_of.
  destruct (getitem (redshifts self) i) eqn:Hz; simpl; [discriminate |].
  intros H; inversion H; subst. exact (getitem_raises _ _ _ Hz).
Qed.

Lemma ang_between_planes_exn (i j : Z) (e : exn) :
  ang_between_planes self i j = Raise e -> e = IndexError.
Proof.
  unfold ang_between_planes.
  destruct (getitem (redshifts self) i) eqn:Hzi; simpl.
  - destruct (getitem (redshifts self) j) eqn:Hzj; simpl; [discriminate |].
    intros H; inversion H; subst. exact (getitem_raises _ _ _ Hzj).
  - intros H; inversion H; subst. exact (getitem_raises _ _ _ Hzi).
Qed.

Lemma critical_density_kpc_raises (i j : Z) :
  redshifts self = [] \/ out_of_range (redshifts self) i \/ out_of_range (redshifts self) j ->
  critical_density_kpc self i j = Raise IndexError.
Proof.
  intros H. unfold critical_density_kpc.
  destruct (ang_to_earth self j) as [dj | e] eqn:Hdj; simpl.
  - rewrite (ang_between_planes_raises _ _ H). reflexivity.
  - rewrite (ang_to_earth_exn _ _ Hdj). reflexivity.
Qed.

Lemma scaling_factor_raises (i j : Z) :
  redshifts self = [] \/ out_of_range (redshifts self) i \/ out_of_range (redshifts self) j ->
  scaling_factor self i j = Raise IndexError.
Proof.
  intros H. unfold scaling_factor.
  rewrite (ang_between_planes_raises _ _ H). reflexivity.
Qed.

End GeometryFacts.

(** C3, as amended: a request for a distance, a critical surface density or
    a scaling factor on a geometry whose redshift list is empty, or with a
    plane index outside [-n, n) for a list of n redshifts, fails with
    Python's IndexError; and a geometry cannot be constructed from an empty
    redshift list at all, the constructor failing with IndexError. *)
Theorem geometry_request_out_of_range_is_IndexError
  (self : RayTracing.TracerGeometry) (i j : Z) :
  RayTracing.redshifts self = [] \/
  out_of_range (RayTracing.redshifts self) i \/
  out_of_range (RayTracing.redshifts self) j ->
  RayTracing.ang_between_planes self i j = Raise IndexError /\
  RayTracing.critical_density_kpc self i j = Raise IndexError /\
  RayTracing.critical_density_arcsec self i j = Raise IndexError /\
  RayTracing.scaling_factor self i j = Raise IndexError /\
  (RayTracing.redshifts self = [] \/ out_of_range (RayTracing.redshifts self) i ->
   RayTracing.ang_to_earth self i = Raise IndexError) /\
  (forall c, RayTracing.TracerGeometry_init [] c = Raise IndexError).
Proof.
  intros H. repeat split.
  - apply ang_between_planes_raises, H.
  - apply critical_density_kpc_raises, H.
  - unfold RayTracing.critical_density_arcsec.
    rewrite (critical_density_kpc_raises _ _ _ H). reflexivity.
  - apply scaling_factor_raises, H.
  - apply ang_to_earth_raises.
Qed.

Lemma geometry_request_out_of_range_is_IndexError_witness :
  out_of_range (RayTracing.redshifts Examples.two_planes) 2 /\
  RayTracing.scaling_factor Examples.two_planes 0 2 = Raise IndexError.
Proof.
  assert (H : out_of_range (RayTracing.redshifts Examples.two_planes) 2)
    by (unfold out_of_range, len; simpl; lia).
  split; [exact H |].
  apply (geometry_request_out_of_range_is_IndexError Examples.two_planes 0 2).
  right. right. exact H.
Defined.

(** C3 as stated fails: on a two-plane geometry the index 2 is out of
    range, the requests fail with IndexError and not with a
    GeometryException; an empty redshift list makes the constructor fail
    with IndexError; and the index -1 is accepted, denoting the last
    plane. *)
Lemma geometry_exception_counterexample :
  RayTracing.TracerGeometry_init [qc 1 2; qc 1 1] Examples.flat_cosmology
    = Ok Examples.two_planes /\
  out_of_range (RayTracing.redshifts Examples.two_planes) 2 /\
  RayTracing.ang_to_earth Examples.two_planes 2 = Raise IndexError /\
  RayTracing.scaling_factor Examples.two_planes 0 2 = Raise IndexError /\
  RayTracing.critical_density_kpc Examples.two_planes 0 2 = Raise IndexError /\
  (forall msg, RayTracing.scaling_factor Examples.two_planes 0 2
               <> Raise (GeometryException msg)) /\
  (forall msg, RayTracing.TracerGeometry_init [] Examples.flat_cosmology
               <> Raise (GeometryException msg)) /\
  RayTracing.ang_to_earth Examples.two_planes (-1) = Ok (qc 1 1).
Proof.
  repeat split; try reflexivity.
  - unfold out_of_range, len; simpl; lia.
  - intros msg. discriminate.
  - intros msg. discriminate.
Qed.

(** * TracerGeometry in double precision *)

(** IEEE multiplication is commutative: the rounded product does not
    depend on the order of the factors. *)
Lemma float_mul_comm (x y : float) : (x * y = y * x)%float.
Proof.
  apply Prim2SF_inj. rewrite !mul_spec. unfold SF64mul, SFmul.
  destruct (Prim2SF x) as [sx | sx | | sx mx ex], (Prim2SF y) as [sy | sy | | sy my ey];
    try reflexivity; try (rewrite (xorb_comm sx sy); reflexivity).
  rewrite (xorb_comm sx sy), (Pos.mul_comm mx my), (Z.add_comm ex ey). reflexivity.
Qed.

Lemma SFdiv_core_binary_self (m : positive) (e : Z) :
  SFdiv_core_binary prec emax (Zpos m) e (Zpos m) e = (2 ^ 53, -53, loc_Exact)%Z.
Proof.
  unfold SFdiv_core_binary.
  rewrite !Z.sub_diag.
  change (Z.min (fexp prec emax 0) 0)%Z with (-53)%Z.
  change (0 - -53)%Z with 53%Z. cbv beta iota zeta.
  assert (H : Z.div_eucl (Z.shiftl (Zpos m) 53) (Zpos m) = (2 ^ 53, 0)%Z).
  { rewrite Z.shiftl_mul_pow2 by lia.
    pose proof (Z.div_mul (2 ^ 53) (Zpos m)) as Hd.
    pose proof (Z.mod_mul (2 ^ 53) (Zpos m)) as Hm.
    unfold Z.div, Z.modulo in Hd, Hm.
    rewrite (Z.mul_comm (Zpos m)).
    destruct (Z.div_eucl (2 ^ 53 * Zpos m) (Zpos m)) as [q r].
    rewrite Hd, Hm by lia. reflexivity. }
  rewrite H.
  unfold new_location. destruct (Z.even (Zpos m)); reflexivity.
Qed.

Lemma SFcompare_refl_finite (s : bool) (m : positive) (e : Z) :
  SFcompare (S754_finite s m e) (S754_finite s m e) = Some Eq.
Proof.
  unfold SFcompare. rewrite Z.compare_refl.
  destruct s; rewrite Pos.compare_cont_refl; reflexivity.
Qed.

(** The doubles that are finite and nonzero are those with a sign, a
    mantissa and an exponent. *)
Lemma is_finite_nonzero_spec (x : float) :
  Binary64.is_finite_nonzero x
  = match Prim2SF x with S754_finite _ _ _ => true | _ => false end.
Proof.
  unfold Binary64.is_finite_nonzero, is_finite, is_nan, is_infinity, is_zero.
  rewrite !FloatAxioms.eqb_spec, FloatAxioms.abs_spec. unfold SFeqb.
  replace (Prim2SF infinity) with (S754_infinity false) by (vm_compute; reflexivity).
  replace (Prim2SF zero) with (S754_zero false) by (vm_compute; reflexivity).
  destruct (Prim2SF x) as [s | s | | s m e].
  - destruct s; reflexivity.
  - destruct s; reflexivity.
  - reflexivity.
  - rewrite SFcompare_refl_finite. destruct s; reflexivity.
Qed.

(** A double divided by itself is 1.0 when it is finite and nonzero, and
    nan otherwise (0 / 0, inf / inf, nan / nan). *)
Lemma float_div_self (x : float) :
  (x / x)%float = if Binary64.is_finite_nonzero x then 1%float else nan.
Proof.
  rewrite is_finite_nonzero_spec.
  apply Prim2SF_inj. rewrite div_spec. unfold SF64div, SFdiv.
  destruct (Prim2SF x) as [sx | sx | | sx mx ex]; try reflexivity.
  rewrite SFdiv_core_binary_self, xorb_nilpotent. vm_compute. reflexivity.
Qed.

Lemma float_nan_is_not_one : @Ok float nan <> Ok 1%float.
Proof.
  intros H.
  apply (f_equal (fun r => match r with Ok x => PrimFloat.eqb x 1 | Raise _ => true end)) in H.
  vm_compute in H. discriminate H.
Qed.

(** C4, which does not hold as worded: two distinct redshifts and nonzero
    distances, yet the scaling factor from plane 0 to plane 1 is nan, not
    1.0.  With distances of the order of 1e200 the two products overflow
    to infinity, and inf / inf is nan; with distances of the order of
    1e-200 they underflow to zero, and 0 / 0 is nan. *)
Lemma two_plane_scaling_factor_nan_counterexample :
  PrimFloat.eqb 0.5 1 = false /\
  (exists g,
     Binary64.TracerGeometry_init [0.5; 1]%float Examples.huge_cosmology = Ok g /\
     PrimFloat.eqb
       (Binary64.angular_diameter_distance Examples.huge_cosmology 0.5) 0 = false /\
     PrimFloat.eqb
       (Binary64.angular_diameter_distance Examples.huge_cosmology 1) 0 = false /\
     PrimFloat.eqb
       (Binary64.angular_diameter_distance_z1z2 Examples.huge_cosmology 0.5 1) 0
     = false /\
     Binary64.scaling_factor g 0 1 = Ok nan /\
     Binary64.scaling_factor g 0 1 <> Ok 1%float) /\
  (exists g,
     Binary64.TracerGeometry_init [0.5; 1]%float Examples.tiny_cosmology = Ok g /\
     PrimFloat.eqb
       (Binary64.angular_diameter_distance Examples.tiny_cosmology 0.5) 0 = false /\
     PrimFloat.eqb
       (Binary64.angular_diameter_distance Examples.tiny_cosmology 1) 0 = false /\
     PrimFloat.eqb
       (Binary64.angular_diameter_distance_z1z2 Examples.tiny_cosmology 0.5 1) 0
     = false /\
     Binary64.scaling_factor g 0 1 = Ok nan /\
     Binary64.scaling_factor g 0 1 <> Ok 1%float).
Proof.
  split; [vm_compute; reflexivity |].
  split; eexists; (split; [reflexivity |]);
    repeat (split; [vm_compute; reflexivity |]);
    (replace (Binary64.scaling_factor _ 0 1) with (@Ok float nan)
       by (vm_compute; reflexivity));
    exact float_nan_is_not_one.
Qed.

(** C4, as the code has it: in every two-plane geometry the scaling factor
    from plane 0 to plane 1 is the quotient [(D01 * D1) / (D1 * D01)] of a
    double product by itself.  It is exactly 1.0 when the product of the
    distance between the planes and the distance to plane 1 is a finite
    nonzero double, and nan when that product overflows to an infinity,
    underflows to zero or is nan. *)
Theorem two_plane_scaling_factor_is_one_or_nan (c : Binary64.Cosmology) (z0 z1 : float) :
  let d1 := Binary64.angular_diameter_distance c z1 in
  let d01 := Binary64.angular_diameter_distance_z1z2 c z0 z1 in
  exists g,
    Binary64.TracerGeometry_init [z0; z1] c = Ok g /\
    Binary64.scaling_factor g 0 1 = Ok ((d01 * d1) / (d1 * d01))%float /\
    Binary64.scaling_factor g 0 1
    = Ok (if Binary64.is_finite_nonzero (d01 * d1)%float then 1%float else nan).
Proof.
  intros d1 d01.
  pose (g := {| Binary64.cosmology := c; Binary64.redshifts := [z0; z1];
                Binary64.final_plane := 1%Z; Binary64.ang_to_final_plane := d1 |}).
  exists g. split; [reflexivity |].
  assert (Hsf : Binary64.scaling_factor g 0 1 = Ok ((d01 * d1) / (d1 * d01))%float)
    by reflexivity.
  split; [exact Hsf |].
  rewrite Hsf, (float_mul_comm d1 d01), float_div_self. reflexivity.
Qed.

Lemma two_plane_scaling_factor_is_one_or_nan_witness :
  exists g,
    Binary64.TracerGeometry_init [0.5; 1]%float (Examples.linear_cosmology 1737.5) = Ok g /\
    Binary64.scaling_factor g 0 1 = Ok 1%float.
Proof.
  destruct (two_plane_scaling_factor_is_one_or_nan (Examples.linear_cosmology 1737.5) 0.5 1)
    as (g & Hg & _ & Hsf).
  exists g. split; [exact Hg | exact Hsf].
Defined.

(** * numpy arithmetic *)

#[export] Instance ElemLaws_Qc : ElemLaws Qc.
Proof. split; intros; simpl; ring. Qed.

#[export] Instance ElemLaws_vec : ElemLaws vec.
Proof.
  split; try (intros [x1 x2]); try (intros [y1 y2]); try (intros [z1 z2]);
    intros; simpl; f_equal; ring.
Qed.

Lemma zip_with_length {A B C : Type} (f : A -> B -> C) (xs : list A) (ys : list B) :
  length xs = length ys -> length (zip_with f xs ys) = length xs.
Proof.
  revert ys. induction xs as [| x xs IH]; intros [| y ys] Hlen; simpl in *;
    try reflexivity; try discriminate.
  f_equal. apply IH. lia.
Qed.

Lemma zip_with_nth {A B C : Type} (f : A -> B -> C) (xs : list A) (ys : list B)
  (i : nat) (x : A) (y : B) :
  nth_error xs i = Some x -> nth_error ys i = Some y ->
  nth_error (zip_with f xs ys) i = Some (f x y).
Proof.
  revert ys i. induction xs as [| x' xs IH]; intros [| y' ys] [| i] Hx Hy;
    simpl in *; try discriminate.
  - inversion Hx; inversion Hy; reflexivity.
  - apply IH; assumption.
Qed.

Section ElemArithmetic.

Context {E : Type} {elem : Elem E} {laws : ElemLaws E}.

Lemma np_add_0_l (a : ndarray E) : np_add (Scalar 0%Qc) a = a.
Proof.
  destruct a as [c | ys]; simpl.
  - f_equal. ring.
  - f_equal. induction ys as [| y ys IH]; simpl; [reflexivity |].
    rewrite IH, e_add_0_l. reflexivity.
Qed.

Lemma np_add_0_r (a : ndarray E) : np_add a (Scalar 0%Qc) = a.
Proof.
  destruct a as [c | ys]; simpl.
  - f_equal. ring.
  - f_equal. induction ys as [| y ys IH]; simpl; [reflexivity |].
    rewrite IH, e_add_0_r. reflexivity.
Qed.

Lemma np_add_assoc (a b c : ndarray E) :
  np_add (np_add a b) c = np_add a (np_add b c).
Proof.
  destruct a as [x | xs], b as [y | ys], c as [z | zs]; simpl; f_equal.
  - ring.
  - rewrite map_map. apply map_ext. intros w.
    rewrite e_fill_add. apply e_add_assoc.
  - rewrite !map_map. apply map_ext. intros w. apply e_add_assoc.
  - revert zs. induction ys as [| y ys IH]; intros [| z zs]; simpl; try reflexivity.
    rewrite IH, e_add_assoc. reflexivity.
  - rewrite !map_map. apply map_ext. intros w.
    rewrite e_fill_add. apply e_add_assoc.
  - revert zs. induction xs as [| x xs IH]; intros [| z zs]; simpl; try reflexivity.
    rewrite IH, e_add_assoc. reflexivity.
  - revert ys. induction xs as [| x xs IH]; intros [| y ys]; simpl; try reflexivity.
    rewrite IH, e_add_assoc. reflexivity.
  - revert ys zs. induction xs as [| x xs IH]; intros [| y ys] [| z zs]; simpl;
      try reflexivity.
    rewrite IH, e_add_assoc. reflexivity.
Qed.

Lemma fold_np_add_from (xs : list (ndarray E)) (acc : ndarray E) :
  fold_left np_add xs acc = np_add acc (py_sum xs).
Proof.
  unfold py_sum. revert acc.
  induction xs as [| x xs IH]; intros acc; cbn [fold_left].
  - symmetry. apply np_add_0_r.
  - rewrite (IH (np_add acc x)), (IH (np_add (Scalar 0%Qc) x)).
    rewrite np_add_0_l. apply np_add_assoc.
Qed.

Lemma py_sum_app (xs ys : list (ndarray E)) :
  py_sum (xs ++ ys) = np_add (py_sum xs) (py_sum ys).
Proof.
  unfold py_sum at 1. rewrite fold_left_app.
  apply fold_np_add_from.
Qed.

Lemma py_sum_cons (x : ndarray E) (xs : list (ndarray E)) :
  py_sum (x :: xs) = np_add x (py_sum xs).
Proof.
  unfold py_sum at 1. cbn [fold_left].
  rewrite np_add_0_l. apply fold_np_add_from.
Qed.

Lemma np_subtract_0 (g : list E) : np_subtract g (Scalar 0%Qc) = g.
Proof.
  simpl. induction g as [| x g IH]; simpl; [reflexivity |].
  rewrite IH, e_sub_0. reflexivity.
Qed.

Lemma np_subtract_subtract (g : list E) (a b : ndarray E) :
  np_subtract (np_subtract g a) b = np_subtract g (np_add a b).
Proof.
  destruct a as [x | xs], b as [y | ys]; simpl.
  - rewrite map_map. apply map_ext. intros w.
    rewrite e_fill_add. apply e_sub_sub.
  - revert ys. induction g as [| w g IH]; intros [| y ys]; simpl; try reflexivity.
    rewrite IH, e_sub_sub. reflexivity.
  - revert xs. induction g as [| w g IH]; intros [| x xs]; simpl; try reflexivity.
    rewrite IH, e_sub_sub. reflexivity.
  - revert xs ys. induction g as [| w g IH]; intros [| x xs] [| y ys]; simpl;
      try reflexivity.
    rewrite IH, e_sub_sub. reflexivity.
Qed.

(** Subtracting arrays one after the other subtracts their sum. *)
Lemma fold_np_subtract (xs : list (ndarray E)) (g : list E) :
  fold_left np_subtract xs g = np_subtract g (py_sum xs).
Proof.
  revert g. induction xs as [| x xs IH]; intros g; cbn [fold_left].
  - symmetry. apply np_subtract_0.
  - rewrite IH, py_sum_cons. apply np_subtract_subtract.
Qed.

End ElemArithmetic.

(** * Aggregated light *)

(** C9: the aggregated light of two galaxy lists put together is the
    elementwise sum of the aggregated light of each, and a galaxy without
    a light profile contributes zero at every coordinate. *)
Theorem intensities_via_grid_superposition
  (coords : grid) (A B : list RayTracing.Galaxy) :
  RayTracing.intensities_via_grid coords (A ++ B) =
    np_add (RayTracing.intensities_via_grid coords A)
           (RayTracing.intensities_via_grid coords B)
  /\ (forall g, RayTracing.light_profile g = None ->
        RayTracing.intensity_from_grid g coords = Array (repeat 0%Qc (length coords)) /\
        RayTracing.intensities_via_grid coords (A ++ [g]) =
          np_add (RayTracing.intensities_via_grid coords A)
                 (Array (repeat 0%Qc (length coords)))).
Proof.
  split.
  - unfold RayTracing.intensities_via_grid. rewrite map_app. apply py_sum_app.
  - intros g Hg.
    assert (Hzero : RayTracing.intensity_from_grid g coords
                    = Array (repeat 0%Qc (length coords))).
    { unfold RayTracing.intensity_from_grid. rewrite Hg. reflexivity. }
    split; [exact Hzero |].
    unfold RayTracing.intensities_via_grid. rewrite map_app, py_sum_app. simpl.
    rewrite Hzero, py_sum_cons.
    change (py_sum (@nil (ndarray Qc))) with (@Scalar Qc 0%Qc).
    rewrite np_add_0_r. reflexivity.
Qed.

Lemma intensities_via_grid_superposition_witness :
  RayTracing.light_profile Examples.dark_galaxy = None /\
  RayTracing.intensity_from_grid Examples.dark_galaxy Examples.small_grid
    = Array [0%Qc; 0%Qc].
Proof.
  split; [reflexivity |].
  apply (intensities_via_grid_superposition Examples.small_grid
           [Examples.lens_galaxy] [Examples.source_galaxy]).
  reflexivity.
Defined.

(** * Deflection fields and tracing to the next plane *)

Section Shapes.

Context {E : Type} {elem : Elem E}.

Lemma np_add_shape (n : nat) (a b : ndarray E) :
  has_shape n a -> has_shape n b -> has_shape n (np_add a b).
Proof.
  destruct a as [x | xs], b as [y | ys]; simpl; try contradiction.
  intros Hx Hy. rewrite zip_with_length; congruence.
Qed.

Lemma fold_np_add_shape (n : nat) (xs : list (ndarray E)) (acc : ndarray E) :
  has_shape n acc -> Forall (has_shape n) xs -> has_shape n (fold_left np_add xs acc).
Proof.
  revert acc. induction xs as [| x xs IH]; intros acc Hacc Hxs; simpl.
  - exact Hacc.
  - inversion Hxs; subst. apply IH; [apply np_add_shape |]; assumption.
Qed.

(** The sum of at least one array of [n] rows is an array of [n] rows. *)
Lemma py_sum_shape (n : nat) (x : ndarray E) (xs : list (ndarray E)) :
  Forall (has_shape n) (x :: xs) -> has_shape n (py_sum (x :: xs)).
Proof.
  intros Hall. inversion Hall as [| ? ? Hx Hxs]; subst.
  unfold py_sum. cbn [fold_left]. apply fold_np_add_shape; [| exact Hxs].
  destruct x as [c | rows]; simpl in *; [contradiction |].
  rewrite length_map. exact Hx.
Qed.

Lemma np_full_shape (n : nat) (c : Qc) : has_shape n (@np_full E _ n c).
Proof. simpl. apply repeat_length. Qed.

End Shapes.

Lemma np_subtract_traced (g : grid) (d : ndarray vec) :
  (exists c, d = Scalar c) \/ has_shape (length g) d ->
  traced_by g d (np_subtract g d).
Proof.
  intros [[c ->] | Hd].
  - split; simpl.
    + apply length_map.
    + intros i x Hx. eexists. split; [reflexivity |].
      rewrite nth_error_map, Hx. reflexivity.
  - destruct d as [c | rows]; simpl in Hd; [contradiction |].
    unfold traced_by, np_subtract, row_at. split.
    + apply zip_with_length. congruence.
    + intros i x Hx.
      destruct (nth_error rows i) as [dv |] eqn:Hdv.
      * exists dv. split; [reflexivity |]. apply zip_with_nth; assumption.
      * apply nth_error_None in Hdv.
        assert (Hlt : (i < length g)%nat) by (apply nth_error_Some; congruence).
        lia.
Qed.

Lemma deflections_from_coordinate_grid_shape (g : RayTracing.Galaxy) (coords : grid) :
  has_shape (length coords) (RayTracing.deflections_from_coordinate_grid g coords).
Proof.
  unfold RayTracing.deflections_from_coordinate_grid.
  destruct (RayTracing.mass_profile g); [simpl; apply length_map | apply np_full_shape].
Qed.

Lemma deflections_from_grid_shape (g : LensPlane.Galaxy) (coords : grid) :
  has_shape (length coords) (LensPlane.deflections_from_grid g coords).
Proof.
  unfold LensPlane.deflections_from_grid.
  destruct (LensPlane.mass_profile g); [simpl; apply length_map | apply np_full_shape].
Qed.

(** The deflection field of ray_tracing.py's plane is the scalar [0] for
    an empty galaxy list and an array over the grid otherwise. *)
Lemma RayTracing_calculate_deflections_shape (gs : list RayTracing.Galaxy) (coords : grid) :
  (exists c, RayTracing.calculate_deflections gs coords = Scalar c) \/
  has_shape (length coords) (RayTracing.calculate_deflections gs coords).
Proof.
  unfold RayTracing.calculate_deflections. destruct gs as [| g gs].
  - left. exists 0%Qc. reflexivity.
  - right. cbn [map]. apply py_sum_shape.
    change (Forall (has_shape (length coords))
              (map (fun galaxy => RayTracing.deflections_from_coordinate_grid galaxy coords)
                   (g :: gs))).
    apply Forall_map, Forall_forall. intros x _.
    apply deflections_from_coordinate_grid_shape.
Qed.

Lemma LensPlane_calculate_deflections_shape (gs : list LensPlane.Galaxy) (coords : grid) :
  has_shape (length coords) (LensPlane.calculate_deflections gs coords).
Proof.
  unfold LensPlane.calculate_deflections. destruct gs as [| g gs].
  - apply np_full_shape.
  - cbn [map]. apply py_sum_shape.
    change (Forall (has_shape (length coords))
              (map (fun galaxy => LensPlane.deflections_from_grid galaxy coords) (g :: gs))).
    apply Forall_map, Forall_forall. intros x _.
    apply deflections_from_grid_shape.
Qed.

(** C6: tracing a plane built with its deflections computed gives a new
    grid bundle in which every coordinate of every grid variant is the old
    coordinate minus the deflection vector at that coordinate; this holds
    for the plane of ray_tracing.py and for the gridded plane of plane.py.
    The functions build new values: the plane and its grids are not
    changed. *)
Theorem trace_to_next_plane_subtracts_deflections :
  (forall (gs : list RayTracing.Galaxy) (cc : GridBundle grid),
     let plane := RayTracing.Plane_init gs cc true in
     exists d traced,
       RayTracing.deflections plane = Some d /\
       RayTracing.trace_to_next_plane plane = Ok traced /\
       forall v, traced_by (get_variant v (RayTracing.coordinates_collection plane))
                           (get_variant v d) (get_variant v traced)) /\
  (forall (z : option Qc) (gs : list LensPlane.Galaxy) (stack : GridBundle grid)
          (b : option LensPlane.RegularGridBorder) (cosmo : LensPlane.Cosmology),
     let plane := LensPlane.AbstractGriddedPlane_init z gs stack b true cosmo in
     exists d traced,
       LensPlane.deflection_stack plane = Some d /\
       LensPlane.trace_grid_stack_to_next_plane plane = Ok traced /\
       forall v, traced_by (get_variant v (LensPlane.grid_stack plane))
                           (get_variant v d) (get_variant v traced)).
Proof.
  split.
  - intros gs cc plane. do 2 eexists. split; [reflexivity |]. split; [reflexivity |].
    intros v. destruct v; simpl; apply np_subtract_traced;
      apply RayTracing_calculate_deflections_shape.
  - intros z gs stack b cosmo plane. do 2 eexists.
    split; [reflexivity |]. split; [reflexivity |].
    intros v. destruct v; simpl; apply np_subtract_traced; right;
      apply LensPlane_calculate_deflections_shape.
Qed.

Lemma trace_to_next_plane_subtracts_deflections_witness :
  exists d traced,
    RayTracing.deflections
      (RayTracing.Plane_init [Examples.lens_galaxy] Examples.small_bundle true) = Some d /\
    RayTracing.trace_to_next_plane
      (RayTracing.Plane_init [Examples.lens_galaxy] Examples.small_bundle true) = Ok traced /\
    forall v, traced_by (get_variant v Examples.small_bundle)
                        (get_variant v d) (get_variant v traced).
Proof.
  exact (proj1 trace_to_next_plane_subtracts_deflections
           [Examples.lens_galaxy] Examples.small_bundle).
Defined.

(** * Plane and PlaneSlice of plane.py *)

(** C2: whatever the grid bundle, building a Plane from an empty galaxy
    list fails with a RayTracingException; it does not succeed, so it
    cannot give a plane with a zero deflection field. *)
Theorem Plane_init_empty_galaxies_raises
  (stack : GridBundle grid) (b : option LensPlane.RegularGridBorder)
  (compute_deflections : bool) (cosmo : LensPlane.Cosmology) :
  LensPlane.Plane_init [] stack b compute_deflections cosmo
    = Raise (RayTracingException "An empty list of galaxies was supplied to Plane")
  /\ is_ok (LensPlane.Plane_init [] stack b compute_deflections cosmo) = false.
Proof. split; reflexivity. Qed.

(** C10: a PlaneSlice built from an empty galaxy list with its deflections
    computed succeeds, and its deflection field is the zero vector at every
    coordinate of every grid variant; only the Plane constructor rejects the
    empty list. *)
Theorem PlaneSlice_init_empty_galaxies_zero_deflections
  (stack : GridBundle grid) (z : option Qc) (b : option LensPlane.RegularGridBorder)
  (cosmo : LensPlane.Cosmology) :
  exists plane d,
    LensPlane.PlaneSlice_init [] stack z b true cosmo = Ok plane /\
    LensPlane.deflection_stack plane = Some d /\
    (forall v, get_variant v d
               = Array (repeat (0%Qc, 0%Qc) (length (get_variant v stack)))) /\
    is_ok (LensPlane.Plane_init [] stack b true cosmo) = false.
Proof.
  do 2 eexists. split; [reflexivity |]. split; [reflexivity |].
  split; [| reflexivity].
  intros v. destruct v; reflexivity.
Qed.

(** * Cosmological quantities of a plane *)

(** C7: when the redshift of a plane is None, the arcsec-per-kpc
    conversion (and its inverse), the angular diameter distance to the
    observer, the cosmic average mass density and the Einstein radius in
    kpc are all None, no number; when the redshift is present the decorator
    returns what the decorated function returns, so the quantities are the
    cosmology's values at that redshift. *)
Theorem check_plane_for_redshift_None_or_unchanged (self : LensPlane.AbstractPlane) :
  (LensPlane.plane_redshift self = None ->
     LensPlane.arcsec_per_kpc_proper self = Ok None /\
     LensPlane.kpc_per_arcsec_proper self = Ok None /\
     LensPlane.angular_diameter_distance_to_earth self = Ok None /\
     LensPlane.cosmic_average_mass_density_arcsec self = Ok None /\
     LensPlane.einstein_radius_kpc self = Ok None) /\
  (forall z, LensPlane.plane_redshift self = Some z ->
     (forall (A : Type) (func : LensPlane.AbstractPlane -> result (option A)),
        LensPlane.check_plane_for_redshift func self = func self) /\
     let a := LensPlane.cosmo_arcsec_per_kpc_proper (LensPlane.cosmology self) z in
     LensPlane.arcsec_per_kpc_proper self = Ok (Some a) /\
     LensPlane.kpc_per_arcsec_proper self = Ok (Some (1 / a)%Qc) /\
     LensPlane.angular_diameter_distance_to_earth self
       = Ok (Some (LensPlane.cosmo_angular_diameter_distance (LensPlane.cosmology self) z)) /\
     LensPlane.cosmic_average_mass_density_arcsec self
       = Ok (Some (LensPlane.cosmo_critical_density (LensPlane.cosmology self) z
                   / (a * a * a))%Qc) /\
     LensPlane.einstein_radius_kpc self
       = if LensPlane.plane_has_mass_profile self
         then Ok (Some ((1 / a)
                        * LensPlane.sum_truthy
                            (map LensPlane.einstein_radius (LensPlane.galaxies self)) 0)%Qc)
         else Ok None).
Proof.
  split.
  - intros Hz.
    unfold LensPlane.arcsec_per_kpc_proper, LensPlane.kpc_per_arcsec_proper,
      LensPlane.angular_diameter_distance_to_earth,
      LensPlane.cosmic_average_mass_density_arcsec, LensPlane.einstein_radius_kpc,
      LensPlane.check_plane_for_redshift.
    rewrite Hz. repeat split; reflexivity.
  - intros z Hz. split.
    + intros A func. unfold LensPlane.check_plane_for_redshift. rewrite Hz. reflexivity.
    + assert (Ha : LensPlane.arcsec_per_kpc_proper self
                   = Ok (Some (LensPlane.cosmo_arcsec_per_kpc_proper
                                 (LensPlane.cosmology self) z))).
      { unfold LensPlane.arcsec_per_kpc_proper, LensPlane.check_plane_for_redshift,
          LensPlane.arcsec_per_kpc_proper_body. rewrite Hz. reflexivity. }
      assert (Hk : LensPlane.kpc_per_arcsec_proper self
                   = Ok (Some (1 / LensPlane.cosmo_arcsec_per_kpc_proper
                                 (LensPlane.cosmology self) z)%Qc)).
      { unfold LensPlane.kpc_per_arcsec_proper, LensPlane.check_plane_for_redshift,
          LensPlane.kpc_per_arcsec_proper_body. rewrite Hz, Ha. reflexivity. }
      cbv zeta. split; [exact Ha |]. split; [exact Hk |]. split; [| split].
      * unfold LensPlane.angular_diameter_distance_to_earth,
          LensPlane.check_plane_for_redshift,
          LensPlane.angular_diameter_distance_to_earth_body. rewrite Hz. reflexivity.
      * unfold LensPlane.cosmic_average_mass_density_arcsec,
          LensPlane.check_plane_for_redshift,
          LensPlane.cosmic_average_mass_density_arcsec_body. rewrite Hz, Ha. reflexivity.
      * unfold LensPlane.einstein_radius_kpc, LensPlane.check_plane_for_redshift,
          LensPlane.einstein_radius_kpc_body, LensPlane.einstein_radius_arcsec.
        rewrite Hz, Hk.
        destruct (LensPlane.plane_has_mass_profile self); reflexivity.
Qed.

Lemma check_plane_for_redshift_None_or_unchanged_witness :
  (LensPlane.plane_redshift Examples.plane_without_redshift = None /\
   LensPlane.einstein_radius_kpc Examples.plane_without_redshift = Ok None) /\
  (LensPlane.plane_redshift Examples.plane_at_redshift_one = Some (qc 1 1) /\
   LensPlane.angular_diameter_distance_to_earth Examples.plane_at_redshift_one
     = Ok (Some (qc 1 1))).
Proof.
  split; (split; [reflexivity |]).
  - apply (proj1 (check_plane_for_redshift_None_or_unchanged
                    Examples.plane_without_redshift)).
    reflexivity.
  - apply (proj2 (check_plane_for_redshift_None_or_unchanged
                    Examples.plane_at_redshift_one) (qc 1 1)).
    reflexivity.
Defined.

(** * Point-source fits *)

Section PointSourceFacts.

Import FitPointSource.

Lemma find_in_galaxies_None (name : string) (gs : list Galaxy) :
  find_in_galaxies name gs = None <->
  forall g, In g gs -> lookup_profile name (profiles g) = None.
Proof.
  induction gs as [| g gs IH]; simpl.
  - split; [intros _ g [] | reflexivity].
  - destruct (lookup_profile name (profiles g)) as [p |] eqn:Hp.
    + split; [discriminate |]. intros Hall.
      rewrite (Hall g (or_introl eq_refl)) in Hp. discriminate.
    + rewrite IH. split.
      * intros Hall g' [<- | Hin]; [exact Hp | apply Hall, Hin].
      * intros Hall g' Hin. apply Hall. right. exact Hin.
Qed.

Lemma extract_profile_None (tracer : Tracer) (name : string) :
  extract_profile tracer name = None <-> ~ has_matching_profile tracer name.
Proof.
  unfold extract_profile, has_matching_profile. rewrite find_in_galaxies_None. split.
  - intros Hall (plane & galaxy & p & Hplane & Hgalaxy & Hp).
    rewrite Hall in Hp; [discriminate |].
    apply in_flat_map. exists plane. split; assumption.
  - intros Hno g Hin. apply in_flat_map in Hin. destruct Hin as (plane & Hplane & Hg).
    destruct (lookup_profile name (profiles g)) as [p |] eqn:Hp; [| reflexivity].
    exfalso. apply Hno. exists plane, g, p. repeat split; assumption.
Qed.

Lemma find_in_galaxies_app (name : string) (gs hs : list Galaxy) :
  find_in_galaxies name (gs ++ hs) =
  match find_in_galaxies name gs with
  | Some p => Some p
  | None => find_in_galaxies name hs
  end.
Proof.
  induction gs as [| g gs IH]; simpl; [reflexivity |].
  destruct (lookup_profile name (profiles g)); [reflexivity | exact IH].
Qed.

(** The plane of a profile that [extract_profile] finds is found as well. *)
Lemma plane_index_from_found (name : string) (ps : list Plane) (i : Z)
  (p : PointSourceProfile) :
  find_in_galaxies name (flat_map galaxies ps) = Some p ->
  exists k, plane_index_from name ps i = Ok k.
Proof.
  revert i. induction ps as [| pl ps IH]; intros i; simpl; [discriminate |].
  rewrite find_in_galaxies_app.
  destruct (find_in_galaxies name (galaxies pl)) as [q |].
  - intros _. exists i. reflexivity.
  - intros Hrest. apply IH, Hrest.
Qed.

Lemma append_inj_l (a x y : string) : (a ++ x = a ++ y)%string -> x = y.
Proof.
  induction a as [| ch a IH]; simpl; intros Heq; [exact Heq |].
  inversion Heq. apply IH. assumption.
Qed.

Lemma mentions_no_profile_message (name : string) :
  mentions (no_profile_message name) name.
Proof. unfold mentions, no_profile_message. do 2 eexists. reflexivity. Qed.

Lemma mentions_no_flux_message (name cls : string) :
  mentions (no_flux_message name cls) name.
Proof. unfold mentions, no_flux_message. do 2 eexists. reflexivity. Qed.

Lemma messages_differ (name cls : string) :
  no_flux_message name cls <> no_profile_message name.
Proof.
  unfold no_flux_message, no_profile_message. intros Heq.
  apply append_inj_l, append_inj_l in Heq. simpl in Heq. discriminate Heq.
Qed.

Lemma upper_plane_index_ok (tracer : Tracer) (name : string) (p : PointSourceProfile) :
  extract_profile tracer name = Some p ->
  exists i : option Z,
    (if (len (planes tracer) >? 2)%Z
     then k <- extract_plane_index_of_profile tracer name ;; Ok (Some k)
     else Ok None) = Ok i.
Proof.
  intros Hp. destruct (len (planes tracer) >? 2)%Z.
  - destruct (plane_index_from_found name (planes tracer) 0 p Hp) as [k Hk].
    exists (Some k). unfold extract_plane_index_of_profile. rewrite Hk. reflexivity.
  - exists None. reflexivity.
Qed.

End PointSourceFacts.

(** C8: FitFluxes and FitPositionsImage fail with the
    PointSourceExtractionException that names the requested point source
    exactly when no plane of the tracer has a matching profile; FitFluxes
    fails with the same kind of exception and a different message when the
    profile is found but has no flux; in every other case the construction
    succeeds. *)
Theorem point_source_fit_construction
  (name : string) (fluxes noise_map : list Qc) (positions : grid)
  (tracer : FitPointSource.Tracer) (solver : FitPointSource.PositionsSolver) :
  let fit_fluxes := FitPointSource.FitFluxes_init name fluxes noise_map positions tracer in
  let fit_positions :=
    FitPointSource.FitPositionsImage_init name positions noise_map tracer solver in
  let no_profile :=
    PointSourceExtractionException (FitPointSource.no_profile_message name) in
  FitPointSource.mentions (FitPointSource.no_profile_message name) name /\
  (FitPointSource.extract_profile tracer name = None
   <-> ~ FitPointSource.has_matching_profile tracer name) /\
  (fit_fluxes = Raise no_profile <-> FitPointSource.extract_profile tracer name = None) /\
  (fit_positions = Raise no_profile <-> FitPointSource.extract_profile tracer name = None) /\
  (forall p, FitPointSource.extract_profile tracer name = Some p ->
             FitPointSource.flux p = None ->
             fit_fluxes = Raise (PointSourceExtractionException
                                   (FitPointSource.no_flux_message
                                      name (FitPointSource.class_name p))) /\
             FitPointSource.no_flux_message name (FitPointSource.class_name p)
               <> FitPointSource.no_profile_message name) /\
  (forall p f, FitPointSource.extract_profile tracer name = Some p ->
               FitPointSource.flux p = Some f ->
               is_ok fit_fluxes = true) /\
  (FitPointSource.has_matching_profile tracer name -> is_ok fit_positions = true).
Proof.
  cbv zeta.
  assert (Hfluxes_some : forall p f,
             FitPointSource.extract_profile tracer name = Some p ->
             FitPointSource.flux p = Some f ->
             is_ok (FitPointSource.FitFluxes_init name fluxes noise_map positions tracer)
             = true).
  { intros p f Hp Hf. unfold FitPointSource.FitFluxes_init. rewrite Hp, Hf.
    destruct (upper_plane_index_ok tracer name p Hp) as [i Hi].
    rewrite Hi. reflexivity. }
  assert (Hpositions_some : forall p,
             FitPointSource.extract_profile tracer name = Some p ->
             is_ok (FitPointSource.FitPositionsImage_init
                      name positions noise_map tracer solver) = true).
  { intros p Hp. unfold FitPointSource.FitPositionsImage_init. rewrite Hp.
    destruct (upper_plane_index_ok tracer name p Hp) as [i Hi].
    rewrite Hi. reflexivity. }
  split; [apply mentions_no_profile_message |].
  split; [apply extract_profile_None |].
  split; [| split; [| split; [| split]]].
  - split.
    + intros Hraise.
      destruct (FitPointSource.extract_profile tracer name) as [p |] eqn:Hp;
        [| reflexivity].
      exfalso. destruct (FitPointSource.flux p) as [f |] eqn:Hf.
      * pose proof (Hfluxes_some p f eq_refl Hf) as Hok.
        rewrite Hraise in Hok. discriminate Hok.
      * unfold FitPointSource.FitFluxes_init in Hraise. rewrite Hp, Hf in Hraise.
        apply (messages_differ name (FitPointSource.class_name p)). congruence.
    + intros Hnone. unfold FitPointSource.FitFluxes_init. rewrite Hnone. reflexivity.
  - split.
    + intros Hraise.
      destruct (FitPointSource.extract_profile tracer name) as [p |] eqn:Hp;
        [| reflexivity].
      pose proof (Hpositions_some p eq_refl) as Hok.
      rewrite Hraise in Hok. discriminate Hok.
    + intros Hnone. unfold FitPointSource.FitPositionsImage_init.
      rewrite Hnone. reflexivity.
  - intros p Hp Hf. split; [| apply messages_differ].
    unfold FitPointSource.FitFluxes_init. rewrite Hp, Hf. reflexivity.
  - exact Hfluxes_some.
  - intros Hmatch.
    destruct (FitPointSource.extract_profile tracer name) as [p |] eqn:Hp.
    + apply (Hpositions_some p eq_refl).
    + exfalso. apply (proj1 (extract_profile_None tracer name)) in Hp.
      exact (Hp Hmatch).
Qed.

Lemma point_source_fit_construction_witness :
  FitPointSource.extract_profile Examples.point_tracer "point_1" = Some Examples.fluxless /\
  FitPointSource.flux Examples.fluxless = None /\
  FitPointSource.FitFluxes_init "point_1" [] [] [] Examples.point_tracer
    = Raise (PointSourceExtractionException
               (FitPointSource.no_flux_message "point_1" "PointSource")) /\
  is_ok (FitPointSource.FitFluxes_init "point_0" [] [] [] Examples.point_tracer) = true.
Proof.
  pose (solver := {| FitPointSource.solve := fun _ _ _ => @nil vec;
                     FitPointSource.grid_of_closest_from_grid_pair := fun g _ => g |}).
  split; [reflexivity |]. split; [reflexivity |]. split.
  - pose proof (point_source_fit_construction
                  "point_1" [] [] [] Examples.point_tracer solver) as H.
    cbv zeta in H. destruct H as (_ & _ & _ & _ & Hnoflux & _).
    apply (Hnoflux Examples.fluxless); reflexivity.
  - pose proof (point_source_fit_construction
                  "point_0" [] [] [] Examples.point_tracer solver) as H.
    cbv zeta in H. destruct H as (_ & _ & _ & _ & _ & Hok & _).
    apply (Hok Examples.quasar (qc 2 1)); reflexivity.
Defined.

(** * Multi-plane tracing *)

Section MultiPlane.

Import RayTracing.

Lemma range_of_nat (n : nat) : range (Z.of_nat n) = map Z.of_nat (seq 0 n).
Proof. unfold range. rewrite Nat2Z.id. reflexivity. Qed.

Lemma in_range (n p : Z) : In p (range n) -> exists q : nat, p = Z.of_nat q /\ (p < n)%Z.
Proof.
  unfold range. intros Hin. apply in_map_iff in Hin. destruct Hin as (q & <- & Hq).
  apply in_seq in Hq. exists q. split; [reflexivity | lia].
Qed.

Lemma Forall2_impl_In {A B : Type} (P Q : A -> B -> Prop) (xs : list A) (ys : list B) :
  (forall x y, In x xs -> P x y -> Q x y) -> Forall2 P xs ys -> Forall2 Q xs ys.
Proof.
  intros Himpl Hall. induction Hall as [| x y xs ys Hxy Hall IH]; constructor.
  - apply Himpl; [left; reflexivity | exact Hxy].
  - apply IH. intros x' y' Hin. apply Himpl. right. exact Hin.
Qed.

(** The inner loop subtracts, one after the other, the scaled deflection
    fields of the planes it runs over. *)
Lemma for_each_subtract_previous (geom : TracerGeometry) (built : list Plane) (k : Z)
  (ps : list Z) (g0 g : GridBundle grid) :
  for_each (subtract_previous geom built k) ps g0 = Ok g ->
  exists terms,
    Forall2 (scaled_deflection_of geom built k) ps terms /\
    g = fold_left subtract_scaled terms g0.
Proof.
  revert g0. induction ps as [| p ps IH]; intros g0; simpl.
  - intros Hg. inversion Hg; subst. exists []. split; [constructor | reflexivity].
  - intros Hg. apply bind_Ok_inv in Hg. destruct Hg as (g1 & Hstep & Hrest).
    unfold subtract_previous in Hstep.
    apply bind_Ok_inv in Hstep. destruct Hstep as (s & Hs & Hstep).
    apply bind_Ok_inv in Hstep. destruct Hstep as (previous & Hprev & Hstep).
    apply bind_Ok_inv in Hstep. destruct Hstep as (d & Hd & Hstep).
    inversion Hstep; subst g1; clear Hstep.
    destruct (deflections previous) as [d' |] eqn:Hdefl; [| discriminate Hd].
    inversion Hd; subst d'; clear Hd.
    destruct (IH _ Hrest) as (terms & Hterms & Hfold).
    exists ((s, d) :: terms). split.
    + constructor; [| exact Hterms].
      split; [exact Hs |]. exists previous. split; assumption.
    + exact Hfold.
Qed.

Lemma get_variant_fold_subtract_scaled (v : variant)
  (terms : list (Qc * GridBundle (ndarray vec))) (g0 : GridBundle grid) :
  get_variant v (fold_left subtract_scaled terms g0) =
  fold_left np_subtract
    (map (fun sd => np_multiply (fst sd) (get_variant v (snd sd))) terms)
    (get_variant v g0).
Proof.
  revert g0. induction terms as [| sd terms IH]; intros g0; simpl; [reflexivity |].
  rewrite IH. f_equal. destruct v; reflexivity.
Qed.

Lemma build_plane_appends (geom : TracerGeometry) (zs : list Qc) (pgs : list (list Galaxy))
  (grids : GridBundle grid) (built built' : list Plane) (i : nat) :
  build_plane geom zs pgs grids built (Z.of_nat i) = Ok built' ->
  exists pl, built' = built ++ [pl] /\
             built_at geom zs pgs grids built (Z.of_nat i) pl /\
             (Z.of_nat i <= len zs - 1)%Z.
Proof.
  unfold build_plane. intros H.
  apply bind_Ok_inv in H. destruct H as (flag & Hflag & H).
  apply bind_Ok_inv in H. destruct H as (new_grid & Hgrid & H).
  apply bind_Ok_inv in H. destruct H as (gs & Hgs & H).
  inversion H; subst built'; clear H.
  assert (Hflag' : flag = (Z.of_nat i <? len zs - 1)%Z /\ (Z.of_nat i <= len zs - 1)%Z).
  { destruct (Z.of_nat i <? len zs - 1)%Z eqn:Hlt.
    - inversion Hflag. split; [reflexivity |]. apply Z.ltb_lt in Hlt. lia.
    - destruct (Z.of_nat i =? len zs - 1)%Z eqn:Heq; [| discriminate Hflag].
      inversion Hflag. split; [reflexivity |]. apply Z.eqb_eq in Heq. lia. }
  destruct Hflag' as [-> Hle].
  eexists. split; [reflexivity |]. split; [| exact Hle].
  exists gs, new_grid. split; [exact Hgs |]. split; [| reflexivity].
  destruct (Z.of_nat i >? 0)%Z eqn:Hpos; [exact Hgrid |].
  assert (Hi : i = 0%nat) by (destruct i; [reflexivity | discriminate Hpos]).
  subst i. inversion Hgrid. reflexivity.
Qed.

(** The loop over [plane_index] extends the list of planes by one plane
    per round, each built from the planes before it. *)
Lemma for_each_build_plane (geom : TracerGeometry) (zs : list Qc)
  (pgs : list (list Galaxy)) (grids : GridBundle grid) (r : nat) :
  forall (m : nat) (built0 built : list Plane),
    for_each (build_plane geom zs pgs grids) (map Z.of_nat (seq m r)) built0 = Ok built ->
    length built0 = m ->
    length built = (m + r)%nat /\
    firstn m built = built0 /\
    forall i, (m <= i < m + r)%nat ->
      (Z.of_nat i <= len zs - 1)%Z /\
      exists pl, nth_error built i = Some pl /\
                 built_at geom zs pgs grids (firstn i built) (Z.of_nat i) pl.
Proof.
  induction r as [| r IH]; intros m built0 built Hloop Hlen; simpl in Hloop.
  - inversion Hloop; subst built. split; [lia |]. split.
    + rewrite <- Hlen. apply firstn_all.
    + intros i Hi. lia.
  - apply bind_Ok_inv in Hloop. destruct Hloop as (built1 & Hstep & Hrest).
    apply build_plane_appends in Hstep. destruct Hstep as (pl & -> & Hpl & Hle).
    apply IH in Hrest; [| rewrite length_app; simpl; lia].
    destruct Hrest as (Hlength & Hprefix & Hplanes).
    assert (Hfirst : firstn m built = built0).
    { replace m with (Nat.min m (S m)) at 1 by lia.
      rewrite <- firstn_firstn, Hprefix, firstn_app, Hlen, Nat.sub_diag. simpl.
      rewrite app_nil_r, <- Hlen. apply firstn_all. }
    split; [lia |]. split; [exact Hfirst |].
    intros i Hi. destruct (Nat.eq_dec i m) as [-> | Hne].
    + split; [exact Hle |]. exists pl. split.
      * assert (Hnth : nth_error (firstn (S m) built) m = nth_error built m).
        { rewrite nth_error_firstn.
          destruct (m <? S m)%nat eqn:Hlt; [reflexivity |].
          apply Nat.ltb_ge in Hlt. lia. }
        rewrite <- Hnth, Hprefix, nth_error_app2 by lia.
        rewrite Hlen, Nat.sub_diag. reflexivity.
      * rewrite Hfirst. exact Hpl.
    + apply Hplanes. lia.
Qed.

Lemma getitem_firstn {A : Type} (n : nat) (l : list A) (p : nat) (x : A) :
  getitem (firstn n l) (Z.of_nat p) = Ok x -> getitem l (Z.of_nat p) = Ok x.
Proof.
  rewrite !getitem_nat, nth_error_firstn.
  destruct (p <? n)%nat; [tauto | discriminate].
Qed.

End MultiPlane.

Lemma getitem_Ok_nat {A : Type} (l : list A) (k : Z) (x : A) :
  (0 <= k)%Z -> getitem l k = Ok x ->
  exists i : nat, k = Z.of_nat i /\ nth_error l i = Some x.
Proof.
  intros Hk Hget. exists (Z.to_nat k).
  assert (Hk' : k = Z.of_nat (Z.to_nat k)) by lia.
  split; [exact Hk' |].
  rewrite Hk', getitem_nat in Hget.
  destruct (nth_error l (Z.to_nat k)); [congruence | discriminate].
Qed.

(** What a successful construction of a MultiTracer has built. *)
Lemma MultiTracer_init_planes (gs : list RayTracing.Galaxy) (grids : GridBundle grid)
  (cosmo : RayTracing.Cosmology) (t : RayTracing.MultiTracer) :
  RayTracing.MultiTracer_init gs grids cosmo = Ok t ->
  let zs := RayTracing.planes_redshift_order t in
  RayTracing.galaxies_redshift_order t = RayTracing.sorted_by_redshift gs /\
  zs <> [] /\
  zs = RayTracing.first_occurrences []
         (map RayTracing.redshift (RayTracing.sorted_by_redshift gs)) /\
  RayTracing.planes_galaxies t
    = map (RayTracing.galaxies_of_plane (RayTracing.sorted_by_redshift gs)) zs /\
  length (RayTracing.planes t) = length zs /\
  forall i, (i < length zs)%nat ->
    exists pl, nth_error (RayTracing.planes t) i = Some pl /\
               RayTracing.built_at (RayTracing.mt_geometry t) zs (RayTracing.planes_galaxies t)
                 grids (firstn i (RayTracing.planes t)) (Z.of_nat i) pl.
Proof.
  unfold RayTracing.MultiTracer_init. intros H.
  apply bind_Ok_inv in H. destruct H as (geom & Hgeom & H).
  apply bind_Ok_inv in H. destruct H as (built & Hbuilt & H).
  inversion H; subst t; clear H. simpl.
  unfold len in Hbuilt. rewrite range_of_nat in Hbuilt.
  apply for_each_build_plane in Hbuilt; [| reflexivity].
  destruct Hbuilt as (Hlength & _ & Hplanes).
  split; [reflexivity |]. split.
  { intros Hnil. rewrite Hnil in Hgeom. discriminate Hgeom. }
  split; [reflexivity |]. split; [reflexivity |]. split; [exact Hlength |].
  intros i Hi. apply Hplanes. lia.
Qed.

(** C1: in a MultiTracer, the grid of every plane k > 0 is the original
    input grid minus the sum, over all the planes p < k, of the deflection
    field of plane p scaled by scaling_factor(p, k). *)
Theorem multi_plane_grid_is_input_minus_scaled_deflections
  (gs : list RayTracing.Galaxy) (grids : GridBundle grid) (cosmo : RayTracing.Cosmology)
  (t : RayTracing.MultiTracer) (k : Z) (plane_k : RayTracing.Plane) :
  RayTracing.MultiTracer_init gs grids cosmo = Ok t ->
  (0 < k)%Z ->
  getitem (RayTracing.planes t) k = Ok plane_k ->
  exists terms : list (Qc * GridBundle (ndarray vec)),
    Forall2 (RayTracing.scaled_deflection_of
               (RayTracing.mt_geometry t) (RayTracing.planes t) k)
            (range k) terms /\
    forall v,
      get_variant v (RayTracing.coordinates_collection plane_k) =
      np_subtract (get_variant v grids)
        (py_sum (map (fun sd => np_multiply (fst sd) (get_variant v (snd sd))) terms)).
Proof.
  intros Hinit Hk Hget.
  apply MultiTracer_init_planes in Hinit. cbv zeta in Hinit.
  destruct Hinit as (_ & _ & _ & _ & Hlength & Hplanes).
  destruct (getitem_Ok_nat _ _ _ (Z.lt_le_incl _ _ Hk) Hget) as (i & -> & Hnth).
  assert (Hi : (i < length (RayTracing.planes_redshift_order t))%nat).
  { rewrite <- Hlength. apply nth_error_Some. congruence. }
  destruct (Hplanes i Hi) as (pl & Hpl & (gs_k & new_grid & _ & Hloop & Hdef)).
  assert (Hsame : pl = plane_k) by congruence.
  rewrite Hsame in Hdef. clear Hsame Hpl pl.
  apply for_each_subtract_previous in Hloop. destruct Hloop as (terms & Hterms & Hfold).
  exists terms. split.
  - revert Hterms. apply Forall2_impl_In. intros p sd Hin [Hs (previous & Hprev & Hd)].
    split; [exact Hs |]. exists previous. split; [| exact Hd].
    apply in_range in Hin. destruct Hin as (q & -> & _).
    apply (getitem_firstn _ _ _ _ Hprev).
  - intros v. rewrite Hdef. simpl RayTracing.coordinates_collection.
    rewrite Hfold, get_variant_fold_subtract_scaled. apply fold_np_subtract.
Qed.

Lemma multi_plane_grid_is_input_minus_scaled_deflections_witness :
  exists t plane_2,
    RayTracing.MultiTracer_init Examples.three_galaxies Examples.small_bundle
      Examples.flat_cosmology = Ok t /\
    getitem (RayTracing.planes t) 2 = Ok plane_2 /\
    exists terms : list (Qc * GridBundle (ndarray vec)),
      Forall2 (RayTracing.scaled_deflection_of
                 (RayTracing.mt_geometry t) (RayTracing.planes t) 2)
              (range 2) terms /\
      forall v,
        get_variant v (RayTracing.coordinates_collection plane_2) =
        np_subtract (get_variant v Examples.small_bundle)
          (py_sum (map (fun sd => np_multiply (fst sd) (get_variant v (snd sd))) terms)).
Proof.
  eexists. eexists.
  split; [reflexivity |]. split; [reflexivity |].
  apply (multi_plane_grid_is_input_minus_scaled_deflections
           Examples.three_galaxies Examples.small_bundle Examples.flat_cosmology).
  - reflexivity.
  - reflexivity.
  - reflexivity.
Defined.

(** * The order of the planes *)

Section RedshiftOrder.

Import RayTracing.

Lemma Qcltb_false (x y : Qc) : Qcltb x y = false -> (y <= x)%Qc.
Proof.
  unfold Qcltb. destruct (x ?= y)%Qc eqn:Hc; intros H; try discriminate H.
  - apply Qceq_alt in Hc. subst y. apply Qcle_refl.
  - apply Qclt_le_weak. apply Qcgt_alt in Hc. exact Hc.
Qed.

Lemma Qcltb_true (x y : Qc) : Qcltb x y = true -> (x <= y)%Qc.
Proof.
  unfold Qcltb. destruct (x ?= y)%Qc eqn:Hc; intros H; try discriminate H.
  apply Qclt_le_weak, Qclt_alt. exact Hc.
Qed.

Lemma Qceqb_eq (x y : Qc) : Qceqb x y = true <-> x = y.
Proof.
  unfold Qceqb. rewrite Qceq_alt.
  destruct (x ?= y)%Qc; split; intros H; try reflexivity; discriminate H.
Qed.

Lemma insert_by_redshift_In (g x : Galaxy) (l : list Galaxy) :
  In x (insert_by_redshift g l) <-> x = g \/ In x l.
Proof.
  induction l as [| h t IH]; simpl.
  - intuition congruence.
  - destruct (Qcltb (redshift h) (redshift g)); simpl; [rewrite IH |];
      intuition congruence.
Qed.

Lemma insert_by_redshift_sorted (g : Galaxy) (l : list Galaxy) :
  Sorted redshift_le l -> Sorted redshift_le (insert_by_redshift g l).
Proof.
  induction l as [| h t IH]; simpl; intros Hsorted.
  - constructor; constructor.
  - destruct (Qcltb (redshift h) (redshift g)) eqn:Hlt.
    + inversion Hsorted as [| ? ? Ht Hhd]; subst.
      constructor; [apply IH, Ht |].
      destruct t as [| h' t']; simpl.
      * constructor. apply Qcltb_true, Hlt.
      * destruct (Qcltb (redshift h') (redshift g)); constructor.
        -- inversion Hhd; assumption.
        -- apply Qcltb_true, Hlt.
    + constructor; [exact Hsorted |]. constructor. apply Qcltb_false, Hlt.
Qed.

Lemma sorted_by_redshift_sorted (gs : list Galaxy) :
  StronglySorted Qcle (map redshift (sorted_by_redshift gs)).
Proof.
  assert (Hs : StronglySorted redshift_le (sorted_by_redshift gs)).
  { apply Sorted_StronglySorted.
    - intros x y z. unfold redshift_le. apply Qcle_trans.
    - induction gs as [| g gs IH]; simpl; [constructor |].
      apply insert_by_redshift_sorted, IH. }
  induction Hs as [| g l Hl IH Hall]; simpl; constructor; [exact IH |].
  apply Forall_map. exact Hall.
Qed.

Lemma sorted_by_redshift_In (gs : list Galaxy) (x : Galaxy) :
  In x (sorted_by_redshift gs) <-> In x gs.
Proof.
  induction gs as [| g gs IH]; simpl; [reflexivity |].
  rewrite insert_by_redshift_In, IH. intuition congruence.
Qed.

Lemma existsb_Qceqb_In (z : Qc) (seen : list Qc) :
  existsb (Qceqb z) seen = true -> In z seen.
Proof.
  intros H. apply existsb_exists in H. destruct H as (y & Hin & Heq).
  apply Qceqb_eq in Heq. subst y. exact Hin.
Qed.

Lemma first_occurrences_subset (seen zs : list Qc) (x : Qc) :
  In x (first_occurrences seen zs) -> In x zs.
Proof.
  revert seen. induction zs as [| z zs IH]; intros seen; simpl; [tauto |].
  destruct (existsb (Qceqb z) seen); simpl.
  - intros H. right. exact (IH _ H).
  - intros [-> | H]; [left; reflexivity | right; exact (IH _ H)].
Qed.

Lemma first_occurrences_complete (seen zs : list Qc) (x : Qc) :
  In x zs -> In x seen \/ In x (first_occurrences seen zs).
Proof.
  revert seen. induction zs as [| z zs IH]; intros seen; simpl; [tauto |].
  destruct (existsb (Qceqb z) seen) eqn:Hseen; simpl.
  - intros [<- | Hin].
    + left. apply existsb_Qceqb_In, Hseen.
    + destruct (IH (seen ++ [z]) Hin) as [Hs | Hr]; [| right; exact Hr].
      apply in_app_or in Hs. destruct Hs as [Hs | [<- | []]]; [left; exact Hs |].
      left. apply existsb_Qceqb_In, Hseen.
  - intros [<- | Hin]; [right; left; reflexivity |].
    destruct (IH (seen ++ [z]) Hin) as [Hs | Hr]; [| right; right; exact Hr].
    apply in_app_or in Hs. destruct Hs as [Hs | [<- | []]]; [left; exact Hs |].
    right. left. reflexivity.
Qed.

Lemma first_occurrences_sorted (seen zs : list Qc) :
  StronglySorted Qcle zs -> StronglySorted Qcle (first_occurrences seen zs).
Proof.
  intros Hs. revert seen. induction Hs as [| z zs Hzs IH Hall]; intros seen; simpl.
  - constructor.
  - destruct (existsb (Qceqb z) seen); [apply IH |].
    constructor; [apply IH |].
    apply Forall_forall. intros x Hx. apply first_occurrences_subset in Hx.
    rewrite Forall_forall in Hall. apply Hall, Hx.
Qed.

(** The last element of a sorted list is the greatest. *)
Lemma sorted_last_greatest (l : list Qc) (z x : Qc) :
  StronglySorted Qcle l -> nth_error l (length l - 1) = Some z -> In x l -> (x <= z)%Qc.
Proof.
  intros Hs. revert x. induction Hs as [| a l Hl IH Hall]; intros x Hlast Hin.
  - destruct Hin.
  - destruct l as [| b l'].
    + simpl in Hlast. inversion Hlast; subst. destruct Hin as [<- | []].
      apply Qcle_refl.
    + assert (Hlast' : nth_error (b :: l') (length (b :: l') - 1) = Some z).
      { simpl in *. rewrite Nat.sub_0_r. exact Hlast. }
      destruct Hin as [<- | Hin]; [| apply IH; assumption].
      rewrite Forall_forall in Hall. apply Hall.
      apply nth_error_In with (n := (length (b :: l') - 1)%nat). exact Hlast'.
Qed.

Lemma galaxies_of_plane_redshift (ordered : list Galaxy) (z : Qc) (g : Galaxy) :
  In g (galaxies_of_plane ordered z) -> redshift g = z.
Proof.
  unfold galaxies_of_plane. intros Hin. apply filter_In in Hin.
  apply Qceqb_eq. exact (proj2 Hin).
Qed.

End RedshiftOrder.

Lemma getitem_map_nat {A B : Type} (f : A -> B) (l : list A) (i : nat) (y : B) :
  getitem (map f l) (Z.of_nat i) = Ok y ->
  exists x, getitem l (Z.of_nat i) = Ok x /\ y = f x.
Proof.
  rewrite !getitem_nat, nth_error_map.
  destruct (nth_error l i) as [x |]; simpl; [| discriminate].
  intros H. inversion H. exists x. split; reflexivity.
Qed.

(** C5, which does not hold as worded for the two-plane Tracer: with a
    lens galaxy at redshift 2 and a source galaxy at redshift 1/2 the
    Tracer is built, with or without a cosmology; the plane at the highest
    redshift is the image plane, and it has a deflection field, while the
    plane without one is at the lowest redshift. *)
Lemma highest_redshift_plane_has_deflections_counterexample :
  (qc 1 2 < qc 2 1)%Qc /\
  (exists t,
     RayTracing.Tracer_init [Examples.background_lens] [Examples.foreground_source]
       Examples.small_bundle None = Ok t /\
     map RayTracing.redshift (RayTracing.galaxies (RayTracing.image_plane t)) = [qc 2 1] /\
     map RayTracing.redshift (RayTracing.galaxies (RayTracing.source_plane t)) = [qc 1 2] /\
     RayTracing.deflections (RayTracing.image_plane t) <> None /\
     RayTracing.deflections (RayTracing.source_plane t) = None) /\
  (exists t,
     RayTracing.Tracer_init [Examples.background_lens] [Examples.foreground_source]
       Examples.small_bundle (Some Examples.flat_cosmology) = Ok t /\
     map RayTracing.redshift (RayTracing.galaxies (RayTracing.image_plane t)) = [qc 2 1] /\
     map RayTracing.redshift (RayTracing.galaxies (RayTracing.source_plane t)) = [qc 1 2] /\
     RayTracing.deflections (RayTracing.image_plane t) <> None /\
     RayTracing.deflections (RayTracing.source_plane t) = None).
Proof.
  split; [reflexivity |].
  split; eexists; (split; [reflexivity |]); simpl;
    (split; [reflexivity |]); (split; [reflexivity |]);
    (split; [discriminate | reflexivity]).
Qed.

(** C5, as the code has it: a two-plane Tracer builds its image plane
    from its first argument with compute_deflections true, and its source
    plane from its second argument with compute_deflections false and no
    deflection field, whatever the redshifts of the galaxies, which it does
    not compare.  In a MultiTracer the last plane, which is the one at the
    highest redshift, is built with compute_deflections false and has no
    deflection field, and every plane before it is built with
    compute_deflections true and has the deflection field of its galaxies
    on its grid. *)
Theorem last_plane_built_without_deflections :
  (forall (lens source : list RayTracing.Galaxy) (grids : GridBundle grid)
          (cosmo : option RayTracing.Cosmology) (t : RayTracing.Tracer),
     RayTracing.Tracer_init lens source grids cosmo = Ok t ->
     RayTracing.image_plane t = RayTracing.Plane_init lens grids true /\
     RayTracing.deflections (RayTracing.image_plane t)
       = Some (apply_function (RayTracing.calculate_deflections lens) grids) /\
     (exists traced,
        RayTracing.trace_to_next_plane (RayTracing.image_plane t) = Ok traced /\
        RayTracing.source_plane t = RayTracing.Plane_init source traced false) /\
     RayTracing.deflections (RayTracing.source_plane t) = None) /\
  (forall (gs : list RayTracing.Galaxy) (grids : GridBundle grid)
          (cosmo : RayTracing.Cosmology) (t : RayTracing.MultiTracer),
     RayTracing.MultiTracer_init gs grids cosmo = Ok t ->
     let last := (len (RayTracing.planes t) - 1)%Z in
     (0 <= last)%Z /\
     len (RayTracing.planes t) = len (RayTracing.planes_redshift_order t) /\
     (forall k plane_k, (0 <= k)%Z -> getitem (RayTracing.planes t) k = Ok plane_k ->
        (exists z_k,
           getitem (RayTracing.planes_redshift_order t) k = Ok z_k /\
           RayTracing.galaxies plane_k
             = RayTracing.galaxies_of_plane (RayTracing.galaxies_redshift_order t) z_k) /\
        plane_k = RayTracing.Plane_init (RayTracing.galaxies plane_k)
                    (RayTracing.coordinates_collection plane_k) (k <? last)%Z /\
        (k = last -> RayTracing.deflections plane_k = None) /\
        ((k < last)%Z ->
         RayTracing.deflections plane_k
           = Some (apply_function
                     (RayTracing.calculate_deflections (RayTracing.galaxies plane_k))
                     (RayTracing.coordinates_collection plane_k)))) /\
     (forall z_last,
        getitem (RayTracing.planes_redshift_order t) last = Ok z_last ->
        forall g, In g gs -> (RayTracing.redshift g <= z_last)%Qc)).
Proof.
  split.
  - intros lens source grids cosmo t Hinit. unfold RayTracing.Tracer_init in Hinit.
    apply bind_Ok_inv in Hinit. destruct Hinit as (geom & _ & Hinit).
    apply bind_Ok_inv in Hinit. destruct Hinit as (traced & Htraced & Hinit).
    inversion Hinit; subst t; clear Hinit. simpl.
    split; [reflexivity |]. split; [reflexivity |]. split; [| reflexivity].
    exists traced. split; [exact Htraced | reflexivity].
  - intros gs grids cosmo t Hinit.
    apply MultiTracer_init_planes in Hinit. cbv zeta in Hinit.
    destruct Hinit as (Hordered & Hnonempty & Hzs & Hpgs & Hlength & Hplanes).
    assert (Hlen : len (RayTracing.planes t) = len (RayTracing.planes_redshift_order t))
      by (unfold len; rewrite Hlength; reflexivity).
    cbv zeta. split; [| split; [exact Hlen |]; split].
    + rewrite Hlen. unfold len.
      destruct (RayTracing.planes_redshift_order t); [congruence | simpl length; lia].
    + intros k plane_k Hk Hget.
      destruct (getitem_Ok_nat _ _ _ Hk Hget) as (i & -> & Hnth).
      assert (Hi : (i < length (RayTracing.planes_redshift_order t))%nat).
      { rewrite <- Hlength. apply nth_error_Some. congruence. }
      destruct (Hplanes i Hi) as (pl & Hpl & (gs_k & new_grid & Hgs & _ & Hdef)).
      assert (Hsame : pl = plane_k) by congruence.
      rewrite Hsame in Hdef. clear Hsame Hpl pl.
      rewrite Hpgs in Hgs. apply getitem_map_nat in Hgs.
      destruct Hgs as (z_k & Hz & Hgs_k).
      rewrite Hlen. rewrite Hdef. simpl. split; [| split; [reflexivity |]; split].
      * exists z_k. split; [exact Hz |]. rewrite Hordered. exact Hgs_k.
      * intros Hlast. rewrite Hlast, Z.ltb_irrefl. reflexivity.
      * intros Hlt. apply Z.ltb_lt in Hlt. rewrite Hlt. reflexivity.
    + intros z_last Hlast g Hg.
      rewrite Hlen in Hlast. unfold len in Hlast.
      replace (Z.of_nat (length (RayTracing.planes_redshift_order t)) - 1)%Z
        with (Z.of_nat (length (RayTracing.planes_redshift_order t) - 1)) in Hlast
        by (destruct (RayTracing.planes_redshift_order t); [congruence | simpl length; lia]).
      rewrite getitem_nat in Hlast.
      destruct (nth_error (RayTracing.planes_redshift_order t)
                  (length (RayTracing.planes_redshift_order t) - 1)) as [z |] eqn:Hnth;
        [| discriminate Hlast].
      inversion Hlast; subst z; clear Hlast.
      apply (sorted_last_greatest (RayTracing.planes_redshift_order t)).
      * rewrite Hzs. apply first_occurrences_sorted, sorted_by_redshift_sorted.
      * exact Hnth.
      * rewrite Hzs.
        destruct (first_occurrences_complete []
                    (map RayTracing.redshift (RayTracing.sorted_by_redshift gs))
                    (RayTracing.redshift g)) as [[] | Hin]; [| exact Hin].
        apply in_map. apply sorted_by_redshift_In. exact Hg.
Qed.

Lemma last_plane_built_without_deflections_witness :
  exists t last_plane,
    RayTracing.MultiTracer_init Examples.three_galaxies Examples.small_bundle
      Examples.flat_cosmology = Ok t /\
    getitem (RayTracing.planes t) 2 = Ok last_plane /\
    RayTracing.deflections last_plane = None.
Proof.
  eexists. eexists. split; [reflexivity |]. split; [reflexivity |].
  pose proof (proj2 last_plane_built_without_deflections
                Examples.three_galaxies Examples.small_bundle Examples.flat_cosmology
                _ eq_refl) as H.
  cbv zeta in H. destruct H as (_ & _ & Hplanes & _).
  destruct (Hplanes 2%Z _ (Z.le_0_2) eq_refl) as (_ & _ & Hlast & _).
  apply Hlast. reflexivity.
Defined.

(** * The constructors return *)

Section Totality.

Import RayTracing.

Lemma getitem_in_range {A : Type} (l : list A) (i : nat) :
  (i < length l)%nat -> exists x, getitem l (Z.of_nat i) = Ok x /\ nth_error l i = Some x.
Proof.
  intros Hi. rewrite getitem_nat.
  destruct (nth_error l i) as [x |] eqn:Hx.
  - exists x. split; reflexivity.
  - apply nth_error_None in Hx. lia.
Qed.

Lemma TracerGeometry_init_ok (zs : list Qc) (c : Cosmology) :
  zs <> [] ->
  exists geom, TracerGeometry_init zs c = Ok geom /\
               redshifts geom = zs /\ final_plane geom = (len zs - 1)%Z.
Proof.
  intros Hne. unfold TracerGeometry_init, ang_to_earth_of.
  assert (Hlast : (len zs - 1)%Z = Z.of_nat (length zs - 1)).
  { unfold len. destruct zs; [congruence | simpl length; lia]. }
  destruct (getitem_in_range zs (length zs - 1)) as (z & Hz & _).
  { destruct zs; [congruence | simpl; lia]. }
  rewrite Hlast, Hz. simpl. eexists. split; [reflexivity |]. split; reflexivity.
Qed.

Lemma scaling_factor_ok (geom : TracerGeometry) (p k : nat) :
  final_plane geom = (len (redshifts geom) - 1)%Z ->
  (p < length (redshifts geom))%nat -> (k < length (redshifts geom))%nat ->
  exists s, scaling_factor geom (Z.of_nat p) (Z.of_nat k) = Ok s.
Proof.
  intros Hfinal Hp Hk.
  unfold scaling_factor, ang_between_planes, ang_to_earth, ang_to_earth_of.
  destruct (getitem_in_range _ _ Hp) as (zp & Hzp & _).
  destruct (getitem_in_range _ _ Hk) as (zk & Hzk & _).
  assert (Hlast : final_plane geom = Z.of_nat (length (redshifts geom) - 1)).
  { rewrite Hfinal. unfold len. lia. }
  destruct (getitem_in_range (redshifts geom) (length (redshifts geom) - 1))
    as (zf & Hzf & _); [lia |].
  rewrite Hlast, Hzp, Hzk, Hzf. simpl. eexists. reflexivity.
Qed.

Lemma subtract_loop_ok (geom : TracerGeometry) (built : list Plane) (k : nat)
  (grids : GridBundle grid) :
  final_plane geom = (len (redshifts geom) - 1)%Z ->
  (k < length (redshifts geom))%nat ->
  (k <= length built)%nat ->
  deflections_computed (length (redshifts geom)) built ->
  forall (m r : nat) (g0 : GridBundle grid), (m + r <= k)%nat ->
    exists g, for_each (subtract_previous geom built (Z.of_nat k))
                (map Z.of_nat (seq m r)) g0 = Ok g.
Proof.
  intros Hfinal Hk Hbuilt Hdefl m r. revert m.
  induction r as [| r IH]; intros m g0 Hmr; simpl.
  - exists g0. reflexivity.
  - unfold subtract_previous at 1.
    destruct (scaling_factor_ok geom m k Hfinal ltac:(lia) Hk) as (s & Hs).
    destruct (Hdefl m ltac:(lia) ltac:(lia)) as (pl & d & Hpl & Hd).
    rewrite Hs, getitem_nat, Hpl. simpl. rewrite Hd. simpl.
    apply IH. lia.
Qed.

Lemma build_loop_ok (geom : TracerGeometry) (pgs : list (list Galaxy))
  (grids : GridBundle grid) :
  let zs := redshifts geom in
  final_plane geom = (len zs - 1)%Z ->
  length pgs = length zs ->
  forall (r m : nat) (built0 : list Plane),
    length built0 = m -> (m + r <= length zs)%nat ->
    deflections_computed (length zs) built0 ->
    exists built,
      for_each (build_plane geom zs pgs grids) (map Z.of_nat (seq m r)) built0 = Ok built.
Proof.
  intros zs Hfinal Hpgs. subst zs.
  set (n := length (redshifts geom)) in *.
  induction r as [| r IH]; intros m built0 Hlen Hmr Hdefl; simpl.
  - exists built0. reflexivity.
  - unfold build_plane at 1.
    assert (Hflag : exists flag,
               (if (Z.of_nat m <? len (redshifts geom) - 1)%Z then Ok true
                else if (Z.of_nat m =? len (redshifts geom) - 1)%Z then Ok false
                     else Raise (RayTracingException
                       "A galaxy was not correctly allocated its previous / next redshifts"))
               = Ok flag /\ flag = (Z.of_nat m <? Z.of_nat n - 1)%Z).
    { unfold len. fold n. destruct (Z.of_nat m <? Z.of_nat n - 1)%Z eqn:Hlt.
      - exists true. split; reflexivity.
      - apply Z.ltb_ge in Hlt.
        assert (Heq : (Z.of_nat m =? Z.of_nat n - 1)%Z = true)
          by (apply Z.eqb_eq; lia).
        rewrite Heq. exists false. split; reflexivity. }
    destruct Hflag as (flag & Hflag & Hflag_eq). rewrite Hflag. simpl.
    assert (Hgrid : exists new_grid,
               (if (Z.of_nat m >? 0)%Z
                then for_each (subtract_previous geom built0 (Z.of_nat m))
                       (range (Z.of_nat m)) grids
                else Ok grids) = Ok new_grid).
    { destruct (Z.of_nat m >? 0)%Z; [| exists grids; reflexivity].
      rewrite range_of_nat.
      apply (subtract_loop_ok geom built0 m grids Hfinal); fold n;
        try assumption; lia. }
    destruct Hgrid as (new_grid & Hgrid). rewrite Hgrid. simpl.
    destruct (getitem_in_range pgs m) as (gs & Hgs & _); [lia |].
    rewrite Hgs. simpl. apply IH.
    + rewrite length_app. simpl. lia.
    + lia.
    + intros q Hq Hq'. rewrite length_app in Hq. simpl in Hq.
      destruct (Nat.eq_dec q m) as [-> | Hne].
      * rewrite nth_error_app2, Hlen, Nat.sub_diag by lia. simpl.
        assert (Htrue : flag = true) by (rewrite Hflag_eq; apply Z.ltb_lt; lia).
        rewrite Htrue. do 2 eexists. split; reflexivity.
      * rewrite nth_error_app1 by lia. apply Hdefl; lia.
Qed.

Lemma sorted_by_redshift_nonempty (g : Galaxy) (gs : list Galaxy) :
  sorted_by_redshift (g :: gs) <> [].
Proof.
  simpl. destruct (sorted_by_redshift gs) as [| h t]; simpl; [discriminate |].
  destruct (Qcltb (redshift h) (redshift g)); discriminate.
Qed.

(** A MultiTracer is built from every non-empty list of galaxies, and from
    no empty one. *)
Lemma MultiTracer_init_returns (gs : list Galaxy) (grids : GridBundle grid)
  (cosmo : Cosmology) :
  (gs <> [] -> exists t, MultiTracer_init gs grids cosmo = Ok t) /\
  (gs = [] -> MultiTracer_init gs grids cosmo = Raise IndexError).
Proof.
  split.
  - intros Hne. unfold MultiTracer_init.
    set (ordered := sorted_by_redshift gs).
    set (zs := first_occurrences [] (map redshift ordered)).
    assert (Hzs : zs <> []).
    { subst zs ordered. destruct gs as [| g gs']; [congruence |].
      pose proof (sorted_by_redshift_nonempty g gs') as Hs.
      destruct (sorted_by_redshift (g :: gs')); [congruence | simpl; discriminate]. }
    destruct (TracerGeometry_init_ok zs cosmo Hzs) as (geom & Hgeom & Hred & Hfinal).
    rewrite Hgeom. simpl.
    assert (Hloop : exists built,
               for_each (build_plane geom zs (map (galaxies_of_plane ordered) zs) grids)
                 (range (len zs)) [] = Ok built).
    { unfold len. rewrite range_of_nat. rewrite <- Hred.
      apply (build_loop_ok geom (map (galaxies_of_plane ordered) (redshifts geom)) grids).
      - rewrite Hfinal, Hred. reflexivity.
      - apply length_map.
      - reflexivity.
      - simpl. lia.
      - intros q Hq. simpl in Hq. lia. }
    destruct Hloop as (built & Hbuilt). rewrite Hbuilt. simpl.
    eexists. reflexivity.
  - intros ->. reflexivity.
Qed.

(** The plane of ray_tracing.py accepts an empty galaxy list: its
    deflection field is the integer 0 that Python's [sum] starts from. *)
Lemma RayTracing_Plane_init_empty_galaxies (cc : GridBundle grid) :
  deflections (Plane_init [] cc true)
  = Some {| regular := Scalar 0%Qc; sub := Scalar 0%Qc; blurring := Scalar 0%Qc |}.
Proof. reflexivity. Qed.

End Totality.

(** A two-plane Tracer is built whenever no cosmology is given, and with a
    cosmology whenever both galaxy lists are non-empty. *)
Lemma Tracer_init_returns (lens source : list RayTracing.Galaxy)
  (grids : GridBundle grid) (cosmo : option RayTracing.Cosmology) :
  cosmo = None \/ (lens <> [] /\ source <> []) ->
  exists t, RayTracing.Tracer_init lens source grids cosmo = Ok t.
Proof.
  intros Hcase. unfold RayTracing.Tracer_init.
  destruct cosmo as [c |].
  - destruct Hcase as [Hnone | [Hlens Hsource]]; [discriminate Hnone |].
    destruct lens as [| l0 lens']; [congruence |].
    destruct source as [| s0 source']; [congruence |].
    eexists. reflexivity.
  - eexists. reflexivity.
Qed.

(** * A worked system of three planes *)

Ltac qc_eval := repeat f_equal; apply Qc_is_canon; vm_compute; reflexivity.

(** Galaxies at redshifts 2, 1/2 and 1 give the planes 1/2, 1 and 2. *)
Example three_planes_redshift_order :
  RayTracing.first_occurrences []
    (map RayTracing.redshift (RayTracing.sorted_by_redshift Examples.three_galaxies))
  = [qc 1 2; qc 1 1; qc 2 1].
Proof. reflexivity. Qed.

Example three_planes_scaling_factor :
  exists t,
    RayTracing.MultiTracer_init Examples.three_galaxies Examples.small_bundle
      Examples.flat_cosmology = Ok t /\
    RayTracing.scaling_factor (RayTracing.mt_geometry t) 0 1 = Ok (qc 2 3) /\
    RayTracing.scaling_factor (RayTracing.mt_geometry t) 0 2 = Ok (qc 1 1) /\
    RayTracing.scaling_factor (RayTracing.mt_geometry t) 1 2 = Ok (qc 1 1).
Proof.
  eexists. split; [reflexivity |].
  unfold RayTracing.scaling_factor, RayTracing.ang_between_planes,
    RayTracing.ang_to_earth, RayTracing.ang_to_earth_of. simpl.
  repeat split; qc_eval.
Qed.

(** The coordinate (1, 1) is deflected by (1/2, 1/2) in plane 0 and by
    (1/3, 1/3) in plane 1; it reaches plane 1 at 1 - 2/3 * 1/2 = 2/3 and
    plane 2 at 1 - 1/2 - 1/3 = 1/6. *)
Example three_planes_traced_grids :
  exists t p0 p1 p2,
    RayTracing.MultiTracer_init Examples.three_galaxies Examples.small_bundle
      Examples.flat_cosmology = Ok t /\
    RayTracing.planes t = [p0; p1; p2] /\
    regular (RayTracing.coordinates_collection p0) = Examples.small_grid /\
    regular (RayTracing.coordinates_collection p1)
      = [(qc 2 3, qc 2 3); (qc 2 3, qc (-2) 3)] /\
    regular (RayTracing.coordinates_collection p2)
      = [(qc 1 6, qc 1 6); (qc 1 6, qc (-1) 6)] /\
    RayTracing.deflections p2 = None.
Proof.
  do 4 eexists. split; [reflexivity |]. split; [reflexivity |].
  split; [reflexivity |]. split; [simpl; qc_eval |]. split; [simpl; qc_eval |].
  reflexivity.
Qed.

(** * More about the geometry *)

Lemma getitem_is_ok {A : Type} (l : list A) (i : Z) :
  is_ok (getitem l i) = true <-> valid_index l i.
Proof.
  unfold valid_index. split.
  - intros Hok.
    destruct (Z_lt_le_dec i (- len l)) as [Hlo | Hlo].
    + rewrite getitem_out_of_range in Hok by (left; exact Hlo). discriminate Hok.
    + destruct (Z_lt_le_dec i (len l)) as [Hhi | Hhi]; [lia |].
      rewrite getitem_out_of_range in Hok by (right; exact Hhi). discriminate Hok.
  - intros [Hlo Hhi].
    assert (Hnat : forall k : nat, (k < length l)%nat -> is_ok (getitem l (Z.of_nat k)) = true).
    { intros k Hk. destruct (getitem_in_range l k Hk) as (x & Hx & _).
      rewrite Hx. reflexivity. }
    unfold len in *. destruct (Z_lt_le_dec i 0) as [Hneg | Hpos].
    + rewrite getitem_negative by (unfold len; lia).
      replace (i + len l)%Z with (Z.of_nat (Z.to_nat (i + len l))) by (unfold len; lia).
      apply Hnat. unfold len. lia.
    + replace i with (Z.of_nat (Z.to_nat i)) by lia. apply Hnat. lia.
Qed.

Lemma TracerGeometry_init_fields (zs : list Qc) (c : RayTracing.Cosmology)
  (g : RayTracing.TracerGeometry) :
  RayTracing.TracerGeometry_init zs c = Ok g ->
  RayTracing.cosmology g = c /\ RayTracing.redshifts g = zs /\
  RayTracing.final_plane g = (len zs - 1)%Z /\
  exists zf, getitem zs (len zs - 1) = Ok zf /\
             RayTracing.ang_to_final_plane g = RayTracing.angular_diameter_distance c zf.
Proof.
  unfold RayTracing.TracerGeometry_init, RayTracing.ang_to_earth_of. intros H.
  apply bind_Ok_inv in H. destruct H as (d & Hd & H).
  apply bind_Ok_inv in Hd. destruct Hd as (zf & Hzf & Hd).
  inversion H; subst g; clear H. inversion Hd; subst d; clear Hd. simpl.
  repeat split. exists zf. split; [exact Hzf | reflexivity].
Qed.

Lemma is_ok_bind {A B : Type} (m : result A) (k : A -> result B) :
  is_ok (bind m k) = true <-> exists a, m = Ok a /\ is_ok (k a) = true.
Proof.
  destruct m as [a | e]; simpl; split.
  - intros H. exists a. split; [reflexivity | exact H].
  - intros (a' & Ha & H). inversion Ha; subst. exact H.
  - discriminate.
  - intros (a' & Ha & _). discriminate Ha.
Qed.

Lemma is_ok_getitem_bind {A B : Type} (l : list A) (i : Z) (k : A -> result B) :
  (forall a, is_ok (k a) = true) ->
  (is_ok (bind (getitem l i) k) = true <-> valid_index l i).
Proof.
  intros Hk. rewrite is_ok_bind, <- getitem_is_ok. split.
  - intros (a & Ha & _). rewrite Ha. reflexivity.
  - destruct (getitem l i) as [a | e]; [| discriminate].
    intros _. exists a. split; [reflexivity | apply Hk].
Qed.

(** X1: a geometry that was constructed answers a request exactly when
    the plane indices lie in [-n, n), n being the number of redshifts. *)
Theorem geometry_requests_succeed_exactly_in_range
  (zs : list Qc) (c : RayTracing.Cosmology) (g : RayTracing.TracerGeometry) (i j : Z) :
  RayTracing.TracerGeometry_init zs c = Ok g ->
  (is_ok (RayTracing.ang_to_earth g i) = true <-> valid_index zs i) /\
  (is_ok (RayTracing.arcsec_per_kpc g i) = true <-> valid_index zs i) /\
  (is_ok (RayTracing.kpc_per_arcsec g i) = true <-> valid_index zs i) /\
  (is_ok (RayTracing.ang_between_planes g i j) = true
     <-> valid_index zs i /\ valid_index zs j) /\
  (is_ok (RayTracing.critical_density_kpc g i j) = true
     <-> valid_index zs i /\ valid_index zs j) /\
  (is_ok (RayTracing.critical_density_arcsec g i j) = true
     <-> valid_index zs i /\ valid_index zs j) /\
  (is_ok (RayTracing.scaling_factor g i j) = true
     <-> valid_index zs i /\ valid_index zs j).
Proof.
  intros Hinit. apply TracerGeometry_init_fields in Hinit.
  destruct Hinit as (_ & Hzs & Hfinal & (zf & Hzf & _)).
  assert (Hearth : forall k, is_ok (RayTracing.ang_to_earth g k) = true <-> valid_index zs k).
  { intros k. unfold RayTracing.ang_to_earth, RayTracing.ang_to_earth_of. rewrite Hzs.
    apply is_ok_getitem_bind. reflexivity. }
  assert (Hbetween : forall a b, is_ok (RayTracing.ang_between_planes g a b) = true
                                 <-> valid_index zs a /\ valid_index zs b).
  { intros a b. unfold RayTracing.ang_between_planes. rewrite Hzs, is_ok_bind. split.
    - intros (za & Ha & Hb). split.
      + apply getitem_is_ok. rewrite Ha. reflexivity.
      + revert Hb. apply is_ok_getitem_bind. reflexivity.
    - intros [Ha Hb]. apply getitem_is_ok in Ha.
      destruct (getitem zs a) as [za |]; [| discriminate Ha].
      exists za. split; [reflexivity |]. apply is_ok_getitem_bind; [reflexivity | exact Hb]. }
  assert (Hkpc : forall k, is_ok (RayTracing.kpc_per_arcsec g k) = true <-> valid_index zs k).
  { intros k. unfold RayTracing.kpc_per_arcsec. rewrite Hzs.
    apply is_ok_getitem_bind. reflexivity. }
  assert (Hlast : valid_index zs (len zs - 1)).
  { apply getitem_is_ok. rewrite Hzf. reflexivity. }
  assert (Hcrit : is_ok (RayTracing.critical_density_kpc g i j) = true
                  <-> valid_index zs i /\ valid_index zs j).
  { unfold RayTracing.critical_density_kpc. split.
    - intros H. apply is_ok_bind in H. destruct H as (dj & _ & H).
      apply is_ok_bind in H. destruct H as (dij & Hdij & _).
      apply Hbetween. rewrite Hdij. reflexivity.
    - intros [Hi Hj].
      destruct (RayTracing.ang_to_earth g j) as [dj |] eqn:Hdj;
        [| apply Hearth in Hj; rewrite Hdj in Hj; discriminate Hj].
      destruct (RayTracing.ang_between_planes g i j) as [dij |] eqn:Hdij;
        [| pose proof (proj2 (Hbetween i j) (conj Hi Hj)) as H;
           rewrite Hdij in H; discriminate H].
      destruct (RayTracing.ang_to_earth g i) as [di |] eqn:Hdi;
        [| apply Hearth in Hi; rewrite Hdi in Hi; discriminate Hi].
      reflexivity. }
  split; [apply Hearth |]. split.
  { unfold RayTracing.arcsec_per_kpc. rewrite Hzs. apply is_ok_getitem_bind. reflexivity. }
  split; [apply Hkpc |]. split; [apply Hbetween |]. split; [exact Hcrit |]. split.
  - unfold RayTracing.critical_density_arcsec. split.
    + intros H. apply is_ok_bind in H. destruct H as (ck & Hck & _).
      apply Hcrit. rewrite Hck. reflexivity.
    + intros Hij. pose proof (proj2 Hcrit Hij) as Hck.
      destruct (RayTracing.critical_density_kpc g i j) as [ck |]; [| discriminate Hck].
      pose proof (proj2 (Hkpc i) (proj1 Hij)) as Hk.
      destruct (RayTracing.kpc_per_arcsec g i) as [k |] eqn:Hk'; [| discriminate Hk].
      reflexivity.
  - unfold RayTracing.scaling_factor. split.
    + intros H. apply is_ok_bind in H. destruct H as (dij & Hdij & _).
      apply Hbetween. rewrite Hdij. reflexivity.
    + intros [Hi Hj].
      destruct (RayTracing.ang_between_planes g i j) as [dij |] eqn:Hdij;
        [| pose proof (proj2 (Hbetween i j) (conj Hi Hj)) as H;
           rewrite Hdij in H; discriminate H].
      destruct (RayTracing.ang_to_earth g j) as [dj |] eqn:Hdj;
        [| apply Hearth in Hj; rewrite Hdj in Hj; discriminate Hj].
      rewrite Hfinal.
      destruct (RayTracing.ang_between_planes g i (len zs - 1)) as [dif |] eqn:Hdif;
        [| pose proof (proj2 (Hbetween i (len zs - 1)%Z) (conj Hi Hlast)) as H;
           rewrite Hdif in H; discriminate H].
      reflexivity.
Qed.

Lemma geometry_requests_succeed_exactly_in_range_witness :
  is_ok (RayTracing.scaling_factor Examples.two_planes (-2) 1) = true
  <-> valid_index [qc 1 2; qc 1 1] (-2) /\ valid_index [qc 1 2; qc 1 1] 1.
Proof.
  apply (geometry_requests_succeed_exactly_in_range
           [qc 1 2; qc 1 1] Examples.flat_cosmology Examples.two_planes (-2) 1).
  reflexivity.
Defined.

Lemma getitem_last_index {A : Type} (l : list A) :
  getitem l (-1) = getitem l (len l - 1).
Proof.
  destruct l as [| x l'].
  - rewrite !getitem_nil. reflexivity.
  - rewrite getitem_negative by (unfold len; simpl length; lia).
    replace (-1 + len (x :: l'))%Z with (len (x :: l') - 1)%Z by lia.
    reflexivity.
Qed.

(** X2: in a constructed geometry the cached distance to the final plane
    is the distance that plane index -1 (or final_plane) gives, and the
    scaling factor from any plane to the final plane is exactly one when
    the two distances involved are nonzero. *)
Theorem scaling_factor_to_final_plane_is_one
  (zs : list Qc) (c : RayTracing.Cosmology) (g : RayTracing.TracerGeometry)
  (i : Z) (zi zf : Qc) :
  RayTracing.TracerGeometry_init zs c = Ok g ->
  getitem zs i = Ok zi ->
  getitem zs (-1) = Ok zf ->
  RayTracing.angular_diameter_distance c zf <> 0%Qc ->
  RayTracing.angular_diameter_distance_z1z2 c zi zf <> 0%Qc ->
  RayTracing.ang_to_earth g (-1) = Ok (RayTracing.ang_to_final_plane g) /\
  RayTracing.ang_to_earth g (RayTracing.final_plane g)
    = Ok (RayTracing.ang_to_final_plane g) /\
  RayTracing.scaling_factor g i (RayTracing.final_plane g) = Ok 1%Qc /\
  RayTracing.scaling_factor g i (-1) = Ok 1%Qc.
Proof.
  intros Hinit Hzi Hzf Hf Hif.
  apply TracerGeometry_init_fields in Hinit.
  destruct Hinit as (Hc & Hzs & Hfinal & (zf' & Hzf' & Hcached)).
  rewrite getitem_last_index in Hzf.
  assert (zf' = zf) by congruence. subst zf'.
  assert (Hone : RayTracing.scaling_factor g i (len zs - 1) = Ok 1%Qc).
  { unfold RayTracing.scaling_factor, RayTracing.ang_between_planes,
      RayTracing.ang_to_earth, RayTracing.ang_to_earth_of.
    rewrite Hfinal, Hzs, Hc, Hzi, Hzf, Hcached. simpl. f_equal.
    field. split; assumption. }
  assert (Hsame : RayTracing.scaling_factor g i (-1)
                  = RayTracing.scaling_factor g i (len zs - 1)).
  { unfold RayTracing.scaling_factor, RayTracing.ang_between_planes,
      RayTracing.ang_to_earth, RayTracing.ang_to_earth_of.
    rewrite Hzs, getitem_last_index. reflexivity. }
  split; [| split; [| split]].
  - unfold RayTracing.ang_to_earth, RayTracing.ang_to_earth_of.
    rewrite Hzs, getitem_last_index, Hzf, Hc, Hcached. reflexivity.
  - unfold RayTracing.ang_to_earth, RayTracing.ang_to_earth_of.
    rewrite Hfinal, Hzs, Hzf, Hc, Hcached. reflexivity.
  - rewrite Hfinal. exact Hone.
  - rewrite Hsame. exact Hone.
Qed.

Lemma scaling_factor_to_final_plane_is_one_witness :
  exists g,
    RayTracing.TracerGeometry_init [qc 1 2; qc 1 1; qc 2 1] Examples.flat_cosmology = Ok g /\
    RayTracing.scaling_factor g 1 (-1) = Ok 1%Qc.
Proof.
  eexists. split; [reflexivity |].
  apply (scaling_factor_to_final_plane_is_one
           [qc 1 2; qc 1 1; qc 2 1] Examples.flat_cosmology _ 1 (qc 1 1) (qc 2 1));
    try reflexivity.
  - simpl. intros H. apply (f_equal this) in H. vm_compute in H. discriminate H.
  - simpl. intros H. apply (f_equal this) in H. vm_compute in H. discriminate H.
Defined.

(** X3: the two unit conversions of the geometry are inverse to each
    other where the conversion is nonzero, and the critical density per
    square arcsecond is the one per square kpc times the square of
    kpc-per-arcsec. *)
Theorem geometry_unit_conversions_round_trip
  (g : RayTracing.TracerGeometry) (i : Z) (a : Qc) :
  RayTracing.arcsec_per_kpc g i = Ok a ->
  a <> 0%Qc ->
  exists k,
    RayTracing.kpc_per_arcsec g i = Ok k /\
    (k * a = 1)%Qc /\
    forall j ck,
      RayTracing.critical_density_kpc g i j = Ok ck ->
      RayTracing.critical_density_arcsec g i j = Ok (ck * (k * k))%Qc /\
      exists ca, RayTracing.critical_density_arcsec g i j = Ok ca /\
                 (ca * (a * a) = ck)%Qc.
Proof.
  unfold RayTracing.arcsec_per_kpc, RayTracing.kpc_per_arcsec. intros Ha Hne.
  apply bind_Ok_inv in Ha. destruct Ha as (z & Hz & Ha). inversion Ha; subst a; clear Ha.
  rewrite Hz. simpl. eexists. split; [reflexivity |]. split.
  - field. exact Hne.
  - intros j ck Hck. unfold RayTracing.critical_density_arcsec, RayTracing.kpc_per_arcsec.
    rewrite Hck, Hz. simpl. split; [reflexivity |].
    eexists. split; [reflexivity |]. field. exact Hne.
Qed.

Lemma geometry_unit_conversions_round_trip_witness :
  exists k, RayTracing.kpc_per_arcsec Examples.two_planes 0 = Ok k /\
            (k * qc 3 2 = 1)%Qc.
Proof.
  destruct (geometry_unit_conversions_round_trip Examples.two_planes 0 (qc 3 2))
    as (k & Hk & Hone & _).
  - unfold RayTracing.arcsec_per_kpc. simpl. reflexivity.
  - intros H. apply (f_equal this) in H. vm_compute in H. discriminate H.
  - exists k. split; assumption.
Defined.

(** * The planes of a MultiTracer partition its galaxies *)

Section Partition.

Import RayTracing.

Lemma existsb_Qceqb_false (z : Qc) (seen : list Qc) :
  existsb (Qceqb z) seen = false -> ~ In z seen.
Proof.
  intros Hfalse Hin.
  assert (Htrue : existsb (Qceqb z) seen = true).
  { apply existsb_exists. exists z. split; [exact Hin | apply Qceqb_eq; reflexivity]. }
  congruence.
Qed.

Lemma first_occurrences_not_seen (seen zs : list Qc) (x : Qc) :
  In x (first_occurrences seen zs) -> ~ In x seen.
Proof.
  revert seen. induction zs as [| z zs IH]; intros seen; simpl; [tauto |].
  destruct (existsb (Qceqb z) seen) eqn:Hseen.
  - intros Hin Hs. apply (IH _ Hin). apply in_or_app. left. exact Hs.
  - intros [<- | Hin] Hs.
    + exact (existsb_Qceqb_false _ _ Hseen Hs).
    + apply (IH _ Hin). apply in_or_app. left. exact Hs.
Qed.

Lemma first_occurrences_NoDup (seen zs : list Qc) : NoDup (first_occurrences seen zs).
Proof.
  revert seen. induction zs as [| z zs IH]; intros seen; simpl; [constructor |].
  destruct (existsb (Qceqb z) seen); [apply IH |].
  constructor; [| apply IH].
  intros Hin. apply first_occurrences_not_seen in Hin.
  apply Hin, in_or_app. right. left. reflexivity.
Qed.

Lemma sorted_NoDup_strict (zs : list Qc) :
  StronglySorted Qcle zs -> NoDup zs -> StronglySorted Qclt zs.
Proof.
  intros Hs. induction Hs as [| z zs Hzs IH Hall]; intros Hnd; constructor.
  - apply IH. inversion Hnd; assumption.
  - inversion Hnd as [| ? ? Hnotin Hnd']; subst.
    rewrite Forall_forall in *. intros x Hx.
    destruct (Qc_eq_dec z x) as [-> | Hne]; [contradiction |].
    pose proof (Hall x Hx) as Hle. apply Qcle_lt_or_eq in Hle.
    destruct Hle as [Hlt | Heq]; [exact Hlt | contradiction].
Qed.

Lemma insert_by_redshift_perm (g : Galaxy) (l : list Galaxy) :
  Permutation (g :: l) (insert_by_redshift g l).
Proof.
  induction l as [| h t IH]; simpl; [apply Permutation_refl |].
  destruct (Qcltb (redshift h) (redshift g)); [| apply Permutation_refl].
  apply perm_trans with (h :: g :: t); [apply perm_swap | apply perm_skip, IH].
Qed.

Lemma sorted_by_redshift_perm (gs : list Galaxy) :
  Permutation gs (sorted_by_redshift gs).
Proof.
  induction gs as [| g gs IH]; simpl; [constructor |].
  apply perm_trans with (g :: sorted_by_redshift gs);
    [apply perm_skip, IH | apply insert_by_redshift_perm].
Qed.

Lemma sorted_by_redshift_strongly_sorted (gs : list Galaxy) :
  StronglySorted redshift_le (sorted_by_redshift gs).
Proof.
  apply Sorted_StronglySorted.
  - intros x y z. unfold redshift_le. apply Qcle_trans.
  - induction gs as [| g gs IH]; simpl; [constructor |].
    apply insert_by_redshift_sorted, IH.
Qed.

Lemma filter_filter {A : Type} (f g : A -> bool) (l : list A) :
  filter f (filter g l) = filter (fun x => g x && f x) l.
Proof.
  induction l as [| x l IH]; simpl; [reflexivity |].
  destruct (g x); simpl; [destruct (f x) |]; rewrite IH; reflexivity.
Qed.

Lemma StronglySorted_filter {A : Type} (R : A -> A -> Prop) (f : A -> bool) (l : list A) :
  StronglySorted R l -> StronglySorted R (filter f l).
Proof.
  intros Hs. induction Hs as [| x l Hl IH Hall]; simpl; [constructor |].
  destruct (f x); [| exact IH].
  constructor; [exact IH |].
  rewrite Forall_forall in *. intros y Hy. apply Hall.
  apply filter_In in Hy. tauto.
Qed.

(** In a sorted list the galaxies at the least redshift come first. *)
Lemma sorted_split_at_least (z : Qc) (l : list Galaxy) :
  StronglySorted redshift_le l ->
  (forall g, In g l -> (z <= redshift g)%Qc) ->
  l = galaxies_of_plane l z ++ filter (fun g => negb (Qceqb (redshift g) z)) l.
Proof.
  unfold galaxies_of_plane.
  intros Hs. induction Hs as [| g l Hl IH Hall]; intros Hleast; simpl; [reflexivity |].
  destruct (Qceqb (redshift g) z) eqn:Hg; simpl.
  - f_equal. apply IH. intros x Hx. apply Hleast. right. exact Hx.
  - assert (Hlater : forall x, In x l -> Qceqb (redshift x) z = false).
    { intros x Hx. destruct (Qceqb (redshift x) z) eqn:Hxz; [| reflexivity].
      apply Qceqb_eq in Hxz. rewrite Forall_forall in Hall.
      pose proof (Hall x Hx) as Hgx. unfold redshift_le in Hgx. rewrite Hxz in Hgx.
      pose proof (Hleast g (or_introl eq_refl)) as Hzg.
      assert (Heq : redshift g = z) by (apply Qcle_antisym; assumption).
      apply Qceqb_eq in Heq. congruence. }
    rewrite (filter_ext_in _ (fun _ => false) l Hlater), filter_false. simpl. f_equal.
    rewrite (filter_ext_in _ (fun _ => true) l), filter_true; [reflexivity |].
    intros x Hx. rewrite (Hlater x Hx). reflexivity.
Qed.

(** The groups of a sorted list, taken at its distinct redshifts in
    increasing order, follow one another in the list. *)
Lemma concat_galaxies_of_plane (zs : list Qc) :
  StronglySorted Qclt zs ->
  forall l, StronglySorted redshift_le l ->
            (forall g, In g l -> In (redshift g) zs) ->
            concat (map (galaxies_of_plane l) zs) = l.
Proof.
  intros Hzs. induction Hzs as [| z zs Hsorted IH Hall]; intros l Hl Hin; simpl.
  - destruct l as [| g l]; [reflexivity |]. destruct (Hin g (or_introl eq_refl)).
  - rewrite Forall_forall in Hall.
    set (rest := filter (fun g => negb (Qceqb (redshift g) z)) l).
    assert (Hgroups : map (galaxies_of_plane l) zs = map (galaxies_of_plane rest) zs).
    { apply map_ext_in. intros z' Hz'. unfold galaxies_of_plane, rest.
      rewrite filter_filter. apply filter_ext. intros x.
      destruct (Qceqb (redshift x) z') eqn:Hx; [| rewrite andb_false_r; reflexivity].
      rewrite andb_true_r. apply Qceqb_eq in Hx.
      destruct (Qceqb (redshift x) z) eqn:Hxz; [| reflexivity].
      apply Qceqb_eq in Hxz. pose proof (Hall z' Hz') as Hlt.
      rewrite <- Hx, Hxz in Hlt. exfalso.
      exact (Qcle_not_lt _ _ (Qcle_refl z) Hlt). }
    rewrite Hgroups, (IH rest).
    + symmetry. apply sorted_split_at_least; [exact Hl |].
      intros g Hg. destruct (Hin g Hg) as [<- | Hz']; [apply Qcle_refl |].
      apply Qclt_le_weak, Hall, Hz'.
    + apply StronglySorted_filter, Hl.
    + intros g Hg. apply filter_In in Hg. destruct Hg as [Hg Hne].
      destruct (Hin g Hg) as [Heq | Hz']; [| exact Hz'].
      symmetry in Heq. apply Qceqb_eq in Heq. rewrite Heq in Hne. discriminate Hne.
Qed.

End Partition.

Lemma planes_redshift_order_strictly_increasing_aux (gs : list RayTracing.Galaxy) :
  StronglySorted Qclt
    (RayTracing.first_occurrences []
       (map RayTracing.redshift (RayTracing.sorted_by_redshift gs))).
Proof.
  apply sorted_NoDup_strict; [| apply first_occurrences_NoDup].
  apply first_occurrences_sorted, sorted_by_redshift_sorted.
Qed.

(** X4: the redshifts of the planes of a MultiTracer are strictly
    increasing, so no two planes share a redshift, and they are exactly
    the redshifts of the galaxies. *)
Theorem planes_redshift_order_strictly_increasing
  (gs : list RayTracing.Galaxy) (grids : GridBundle grid) (cosmo : RayTracing.Cosmology)
  (t : RayTracing.MultiTracer) :
  RayTracing.MultiTracer_init gs grids cosmo = Ok t ->
  StronglySorted Qclt (RayTracing.planes_redshift_order t) /\
  NoDup (RayTracing.planes_redshift_order t) /\
  (forall z, In z (RayTracing.planes_redshift_order t)
             <-> exists g, In g gs /\ RayTracing.redshift g = z).
Proof.
  intros Hinit. apply MultiTracer_init_planes in Hinit. cbv zeta in Hinit.
  destruct Hinit as (_ & _ & Hzs & _). rewrite Hzs.
  split; [| split].
  - apply planes_redshift_order_strictly_increasing_aux.
  - apply first_occurrences_NoDup.
  - intros z. split.
    + intros Hz. apply first_occurrences_subset, in_map_iff in Hz.
      destruct Hz as (g & Hg & Hin). exists g. split; [| exact Hg].
      apply sorted_by_redshift_In. exact Hin.
    + intros (g & Hin & <-).
      destruct (first_occurrences_complete []
                  (map RayTracing.redshift (RayTracing.sorted_by_redshift gs))
                  (RayTracing.redshift g)) as [[] | Hz]; [| exact Hz].
      apply in_map, sorted_by_redshift_In, Hin.
Qed.

Lemma planes_redshift_order_strictly_increasing_witness :
  exists t,
    RayTracing.MultiTracer_init Examples.three_galaxies Examples.small_bundle
      Examples.flat_cosmology = Ok t /\
    NoDup (RayTracing.planes_redshift_order t).
Proof.
  eexists. split; [reflexivity |].
  apply (planes_redshift_order_strictly_increasing
           Examples.three_galaxies Examples.small_bundle Examples.flat_cosmology).
  reflexivity.
Defined.

Lemma Forall2_map_right {A B : Type} (P : A -> B -> Prop) (f : A -> B) (l : list A) :
  (forall x, In x l -> P x (f x)) -> Forall2 P l (map f l).
Proof.
  induction l as [| x l IH]; intros H; simpl; constructor.
  - apply H. left. reflexivity.
  - apply IH. intros y Hy. apply H. right. exact Hy.
Qed.

Lemma MultiTracer_planes_galaxies (gs : list RayTracing.Galaxy) (grids : GridBundle grid)
  (cosmo : RayTracing.Cosmology) (t : RayTracing.MultiTracer) :
  RayTracing.MultiTracer_init gs grids cosmo = Ok t ->
  map RayTracing.galaxies (RayTracing.planes t) = RayTracing.planes_galaxies t.
Proof.
  intros Hinit. apply MultiTracer_init_planes in Hinit. cbv zeta in Hinit.
  destruct Hinit as (_ & _ & _ & Hpgs & Hlength & Hplanes).
  assert (Hlen_pgs : length (RayTracing.planes_galaxies t)
                     = length (RayTracing.planes_redshift_order t))
    by (rewrite Hpgs; apply length_map).
  apply nth_error_ext. intros n. rewrite nth_error_map.
  destruct (Nat.lt_ge_cases n (length (RayTracing.planes_redshift_order t))) as [Hlt | Hge].
  - destruct (Hplanes n Hlt) as (pl & Hpl & (gs_n & new_grid & Hgs & _ & Hdef)).
    rewrite Hpl. simpl. rewrite getitem_nat in Hgs.
    destruct (nth_error (RayTracing.planes_galaxies t) n) as [x |]; [| discriminate Hgs].
    inversion Hgs; subst x. rewrite Hdef. reflexivity.
  - assert (H1 : nth_error (RayTracing.planes t) n = None)
      by (apply nth_error_None; lia).
    assert (H2 : nth_error (RayTracing.planes_galaxies t) n = None)
      by (apply nth_error_None; lia).
    rewrite H1, H2. reflexivity.
Qed.

(** X5: the planes of a MultiTracer partition the galaxies: the galaxy
    lists of the planes, one after the other, are the galaxies in redshift
    order (a rearrangement of the input); each plane is non-empty and
    holds exactly the input galaxies at its redshift. *)
Theorem planes_partition_the_galaxies
  (gs : list RayTracing.Galaxy) (grids : GridBundle grid) (cosmo : RayTracing.Cosmology)
  (t : RayTracing.MultiTracer) :
  RayTracing.MultiTracer_init gs grids cosmo = Ok t ->
  Permutation gs (RayTracing.galaxies_redshift_order t) /\
  StronglySorted RayTracing.redshift_le (RayTracing.galaxies_redshift_order t) /\
  concat (map RayTracing.galaxies (RayTracing.planes t))
    = RayTracing.galaxies_redshift_order t /\
  Forall2 (fun z plane =>
             RayTracing.galaxies plane <> [] /\
             forall g, In g (RayTracing.galaxies plane)
                       <-> In g gs /\ RayTracing.redshift g = z)
          (RayTracing.planes_redshift_order t) (RayTracing.planes t).
Proof.
  intros Hinit.
  pose proof (MultiTracer_planes_galaxies _ _ _ _ Hinit) as Hgalaxies.
  pose proof (planes_redshift_order_strictly_increasing_aux gs) as Hstrict.
  apply MultiTracer_init_planes in Hinit. cbv zeta in Hinit.
  destruct Hinit as (Hordered & _ & Hzs & Hpgs & _ & _).
  rewrite Hordered.
  split; [apply sorted_by_redshift_perm |].
  split; [apply sorted_by_redshift_strongly_sorted |].
  assert (Hin_zs : forall g, In g (RayTracing.sorted_by_redshift gs) ->
                             In (RayTracing.redshift g) (RayTracing.planes_redshift_order t)).
  { intros g Hg. rewrite Hzs.
    destruct (first_occurrences_complete []
                (map RayTracing.redshift (RayTracing.sorted_by_redshift gs))
                (RayTracing.redshift g)) as [[] | Hz]; [| exact Hz].
    apply in_map, Hg. }
  split.
  - rewrite Hgalaxies, Hpgs. apply concat_galaxies_of_plane.
    + rewrite Hzs. exact Hstrict.
    + apply sorted_by_redshift_strongly_sorted.
    + exact Hin_zs.
  - assert (Hmap : Forall2 (fun z pg =>
                              pg <> [] /\
                              forall g, In g pg <-> In g gs /\ RayTracing.redshift g = z)
                     (RayTracing.planes_redshift_order t)
                     (map RayTracing.galaxies (RayTracing.planes t))).
    { rewrite Hgalaxies, Hpgs. apply Forall2_map_right. intros z Hz.
      assert (Hmem : forall g, In g (RayTracing.galaxies_of_plane
                                       (RayTracing.sorted_by_redshift gs) z)
                               <-> In g gs /\ RayTracing.redshift g = z).
      { intros g. unfold RayTracing.galaxies_of_plane.
        rewrite filter_In, sorted_by_redshift_In, Qceqb_eq. reflexivity. }
      split; [| exact Hmem].
      rewrite Hzs in Hz. apply first_occurrences_subset, in_map_iff in Hz.
      destruct Hz as (g & Hg & Hin). intros Hnil.
      assert (Hgin : In g (RayTracing.galaxies_of_plane
                             (RayTracing.sorted_by_redshift gs) z)).
      { apply Hmem. split; [apply sorted_by_redshift_In, Hin | exact Hg]. }
      rewrite Hnil in Hgin. destruct Hgin. }
    clear - Hmap. remember (RayTracing.planes t) as ps eqn:Hps. clear Hps.
    revert Hmap. generalize (RayTracing.planes_redshift_order t) as zs.
    induction ps as [| p ps IH]; intros zs Hmap; inversion Hmap; subst; constructor.
    + assumption.
    + apply IH. assumption.
Qed.

Lemma planes_partition_the_galaxies_witness :
  exists t,
    RayTracing.MultiTracer_init Examples.three_galaxies Examples.small_bundle
      Examples.flat_cosmology = Ok t /\
    concat (map RayTracing.galaxies (RayTracing.planes t))
      = RayTracing.galaxies_redshift_order t.
Proof.
  eexists. split; [reflexivity |].
  apply (planes_partition_the_galaxies
           Examples.three_galaxies Examples.small_bundle Examples.flat_cosmology).
  reflexivity.
Defined.

(** * How the grids of the planes relate to the input grids *)

(** Every plane of a MultiTracer is a plane built from its galaxies and
    from the input grids with the scaled deflection fields of the earlier
    planes subtracted. *)
Lemma MultiTracer_plane_built (gs : list RayTracing.Galaxy) (grids : GridBundle grid)
  (cosmo : RayTracing.Cosmology) (t : RayTracing.MultiTracer) (i : nat)
  (pl : RayTracing.Plane) :
  RayTracing.MultiTracer_init gs grids cosmo = Ok t ->
  nth_error (RayTracing.planes t) i = Some pl ->
  exists gs_i terms,
    getitem (RayTracing.planes_galaxies t) (Z.of_nat i) = Ok gs_i /\
    Forall2 (RayTracing.scaled_deflection_of
               (RayTracing.mt_geometry t) (RayTracing.planes t) (Z.of_nat i))
            (range (Z.of_nat i)) terms /\
    pl = RayTracing.Plane_init gs_i (fold_left RayTracing.subtract_scaled terms grids)
           (Z.of_nat i <? len (RayTracing.planes_redshift_order t) - 1)%Z.
Proof.
  intros Hinit Hnth.
  apply MultiTracer_init_planes in Hinit. cbv zeta in Hinit.
  destruct Hinit as (_ & _ & _ & _ & Hlength & Hplanes).
  assert (Hi : (i < length (RayTracing.planes_redshift_order t))%nat).
  { rewrite <- Hlength. apply nth_error_Some. congruence. }
  destruct (Hplanes i Hi) as (pl' & Hpl & (gs_i & new_grid & Hgs & Hloop & Hdef)).
  assert (Hsame : pl' = pl) by congruence. rewrite Hsame in Hdef. clear Hsame Hpl pl'.
  apply for_each_subtract_previous in Hloop. destruct Hloop as (terms & Hterms & Hfold).
  exists gs_i, terms. split; [exact Hgs |]. split.
  - revert Hterms. apply Forall2_impl_In. intros p sd Hin [Hs (previous & Hprev & Hd)].
    split; [exact Hs |]. exists previous. split; [| exact Hd].
    apply in_range in Hin. destruct Hin as (q & -> & _).
    apply (getitem_firstn _ _ _ _ Hprev).
  - rewrite Hdef, Hfold. reflexivity.
Qed.

(** The deflection field a plane of a MultiTracer holds is the one of its
    own galaxies on its own grids. *)
Lemma MultiTracer_plane_deflections (gs : list RayTracing.Galaxy) (grids : GridBundle grid)
  (cosmo : RayTracing.Cosmology) (t : RayTracing.MultiTracer) (i : nat)
  (pl : RayTracing.Plane) (d : GridBundle (ndarray vec)) :
  RayTracing.MultiTracer_init gs grids cosmo = Ok t ->
  nth_error (RayTracing.planes t) i = Some pl ->
  RayTracing.deflections pl = Some d ->
  d = apply_function (RayTracing.calculate_deflections (RayTracing.galaxies pl))
        (RayTracing.coordinates_collection pl).
Proof.
  intros Hinit Hnth Hd.
  destruct (MultiTracer_plane_built _ _ _ _ _ _ Hinit Hnth) as (gs_i & terms & _ & _ & Hdef).
  rewrite Hdef in Hd |- *. simpl in *.
  destruct (Z.of_nat i <? len (RayTracing.planes_redshift_order t) - 1)%Z;
    [congruence | discriminate Hd].
Qed.

(** The earlier planes that a later plane's grid is computed from, by
    position. *)
Lemma scaled_deflection_of_nat (geom : RayTracing.TracerGeometry)
  (built : list RayTracing.Plane) (k : Z) (i : nat)
  (terms : list (Qc * GridBundle (ndarray vec))) :
  Forall2 (RayTracing.scaled_deflection_of geom built k) (range (Z.of_nat i)) terms ->
  Forall (fun sd => exists q previous,
            (q < i)%nat /\ nth_error built q = Some previous /\
            RayTracing.deflections previous = Some (snd sd)) terms.
Proof.
  intros Hterms. apply Forall_forall. intros sd Hsd.
  assert (Hex : exists p, In p (range (Z.of_nat i)) /\
                          RayTracing.scaled_deflection_of geom built k p sd).
  { clear - Hterms Hsd. induction Hterms as [| p sd' ps sds Hp Hrest IH].
    - destruct Hsd.
    - destruct Hsd as [<- | Hsd].
      + exists p. split; [left; reflexivity | exact Hp].
      + destruct (IH Hsd) as (p' & Hin & Hp'). exists p'. split; [right |]; assumption. }
  destruct Hex as (p & Hin & (_ & previous & Hprev & Hd)).
  apply in_range in Hin. destruct Hin as (q & -> & Hlt).
  rewrite getitem_nat in Hprev.
  destruct (nth_error built q) as [x |] eqn:Hq; [| discriminate Hprev].
  inversion Hprev; subst x. exists q, previous.
  split; [lia |]. split; [exact Hq | exact Hd].
Qed.

Lemma np_multiply_shape (s : Qc) (d : ndarray vec) (n : nat) :
  (exists c, d = Scalar c) \/ has_shape n d ->
  (exists c, np_multiply s d = Scalar c) \/ has_shape n (np_multiply s d).
Proof.
  intros [[c ->] | Hd].
  - left. eexists. reflexivity.
  - right. destruct d as [c | rows]; simpl in *; [contradiction |].
    rewrite length_map. exact Hd.
Qed.

Lemma subtract_scaled_length (v : variant) (g0 : GridBundle grid)
  (terms : list (Qc * GridBundle (ndarray vec))) :
  Forall (fun sd => (exists c, get_variant v (snd sd) = Scalar c) \/
                    has_shape (length (get_variant v g0)) (get_variant v (snd sd))) terms ->
  length (get_variant v (fold_left RayTracing.subtract_scaled terms g0))
  = length (get_variant v g0).
Proof.
  revert g0. induction terms as [| sd terms IH]; intros g0 Hterms; simpl; [reflexivity |].
  inversion Hterms as [| ? ? Hsd Hrest]; subst.
  assert (Hstep : length (get_variant v (RayTracing.subtract_scaled g0 sd))
                  = length (get_variant v g0)).
  { pose proof (np_subtract_traced (get_variant v g0)
                  (np_multiply (fst sd) (get_variant v (snd sd)))
                  (np_multiply_shape _ _ _ Hsd)) as [Hlen _].
    destruct v; exact Hlen. }
  rewrite IH; [exact Hstep |].
  rewrite Hstep. exact Hrest.
Qed.

Lemma MultiTracer_plane_grid_length (gs : list RayTracing.Galaxy)
  (grids : GridBundle grid) (cosmo : RayTracing.Cosmology) (t : RayTracing.MultiTracer) :
  RayTracing.MultiTracer_init gs grids cosmo = Ok t ->
  forall plane, In plane (RayTracing.planes t) ->
  forall v, length (get_variant v (RayTracing.coordinates_collection plane))
            = length (get_variant v grids).
Proof.
  intros Hinit plane Hin v.
  apply In_nth_error in Hin. destruct Hin as (i & Hi). revert plane Hi.
  induction i as [i IH] using lt_wf_ind. intros plane Hi.
  destruct (MultiTracer_plane_built _ _ _ _ _ _ Hinit Hi)
    as (gs_i & terms & _ & Hterms & Hdef).
  rewrite Hdef. simpl RayTracing.coordinates_collection.
  apply subtract_scaled_length.
  apply scaled_deflection_of_nat in Hterms.
  revert Hterms. apply Forall_impl. intros sd (q & previous & Hq & Hprev & Hd).
  rewrite (MultiTracer_plane_deflections _ _ _ _ _ _ _ Hinit Hprev Hd).
  rewrite <- (IH q Hq previous Hprev).
  destruct v; simpl; apply RayTracing_calculate_deflections_shape.
Qed.

(** X6: tracing keeps the rows of every grid variant: in a two-plane
    Tracer and in a MultiTracer each plane's grids have as many
    coordinates as the input grids, variant by variant. *)
Theorem traced_grids_keep_their_length :
  (forall (lens source : list RayTracing.Galaxy) (grids : GridBundle grid)
          (cosmo : option RayTracing.Cosmology) (t : RayTracing.Tracer),
     RayTracing.Tracer_init lens source grids cosmo = Ok t ->
     forall v,
       length (get_variant v (RayTracing.coordinates_collection (RayTracing.image_plane t)))
       = length (get_variant v grids) /\
       length (get_variant v (RayTracing.coordinates_collection (RayTracing.source_plane t)))
       = length (get_variant v grids)) /\
  (forall (gs : list RayTracing.Galaxy) (grids : GridBundle grid)
          (cosmo : RayTracing.Cosmology) (t : RayTracing.MultiTracer),
     RayTracing.MultiTracer_init gs grids cosmo = Ok t ->
     forall plane, In plane (RayTracing.planes t) ->
     forall v,
       length (get_variant v (RayTracing.coordinates_collection plane))
       = length (get_variant v grids)).
Proof.
  split.
  - intros lens source grids cosmo t Hinit v. unfold RayTracing.Tracer_init in Hinit.
    apply bind_Ok_inv in Hinit. destruct Hinit as (geom & _ & Hinit).
    apply bind_Ok_inv in Hinit. destruct Hinit as (traced & Htraced & Hinit).
    inversion Hinit; subst t; clear Hinit. simpl. split; [reflexivity |].
    unfold RayTracing.trace_to_next_plane in Htraced. simpl in Htraced.
    inversion Htraced; subst traced; clear Htraced.
    pose proof (np_subtract_traced (get_variant v grids)
                  (RayTracing.calculate_deflections lens (get_variant v grids))
                  (RayTracing_calculate_deflections_shape _ _)) as [Hlen _].
    destruct v; exact Hlen.
  - intros gs grids cosmo t Hinit plane Hin v.
    apply (MultiTracer_plane_grid_length _ _ _ _ Hinit plane Hin).
Qed.

Lemma traced_grids_keep_their_length_witness :
  exists t,
    RayTracing.MultiTracer_init Examples.three_galaxies Examples.small_bundle
      Examples.flat_cosmology = Ok t /\
    forall plane, In plane (RayTracing.planes t) ->
    forall v, length (get_variant v (RayTracing.coordinates_collection plane))
              = length (get_variant v Examples.small_bundle).
Proof.
  eexists. split; [reflexivity |].
  apply (proj2 traced_grids_keep_their_length
           Examples.three_galaxies Examples.small_bundle Examples.flat_cosmology).
  reflexivity.
Defined.

(** * Superposition of deflections *)

Lemma np_add_zeros_l (n : nat) (rows : list vec) :
  length rows = n ->
  np_add (Array (repeat (0%Qc, 0%Qc) n)) (Array rows) = Array rows.
Proof.
  intros <-.
  assert (Hrows : zip_with e_add (repeat (0%Qc, 0%Qc) (length rows)) rows = rows).
  { induction rows as [| [y x] rows IH]; [reflexivity |].
    cbn [length repeat zip_with]. rewrite IH.
    replace (e_add (0%Qc, 0%Qc) (y, x)) with (y, x); [reflexivity |].
    simpl. apply f_equal2; ring. }
  unfold np_add. rewrite Hrows. reflexivity.
Qed.

Lemma LensPlane_calculate_deflections_py_sum (gs : list LensPlane.Galaxy) (coords : grid) :
  LensPlane.calculate_deflections gs coords
  = np_add (np_full (length coords) 0%Qc)
           (py_sum (map (fun galaxy => LensPlane.deflections_from_grid galaxy coords) gs)).
Proof.
  destruct gs as [| g gs].
  - cbn [map]. change (py_sum (@nil (ndarray vec))) with (@Scalar vec 0%Qc).
    rewrite np_add_0_r. reflexivity.
  - pose proof (LensPlane_calculate_deflections_shape (g :: gs) coords) as Hshape.
    unfold LensPlane.calculate_deflections in *.
    destruct (py_sum _) as [c | rows]; simpl in Hshape; [contradiction |].
    symmetry. apply np_add_zeros_l. exact Hshape.
Qed.

Lemma np_add_zeros_zeros (n : nat) :
  np_add (@np_full vec _ n 0%Qc) (np_full n 0%Qc) = np_full n 0%Qc.
Proof.
  unfold np_full. apply np_add_zeros_l. apply repeat_length.
Qed.

Lemma np_add_comm_vec (a b : ndarray vec) : np_add a b = np_add b a.
Proof.
  destruct a as [x | xs], b as [y | ys]; unfold np_add.
  - apply f_equal. ring.
  - apply f_equal. apply map_ext. intros [y1 y2]. simpl. apply f_equal2; ring.
  - apply f_equal. apply map_ext. intros [x1 x2]. simpl. apply f_equal2; ring.
  - apply f_equal. revert ys.
    induction xs as [| [x1 x2] xs IH]; intros [| [y1 y2] ys]; try reflexivity.
    cbn [zip_with]. rewrite IH. apply f_equal2; [| reflexivity].
    simpl. apply f_equal2; ring.
Qed.

(** X7: deflection fields superpose.  The field of two galaxy lists put
    together is the elementwise sum of the fields of each, so tracing a
    plane that holds both subtracts one field after the other; this holds
    for the plane of ray_tracing.py and for the gridded plane of
    plane.py. *)
Theorem deflections_superpose :
  (forall (A B : list RayTracing.Galaxy) (coords : grid),
     RayTracing.calculate_deflections (A ++ B) coords
     = np_add (RayTracing.calculate_deflections A coords)
              (RayTracing.calculate_deflections B coords) /\
     RayTracing.deflections_for_grid coords (A ++ B)
     = RayTracing.calculate_deflections (A ++ B) coords) /\
  (forall (A B : list RayTracing.Galaxy) (cc : GridBundle grid),
     exists traced,
       RayTracing.trace_to_next_plane (RayTracing.Plane_init (A ++ B) cc true) = Ok traced /\
       traced = RayTracing.traced_collection_for_deflections cc
                  (RayTracing.deflections_for_coordinates_collection cc (A ++ B)) /\
       forall v, get_variant v traced
                 = np_subtract
                     (np_subtract (get_variant v cc)
                        (RayTracing.calculate_deflections A (get_variant v cc)))
                     (RayTracing.calculate_deflections B (get_variant v cc))) /\
  (forall (A B : list LensPlane.Galaxy) (coords : grid),
     LensPlane.calculate_deflections (A ++ B) coords
     = np_add (LensPlane.calculate_deflections A coords)
              (LensPlane.calculate_deflections B coords)).
Proof.
  assert (Hsum : forall (A B : list RayTracing.Galaxy) (coords : grid),
             RayTracing.calculate_deflections (A ++ B) coords
             = np_add (RayTracing.calculate_deflections A coords)
                      (RayTracing.calculate_deflections B coords)).
  { intros A B coords. unfold RayTracing.calculate_deflections.
    rewrite map_app. apply py_sum_app. }
  split; [| split].
  - intros A B coords. split; [apply Hsum | reflexivity].
  - intros A B cc. eexists. split; [reflexivity |]. split; [reflexivity |].
    intros v. rewrite np_subtract_subtract, <- Hsum. destruct v; reflexivity.
  - intros A B coords. rewrite !LensPlane_calculate_deflections_py_sum.
    rewrite map_app, py_sum_app.
    set (zeros := np_full (length coords) 0%Qc).
    set (a := py_sum (map _ A)). set (b := py_sum (map _ B)).
    rewrite (np_add_assoc zeros a (np_add zeros b)).
    rewrite <- (np_add_assoc a zeros b), (np_add_comm_vec a zeros).
    rewrite (np_add_assoc zeros a b), <- (np_add_assoc zeros zeros (np_add a b)).
    unfold zeros. rewrite np_add_zeros_zeros. reflexivity.
Qed.

(** * Without mass there is no lensing *)








(** * The grid of the last plane *)

Lemma scaling_factor_final_one (zs : list Qc) (c : RayTracing.Cosmology)
  (g : RayTracing.TracerGeometry) (i : Z) (zi zf : Qc) :
  RayTracing.TracerGeometry_init zs c = Ok g ->
  getitem zs i = Ok zi ->
  getitem zs (len zs - 1) = Ok zf ->
  RayTracing.angular_diameter_distance c zf <> 0%Qc ->
  RayTracing.angular_diameter_distance_z1z2 c zi zf <> 0%Qc ->
  RayTracing.scaling_factor g i (len zs - 1) = Ok 1%Qc.
Proof.
  intros Hinit Hzi Hzf Hf Hif.
  apply TracerGeometry_init_fields in Hinit.
  destruct Hinit as (Hc & Hzs & Hfinal & (zf' & Hzf' & Hcached)).
  assert (zf' = zf) by congruence. subst zf'.
  unfold RayTracing.scaling_factor, RayTracing.ang_between_planes,
    RayTracing.ang_to_earth, RayTracing.ang_to_earth_of.
  rewrite Hfinal, Hzs, Hc, Hzi, Hzf, Hcached. simpl. f_equal.
  field. split; assumption.
Qed.

Lemma MultiTracer_init_geometry (gs : list RayTracing.Galaxy) (grids : GridBundle grid)
  (cosmo : RayTracing.Cosmology) (t : RayTracing.MultiTracer) :
  RayTracing.MultiTracer_init gs grids cosmo = Ok t ->
  RayTracing.TracerGeometry_init (RayTracing.planes_redshift_order t) cosmo
  = Ok (RayTracing.mt_geometry t).
Proof.
  unfold RayTracing.MultiTracer_init. intros H.
  apply bind_Ok_inv in H. destruct H as (geom & Hgeom & H).
  apply bind_Ok_inv in H. destruct H as (built & _ & H).
  inversion H; subst t; clear H. exact Hgeom.
Qed.

Lemma Forall2_Forall_right {A B : Type} (P : A -> B -> Prop) (Q : B -> Prop)
  (xs : list A) (ys : list B) :
  (forall x y, In x xs -> P x y -> Q y) -> Forall2 P xs ys -> Forall Q ys.
Proof.
  intros Himpl Hall. induction Hall as [| x y xs ys Hxy Hall IH]; constructor.
  - apply (Himpl x y); [left; reflexivity | exact Hxy].
  - apply IH. intros x' y' Hin. apply Himpl. right. exact Hin.
Qed.

Lemma np_multiply_1 (d : ndarray vec) : np_multiply 1%Qc d = d.
Proof.
  destruct d as [c | rows]; unfold np_multiply; apply f_equal.
  - ring.
  - induction rows as [| [y x] rows IH]; [reflexivity |].
    cbn [map]. rewrite IH. apply f_equal2; [| reflexivity].
    simpl. apply f_equal2; ring.
Qed.

(** X9: the grid of the last plane of a MultiTracer is the input grid
    minus the plain sum of the deflection fields of all the earlier
    planes: every scaling factor to the last plane is one, provided the
    distance to the last plane and the distances from the earlier planes
    to it are nonzero. *)
Theorem last_plane_grid_subtracts_unscaled_deflections
  (gs : list RayTracing.Galaxy) (grids : GridBundle grid) (cosmo : RayTracing.Cosmology)
  (t : RayTracing.MultiTracer) (plane_last : RayTracing.Plane) (zf : Qc) :
  RayTracing.MultiTracer_init gs grids cosmo = Ok t ->
  getitem (RayTracing.planes t) (-1) = Ok plane_last ->
  getitem (RayTracing.planes_redshift_order t) (-1) = Ok zf ->
  RayTracing.angular_diameter_distance cosmo zf <> 0%Qc ->
  (forall z, In z (RayTracing.planes_redshift_order t) -> z <> zf ->
             RayTracing.angular_diameter_distance_z1z2 cosmo z zf <> 0%Qc) ->
  let last := (len (RayTracing.planes t) - 1)%Z in
  exists terms : list (Qc * GridBundle (ndarray vec)),
    Forall2 (RayTracing.scaled_deflection_of
               (RayTracing.mt_geometry t) (RayTracing.planes t) last)
            (range last) terms /\
    Forall (fun sd => fst sd = 1%Qc) terms /\
    forall v,
      get_variant v (RayTracing.coordinates_collection plane_last) =
      np_subtract (get_variant v grids)
        (py_sum (map (fun sd => get_variant v (snd sd)) terms)).
Proof.
  intros Hinit Hplane Hzf Hf Hdist last.
  pose proof (MultiTracer_init_geometry _ _ _ _ Hinit) as Hgeom.
  pose proof Hinit as Hfacts. apply MultiTracer_init_planes in Hfacts.
  cbv zeta in Hfacts. destruct Hfacts as (_ & Hne & Hzs & _ & Hlength & _).
  set (zs := RayTracing.planes_redshift_order t) in *.
  assert (Hn : (0 < length zs)%nat) by (destruct zs; [congruence | simpl; lia]).
  assert (Hlast : last = Z.of_nat (length zs - 1)) by (unfold last, len; lia).
  assert (Hlast_zs : (len zs - 1)%Z = Z.of_nat (length zs - 1)) by (unfold len; lia).
  rewrite getitem_last_index in Hplane. rewrite getitem_last_index in Hzf.
  fold last in Hplane.
  rewrite Hlast in Hplane |- *. rewrite Hlast_zs in Hzf.
  rewrite getitem_nat in Hplane.
  destruct (nth_error (RayTracing.planes t) (length zs - 1)) as [pl |] eqn:Hnth;
    [| discriminate Hplane].
  inversion Hplane; subst pl; clear Hplane.
  destruct (MultiTracer_plane_built _ _ _ _ _ _ Hinit Hnth)
    as (gs_i & terms & _ & Hterms & Hdef).
  assert (Hones : Forall (fun sd => fst sd = 1%Qc) terms).
  { revert Hterms. apply Forall2_Forall_right. intros p sd Hin [Hs _].
    apply in_range in Hin. destruct Hin as (q & -> & Hq).
    destruct (getitem_in_range zs q ltac:(lia)) as (zq & Hzq & Hnth_q).
    assert (Hone : RayTracing.scaling_factor (RayTracing.mt_geometry t)
                     (Z.of_nat q) (len zs - 1) = Ok 1%Qc).
    { apply (scaling_factor_final_one zs cosmo _ _ zq zf Hgeom Hzq);
        [rewrite Hlast_zs; exact Hzf | exact Hf |].
      apply Hdist; [apply (nth_error_In _ _ Hnth_q) |].
      intros Heq. subst zq.
      rewrite getitem_nat in Hzf.
      destruct (nth_error zs (length zs - 1)) as [z' |] eqn:Hnth_f; [| discriminate Hzf].
      inversion Hzf; subst z'.
      assert (Hnd : NoDup zs) by (rewrite Hzs; apply first_occurrences_NoDup).
      rewrite NoDup_nth_error in Hnd.
      assert (Heq : q = (length zs - 1)%nat) by (apply Hnd; [lia | congruence]).
      lia. }
    rewrite Hlast_zs in Hone. congruence. }
  exists terms. split; [exact Hterms |]. split; [exact Hones |].
  intros v. rewrite Hdef. simpl RayTracing.coordinates_collection.
  rewrite get_variant_fold_subtract_scaled, fold_np_subtract. f_equal. f_equal.
  clear - Hones. induction Hones as [| sd terms Hsd Hrest IH]; [reflexivity |].
  cbn [map]. rewrite IH, Hsd, np_multiply_1. reflexivity.
Qed.

Lemma last_plane_grid_subtracts_unscaled_deflections_witness :
  exists t plane_last,
    RayTracing.MultiTracer_init Examples.three_galaxies Examples.small_bundle
      Examples.flat_cosmology = Ok t /\
    getitem (RayTracing.planes t) (-1) = Ok plane_last /\
    exists terms : list (Qc * GridBundle (ndarray vec)),
      Forall (fun sd => fst sd = 1%Qc) terms /\
      forall v,
        get_variant v (RayTracing.coordinates_collection plane_last) =
        np_subtract (get_variant v Examples.small_bundle)
          (py_sum (map (fun sd => get_variant v (snd sd)) terms)).
Proof.
  eexists. eexists. split; [reflexivity |]. split; [reflexivity |].
  destruct (last_plane_grid_subtracts_unscaled_deflections
              Examples.three_galaxies Examples.small_bundle Examples.flat_cosmology
              _ _ (qc 2 1) eq_refl eq_refl eq_refl)
    as (terms & _ & Hones & Hgrid).
  - simpl. intros H. apply (f_equal this) in H. vm_compute in H. discriminate H.
  - simpl. intros z [<- | [<- | [<- | []]]] Hne.
    + intros H. apply (f_equal this) in H. vm_compute in H. discriminate H.
    + intros H. apply (f_equal this) in H. vm_compute in H. discriminate H.
    + congruence.
  - exists terms. split; assumption.
Defined.

(** * At most one pixelized galaxy per plane *)

(** The three cases that the code distinguishes by the length of a
    filtered list. *)
Lemma length_cases {A : Type} (l : list A) :
  (l = [] /\ (len l =? 0)%Z = true) \/
  (exists x, l = [x] /\ (len l =? 0)%Z = false /\ (len l =? 1)%Z = true /\
             getitem l 0 = Ok x) \/
  ((2 <= length l)%nat /\ (len l =? 0)%Z = false /\ (len l =? 1)%Z = false /\
   (len l >? 1)%Z = true).
Proof.
  destruct l as [| x [| y l]].
  - left. split; reflexivity.
  - right. left. exists x. repeat split; reflexivity.
  - right. right. unfold len. simpl length.
    split; [lia |]. split; [apply Z.eqb_neq; lia |]. split; [apply Z.eqb_neq; lia |].
    rewrite Z.gtb_ltb. apply Z.ltb_lt. lia.
Qed.

Lemma filter_nil_iff {A : Type} (f : A -> bool) (l : list A) :
  filter f l = [] <-> forall x, In x l -> f x = false.
Proof.
  induction l as [| x l IH]; simpl.
  - split; [intros _ y [] | reflexivity].
  - destruct (f x) eqn:Hx.
    + split; [discriminate |]. intros H. rewrite (H x (or_introl eq_refl)) in Hx.
      discriminate Hx.
    + rewrite IH. split.
      * intros H y [<- | Hy]; [exact Hx | apply H, Hy].
      * intros H y Hy. apply H. right. exact Hy.
Qed.

Lemma map_result_is_ok {A B : Type} (f : A -> result B) (l : list A) :
  (is_ok (map_result f l) = true <-> forall x, In x l -> is_ok (f x) = true) /\
  (forall ys, map_result f l = Ok ys -> length ys = length l).
Proof.
  induction l as [| x l [IHok IHlen]]; simpl.
  - split; [split; [intros _ y [] | reflexivity] |].
    intros ys H. inversion H. reflexivity.
  - split.
    + destruct (f x) as [y | e] eqn:Hx; simpl.
      * destruct (map_result f l) as [ys | e]; simpl.
        -- split; [| reflexivity]. intros _ z [<- | Hz].
           ++ rewrite Hx. reflexivity.
           ++ apply IHok; [reflexivity | exact Hz].
        -- split; [discriminate |]. intros H. apply IHok.
           intros z Hz. apply H. right. exact Hz.
      * split; [discriminate |]. intros H.
        pose proof (H x (or_introl eq_refl)) as Hfx. rewrite Hx in Hfx. exact Hfx.
    + intros ys H. apply bind_Ok_inv in H. destruct H as (y & _ & H).
      apply bind_Ok_inv in H. destruct H as (ys' & Hys' & H).
      inversion H; subst ys. simpl. f_equal. apply IHlen, Hys'.
Qed.

(** X10: the pixelization matrices of a plane of ray_tracing.py are None
    exactly when no galaxy of the plane is pixelized, the inversion of the
    pixelized galaxy when there is exactly one, and a PixelizationException
    when there are two or more; a MultiTracer gives one entry per plane and
    fails exactly when some plane has two or more pixelized galaxies. *)
Theorem pixelization_matrices_at_most_one_galaxy
  {S M : Type} (inversion : RayTracing.Galaxy -> GridBundle grid -> S -> M)
  (sparse_mask : S) :
  (forall self : RayTracing.Plane,
     let pixelized := filter RayTracing.has_pixelization (RayTracing.galaxies self) in
     let matrices :=
       RayTracing.generate_pixelization_matrices_of_galaxy inversion self sparse_mask in
     (matrices = Ok None <->
      forall g, In g (RayTracing.galaxies self) -> RayTracing.has_pixelization g = false) /\
     (forall g, pixelized = [g] ->
        matrices = Ok (Some (inversion g (RayTracing.coordinates_collection self)
                               sparse_mask))) /\
     (is_ok matrices = true <-> (length pixelized <= 1)%nat) /\
     (forall e, matrices = Raise e -> exists msg, e = PixelizationException msg)) /\
  (forall self : RayTracing.MultiTracer,
     let matrices :=
       RayTracing.generate_pixelization_matrices_of_galaxies inversion self sparse_mask in
     (is_ok matrices = true <->
      forall plane, In plane (RayTracing.planes self) ->
        (length (filter RayTracing.has_pixelization (RayTracing.galaxies plane)) <= 1)%nat) /\
     (forall ms, matrices = Ok ms -> length ms = length (RayTracing.planes self))).
Proof.
  assert (Hplane : forall self : RayTracing.Plane,
     let pixelized := filter RayTracing.has_pixelization (RayTracing.galaxies self) in
     let matrices :=
       RayTracing.generate_pixelization_matrices_of_galaxy inversion self sparse_mask in
     (matrices = Ok None <->
      forall g, In g (RayTracing.galaxies self) -> RayTracing.has_pixelization g = false) /\
     (forall g, pixelized = [g] ->
        matrices = Ok (Some (inversion g (RayTracing.coordinates_collection self)
                               sparse_mask))) /\
     (is_ok matrices = true <-> (length pixelized <= 1)%nat) /\
     (forall e, matrices = Raise e -> exists msg, e = PixelizationException msg)).
  { intros self pixelized matrices. subst matrices.
    unfold RayTracing.generate_pixelization_matrices_of_galaxy. fold pixelized.
    rewrite <- filter_nil_iff. fold pixelized.
    destruct (length_cases pixelized)
      as [[Hnil H0] | [(x & Hone & H0 & H1 & Hx) | (Hmany & H0 & H1 & Hgt)]].
    - rewrite H0. rewrite Hnil. repeat split; try discriminate; auto.
    - rewrite H0, H1, Hx. simpl. rewrite Hone. repeat split; try discriminate; auto.
      intros g Hg. inversion Hg; subst. reflexivity.
    - rewrite H0, H1, Hgt. repeat split; try discriminate.
      + intros Hnil. rewrite Hnil in Hmany. simpl in Hmany. lia.
      + intros g Hg. rewrite Hg in Hmany. simpl in Hmany. lia.
      + intros Hle. lia.
      + intros e He. inversion He. eexists. reflexivity. }
  split; [exact Hplane |].
  intros self matrices. subst matrices.
  unfold RayTracing.generate_pixelization_matrices_of_galaxies.
  destruct (map_result_is_ok
              (fun plane => RayTracing.generate_pixelization_matrices_of_galaxy
                              inversion plane sparse_mask)
              (RayTracing.planes self)) as [Hok Hlen].
  split; [| exact Hlen].
  rewrite Hok. split.
  - intros H plane Hin. apply (Hplane plane), H, Hin.
  - intros H plane Hin. apply (Hplane plane), H, Hin.
Qed.

(** * More about the planes of plane.py *)

Lemma redshift_eqb_eq (a b : option Qc) : LensPlane.redshift_eqb a b = true <-> a = b.
Proof.
  destruct a as [x |], b as [y |]; simpl; split; intros H;
    try reflexivity; try discriminate.
  - apply Qceqb_eq in H. congruence.
  - apply Qceqb_eq. congruence.
Qed.

(** X11: a Plane of plane.py is built exactly from a non-empty list of
    galaxies with one and the same redshift (all absent, or all present
    and equal); the plane then has that redshift, so every galaxy of a
    plane has the plane's redshift.  Every failure is a
    RayTracingException. *)
Theorem Plane_init_succeeds_iff_one_redshift
  (gs : list LensPlane.Galaxy) (stack : GridBundle grid)
  (b : option LensPlane.RegularGridBorder) (compute_deflections : bool)
  (cosmo : LensPlane.Cosmology) :
  let built := LensPlane.Plane_init gs stack b compute_deflections cosmo in
  (is_ok built = true <->
   gs <> [] /\ exists z, forall g, In g gs -> LensPlane.redshift g = z) /\
  (forall plane, built = Ok plane ->
     plane = LensPlane.AbstractGriddedPlane_init
               (LensPlane.plane_redshift (LensPlane.base plane)) gs stack b
               compute_deflections cosmo /\
     forall g, In g (LensPlane.galaxies (LensPlane.base plane)) ->
               LensPlane.redshift g = LensPlane.plane_redshift (LensPlane.base plane)) /\
  (forall e, built = Raise e -> exists msg, e = RayTracingException msg).
Proof.
  cbv zeta. unfold LensPlane.Plane_init.
  destruct gs as [| first rest].
  - split; [| split].
    + split; [discriminate | intros [H _]; congruence].
    + discriminate.
    + intros e H. inversion H. eexists. reflexivity.
  - set (gs := first :: rest).
    assert (Hall : forallb (fun galaxy => LensPlane.redshift_eqb (LensPlane.redshift first)
                                            (LensPlane.redshift galaxy)) gs = true
                   <-> forall g, In g gs -> LensPlane.redshift g = LensPlane.redshift first).
    { rewrite forallb_forall. split; intros H g Hg.
      - symmetry. apply redshift_eqb_eq, H, Hg.
      - apply redshift_eqb_eq. symmetry. apply H, Hg. }
    assert (Hnone : existsb LensPlane.is_not_None (map LensPlane.redshift gs) = false ->
                    forall g, In g gs -> LensPlane.redshift g = LensPlane.redshift first).
    { intros Hex.
      assert (Hevery : forall g, In g gs -> LensPlane.redshift g = None).
      { intros g Hg. destruct (LensPlane.redshift g) as [z |] eqn:Hz; [| reflexivity].
        assert (Htrue : existsb LensPlane.is_not_None (map LensPlane.redshift gs) = true).
        { apply existsb_exists. exists (Some z). split; [| reflexivity].
          rewrite <- Hz. apply in_map, Hg. }
        congruence. }
      intros g Hg. rewrite (Hevery g Hg), (Hevery first (or_introl eq_refl)).
      reflexivity. }
    destruct (existsb LensPlane.is_not_None (map LensPlane.redshift gs)) eqn:Hany;
      destruct (forallb _ gs) eqn:Hsame; simpl.
    + split; [| split].
      * split; [| reflexivity]. intros _. split; [discriminate |].
        exists (LensPlane.redshift first). apply Hall. reflexivity.
      * intros plane H. inversion H; subst plane. simpl. split; [reflexivity |].
        apply Hall. reflexivity.
      * discriminate.
    + split; [| split].
      * split; [discriminate |]. intros [_ (z & Hz)].
        assert (Htrue : false = true).
        { apply Hall. intros g Hg.
          rewrite (Hz g Hg), (Hz first (or_introl eq_refl)). reflexivity. }
        discriminate Htrue.
      * discriminate.
      * intros e H. inversion H. eexists. reflexivity.
    + split; [| split].
      * split; [| reflexivity]. intros _. split; [discriminate |].
        exists (LensPlane.redshift first). apply Hall. reflexivity.
      * intros plane H. inversion H; subst plane. simpl. split; [reflexivity |].
        apply Hall. reflexivity.
      * discriminate.
    + split; [| split].
      * split; [| reflexivity]. intros _. split; [discriminate |].
        exists (LensPlane.redshift first). apply Hnone. reflexivity.
      * intros plane H. inversion H; subst plane. simpl. split; [reflexivity |].
        apply Hnone. reflexivity.
      * discriminate.
Qed.

(** X12: the regularization and the mapper of a plane are None exactly
    when the plane has no galaxy with a regularization (a pixelization),
    come from that galaxy when there is exactly one, and are a
    PixelizationException when there are two or more. *)
Theorem regularization_and_mapper_at_most_one_galaxy
  {R M : Type} (regularization_of : LensPlane.Galaxy -> R)
  (mapper_of : LensPlane.Galaxy -> GridBundle grid ->
               option LensPlane.RegularGridBorder -> M) :
  (forall self : LensPlane.AbstractPlane,
     let regularized := filter LensPlane.has_regularization (LensPlane.galaxies self) in
     let r := LensPlane.regularization regularization_of self in
     (r = Ok None <-> LensPlane.plane_has_regularization self = false) /\
     (forall g, regularized = [g] -> r = Ok (Some (regularization_of g))) /\
     (is_ok r = true <-> (length regularized <= 1)%nat) /\
     (forall e, r = Raise e -> exists msg, e = PixelizationException msg)) /\
  (forall self : LensPlane.AbstractGriddedPlane,
     let pixelized :=
       filter LensPlane.has_pixelization (LensPlane.galaxies (LensPlane.base self)) in
     let m := LensPlane.mapper mapper_of self in
     (m = Ok None <-> LensPlane.plane_has_pixelization (LensPlane.base self) = false) /\
     (forall g, pixelized = [g] ->
        m = Ok (Some (mapper_of g (LensPlane.grid_stack self) (LensPlane.border self)))) /\
     (is_ok m = true <-> (length pixelized <= 1)%nat) /\
     (forall e, m = Raise e -> exists msg, e = PixelizationException msg)).
Proof.
  assert (Hany : forall (f : LensPlane.Galaxy -> bool) (l : list LensPlane.Galaxy),
             existsb f l = false <-> filter f l = []).
  { intros f l. rewrite filter_nil_iff. split.
    - intros H x Hx. destruct (f x) eqn:Hfx; [| reflexivity].
      assert (Ht : existsb f l = true) by (apply existsb_exists; exists x; tauto).
      congruence.
    - intros H. destruct (existsb f l) eqn:Hex; [| reflexivity].
      apply existsb_exists in Hex. destruct Hex as (x & Hx & Hfx).
      rewrite (H x Hx) in Hfx. discriminate Hfx. }
  split.
  - intros self regularized r. subst r.
    unfold LensPlane.regularization, LensPlane.plane_has_regularization.
    fold regularized. rewrite Hany. fold regularized.
    destruct (length_cases regularized)
      as [[Hnil H0] | [(x & Hone & H0 & H1 & Hx) | (Hmany & H0 & H1 & Hgt)]].
    + rewrite H0. rewrite Hnil. repeat split; try discriminate; auto.
    + rewrite H0, H1, Hx. simpl. rewrite Hone. repeat split; try discriminate; auto.
      intros g Hg. inversion Hg; subst. reflexivity.
    + rewrite H0, H1, Hgt. repeat split; try discriminate.
      * intros Hnil. rewrite Hnil in Hmany. simpl in Hmany. lia.
      * intros g Hg. rewrite Hg in Hmany. simpl in Hmany. lia.
      * intros Hle. lia.
      * intros e He. inversion He. eexists. reflexivity.
  - intros self pixelized m. subst m.
    unfold LensPlane.mapper, LensPlane.plane_has_pixelization.
    fold pixelized. rewrite Hany. fold pixelized.
    destruct (length_cases pixelized)
      as [[Hnil H0] | [(x & Hone & H0 & H1 & Hx) | (Hmany & H0 & H1 & Hgt)]].
    + rewrite H0. rewrite Hnil. repeat split; try discriminate; auto.
    + rewrite H0, H1, Hx. simpl. rewrite Hone. repeat split; try discriminate; auto.
      intros g Hg. inversion Hg; subst. reflexivity.
    + rewrite H0, H1, Hgt. repeat split; try discriminate.
      * intros Hnil. rewrite Hnil in Hmany. simpl in Hmany. lia.
      * intros g Hg. rewrite Hg in Hmany. simpl in Hmany. lia.
      * intros Hle. lia.
      * intros e He. inversion He. eexists. reflexivity.
Qed.

Lemma sum_truthy_from (values : list (option Qc)) (acc : Qc) :
  LensPlane.sum_truthy values acc
  = (acc + fold_right (fun v total => (match v with Some r => r | None => 0 end + total)%Qc)
             0%Qc values)%Qc.
Proof.
  revert acc. induction values as [| [r |] values IH]; intros acc; simpl.
  - ring.
  - destruct (Qceqb r 0) eqn:Hr.
    + apply Qceqb_eq in Hr. subst r. rewrite IH. ring.
    + rewrite IH. ring.
  - rewrite IH. ring.
Qed.

(** X13: the Einstein radius of a plane in arc seconds is None exactly
    when no galaxy of the plane has a mass profile; otherwise it is the sum
    of the Einstein radii of its galaxies, a galaxy without one counting as
    zero (skipping the zero and None entries does not change the sum), so
    it adds up over galaxy lists put together. *)
Theorem einstein_radius_arcsec_is_the_sum (self : LensPlane.AbstractPlane) :
  let radius := fun g : LensPlane.Galaxy =>
                  match LensPlane.einstein_radius g with Some r => r | None => 0%Qc end in
  let total := fun gs : list LensPlane.Galaxy =>
                 fold_right (fun g acc => (radius g + acc)%Qc) 0%Qc gs in
  (LensPlane.einstein_radius_arcsec self = None <->
   forall g, In g (LensPlane.galaxies self) -> LensPlane.mass_profile g = None) /\
  (forall r, LensPlane.einstein_radius_arcsec self = Some r ->
             r = total (LensPlane.galaxies self)) /\
  (forall A B, total (A ++ B) = (total A + total B)%Qc).
Proof.
  cbv zeta. unfold LensPlane.einstein_radius_arcsec, LensPlane.plane_has_mass_profile.
  split; [| split].
  - destruct (existsb LensPlane.has_mass_profile (LensPlane.galaxies self)) eqn:Hany.
    + split; [discriminate |]. intros Hnone.
      apply existsb_exists in Hany. destruct Hany as (g & Hg & Hmass).
      unfold LensPlane.has_mass_profile in Hmass. rewrite (Hnone g Hg) in Hmass.
      discriminate Hmass.
    + split; [| reflexivity]. intros _ g Hg.
      destruct (LensPlane.mass_profile g) as [f |] eqn:Hf; [| reflexivity].
      assert (Htrue : existsb LensPlane.has_mass_profile (LensPlane.galaxies self) = true).
      { apply existsb_exists. exists g. split; [exact Hg |].
        unfold LensPlane.has_mass_profile. rewrite Hf. reflexivity. }
      congruence.
  - intros r Hr.
    destruct (existsb LensPlane.has_mass_profile (LensPlane.galaxies self));
      [| discriminate Hr].
    injection Hr as <-. rewrite sum_truthy_from.
    generalize (LensPlane.galaxies self). intros gs.
    induction gs as [| g gs IH]; simpl; [ring |].
    rewrite <- IH. ring.
  - intros A B. induction A as [| g A IH]; simpl; [ring |]. rewrite IH. ring.
Qed.

(** * Planes of positions *)

(** X14: tracing a plane of positions built with its deflections gives,
    for every group of positions, the group with the deflection of the
    plane's galaxies subtracted at every position, and as many groups as
    there were; with no galaxy the positions come back unchanged; a plane
    built without deflections cannot be traced. *)
Theorem PlanePositions_trace_subtracts_deflections
  (z : option Qc) (gs : list LensPlane.Galaxy) (pos : list grid)
  (cosmo : option LensPlane.Cosmology) :
  (exists traced,
     LensPlane.PlanePositions_trace_to_next_plane
       (LensPlane.PlanePositions_init z gs pos true cosmo) = Ok traced /\
     Forall2 (fun p p' =>
                traced_by p (LensPlane.PlanePositions_calculate_deflections gs p) p')
             pos traced /\
     (gs = [] -> traced = pos)) /\
  LensPlane.PlanePositions_trace_to_next_plane
    (LensPlane.PlanePositions_init z gs pos false cosmo)
  = Raise (AttributeError "deflections").
Proof.
  split; [| reflexivity].
  unfold LensPlane.PlanePositions_trace_to_next_plane. simpl.
  eexists. split; [reflexivity |]. split.
  - induction pos as [| p pos IH]; simpl; constructor; [| exact IH].
    apply np_subtract_traced.
    unfold LensPlane.PlanePositions_calculate_deflections.
    destruct gs as [| g gs']; [left; exists 0%Qc; reflexivity | right].
    exact (LensPlane_calculate_deflections_shape (g :: gs') p).
  - intros ->. induction pos as [| p pos IH]; [reflexivity |].
    cbn [map zip_with]. rewrite IH.
    change (LensPlane.PlanePositions_calculate_deflections [] p) with (@Scalar vec 0%Qc).
    rewrite np_subtract_0. reflexivity.
Qed.

(** * Separations and fluxes of point sources *)

Lemma Qcleb_le (x y : Qc) : Qcleb x y = true <-> (x <= y)%Qc.
Proof.
  unfold Qcleb. rewrite Qcle_alt.
  destruct (x ?= y)%Qc; split; intros H; try reflexivity; try discriminate;
    congruence.
Qed.

Lemma fold_max_spec (rest : list Qc) (x : Qc) :
  let m := fold_left (fun m y => if Qcltb m y then y else m) rest x in
  In m (x :: rest) /\ forall y, In y (x :: rest) -> (y <= m)%Qc.
Proof.
  revert x. induction rest as [| y rest IH]; intros x; simpl.
  - split; [left; reflexivity |]. intros y [<- | []]. apply Qcle_refl.
  - destruct (Qcltb x y) eqn:Hxy.
    + destruct (IH y) as [Hin Hmax]. split.
      * right. exact Hin.
      * intros w [<- | Hw]; [| apply Hmax, Hw].
        apply Qcle_trans with y; [apply Qcltb_true, Hxy |].
        apply Hmax. left. reflexivity.
    + destruct (IH x) as [Hin Hmax]. split.
      * destruct Hin as [<- | Hin]; [left; reflexivity | right; right; exact Hin].
      * intros w [<- | [<- | Hw]].
        -- apply Hmax. left. reflexivity.
        -- apply Qcle_trans with x; [apply Qcltb_false, Hxy |].
           apply Hmax. left. reflexivity.
        -- apply Hmax. right. exact Hw.
Qed.

(** X15: the source-plane positions of a positions fit are the grid traced
    to the last plane.  Their maximum separation is one of the furthest
    separations and no smaller than any of them, so it lies within a
    threshold exactly when every furthest separation does; with no
    separations at all [max] fails with a ValueError. *)
Theorem max_separation_within_threshold_iff_all
  (traced_grids : FitPointSource.Tracer -> grid -> list grid)
  (furthest : grid -> list Qc)
  (pos : grid) (noise_map : list Qc) (tracer : FitPointSource.Tracer) (threshold : Qc) :
  let built :=
    FitPointSource.AbstractFitPositionsSourcePlane_init traced_grids pos noise_map tracer in
  (is_ok built = true <-> traced_grids tracer pos <> []) /\
  (forall fit, built = Ok fit ->
     (exists earlier,
        traced_grids tracer pos = earlier ++ [FitPointSource.source_plane_positions fit]) /\
     let separations :=
       FitPointSource.furthest_separations_of_source_plane_positions furthest fit in
     (separations = [] <->
      FitPointSource.max_separation_within_threshold furthest fit threshold
      = Failed ValueError) /\
     (forall m, FitPointSource.max_separation_of_source_plane_positions furthest fit
                = Returned m ->
                In m separations /\ forall s, In s separations -> (s <= m)%Qc) /\
     (forall within,
        FitPointSource.max_separation_within_threshold furthest fit threshold
        = Returned within ->
        (within = true <-> forall s, In s separations -> (s <= threshold)%Qc))).
Proof.
  cbv zeta. unfold FitPointSource.AbstractFitPositionsSourcePlane_init.
  rewrite getitem_last_index.
  set (grids := traced_grids tracer pos).
  assert (Hlast : (len grids - 1)%Z = Z.of_nat (length grids - 1) \/ grids = []).
  { destruct grids; [right; reflexivity | left; unfold len; simpl length; lia]. }
  split.
  - destruct Hlast as [Hlast | Hnil].
    + rewrite Hlast, getitem_nat.
      destruct (nth_error grids (length grids - 1)) as [g |] eqn:Hg; simpl.
      * split; [| reflexivity]. intros _ Hnil. rewrite Hnil in Hg. discriminate Hg.
      * split; [discriminate |]. intros Hne. apply nth_error_None in Hg.
        destruct grids; [congruence | simpl in Hg; lia].
    + rewrite Hnil. simpl. split; [discriminate | congruence].
  - intros fit Hfit. apply bind_Ok_inv in Hfit. destruct Hfit as (g & Hg & Hfit).
    inversion Hfit; subst fit; clear Hfit. simpl.
    split.
    + destruct Hlast as [Hlast | Hnil]; [| rewrite Hnil, getitem_nil in Hg; discriminate Hg].
      rewrite Hlast, getitem_nat in Hg.
      destruct (nth_error grids (length grids - 1)) as [g' |] eqn:Hnth;
        [| discriminate Hg].
      inversion Hg; subst g'.
      destruct (nth_error_split grids _ Hnth) as (l1 & l2 & Heq & Hlen).
      exists l1. rewrite Heq. f_equal.
      rewrite Heq, length_app in Hlen. simpl in Hlen.
      destruct l2; [reflexivity | simpl in Hlen; lia].
    + unfold FitPointSource.max_separation_within_threshold,
        FitPointSource.max_separation_of_source_plane_positions,
        FitPointSource.furthest_separations_of_source_plane_positions. simpl.
      destruct (furthest g) as [| s rest] eqn:Hs; simpl.
      * split; [split; reflexivity |]. split; discriminate.
      * pose proof (fold_max_spec rest s) as Hmax. cbv zeta in Hmax.
        destruct Hmax as [Hin Hmax].
        split; [split; discriminate |]. split.
        -- intros m Hm. inversion Hm; subst m. split; [exact Hin | exact Hmax].
        -- intros within Hw. inversion Hw; subst within. rewrite Qcleb_le. split.
           ++ intros Hle x Hx. apply Qcle_trans with (2 := Hle). apply Hmax, Hx.
           ++ intros Hall. apply Hall, Hin.
Qed.

Lemma Qcabs_nonneg (x : Qc) : (0 <= FitPointSource.Qcabs x)%Qc.
Proof.
  unfold FitPointSource.Qcabs. destruct (x ?= 0)%Qc eqn:Hc.
  - apply Qceq_alt in Hc. subst x. apply Qcle_refl.
  - apply Qclt_alt in Hc. apply Qclt_le_weak, Qcopp_le_compat in Hc.
    replace (- 0)%Qc with 0%Qc in Hc by ring. exact Hc.
  - apply Qcgt_alt in Hc. apply Qclt_le_weak. exact Hc.
Qed.

(** X16: a flux fit that was constructed holds the magnifications in
    absolute value, one per value the tracer's Hessian gives, and each
    model flux is such a magnification times the flux of the point source;
    so for a non-negative source flux no model flux is negative, whatever
    the signs of the magnifications.  The deflections up to the plane of
    the point source are used only when the tracer has more than two
    planes. *)
Theorem FitFluxes_model_fluxes
  (name : string) (fluxes noise_map : list Qc) (pos : grid)
  (tracer : FitPointSource.Tracer) (fit : FitPointSource.FitFluxes) :
  FitPointSource.FitFluxes_init name fluxes noise_map pos tracer = Ok fit ->
  exists (f : Qc) (upper_plane_index : option Z),
    FitPointSource.flux (FitPointSource.ff_point_source_profile fit) = Some f /\
    FitPointSource.extract_profile tracer name
      = Some (FitPointSource.ff_point_source_profile fit) /\
    (upper_plane_index = None <-> (len (FitPointSource.planes tracer) <= 2)%Z) /\
    FitPointSource.magnifications fit
      = map FitPointSource.Qcabs
          (FitPointSource.magnification_via_hessian_from_grid tracer upper_plane_index pos) /\
    Forall (fun m => (0 <= m)%Qc) (FitPointSource.magnifications fit) /\
    FitPointSource.ff_model_data fit
      = map (fun m => (m * f)%Qc) (FitPointSource.magnifications fit) /\
    FitPointSource.ff_data fit = fluxes /\
    ((0 <= f)%Qc -> Forall (fun m => (0 <= m)%Qc) (FitPointSource.ff_model_data fit)).
Proof.
  unfold FitPointSource.FitFluxes_init. intros Hinit.
  destruct (FitPointSource.extract_profile tracer name) as [p |] eqn:Hp;
    [| discriminate Hinit].
  destruct (FitPointSource.flux p) as [f |] eqn:Hf; [| discriminate Hinit].
  apply bind_Ok_inv in Hinit. destruct Hinit as (idx & Hidx & Hinit).
  inversion Hinit; subst fit; clear Hinit. simpl.
  assert (Hnonneg : forall l, Forall (fun m => (0 <= m)%Qc) (map FitPointSource.Qcabs l)).
  { intros l. apply Forall_map, Forall_forall. intros x _. apply Qcabs_nonneg. }
  exists f, idx. split; [exact Hf |]. split; [reflexivity |]. split.
  { destruct (len (FitPointSource.planes tracer) >? 2)%Z eqn:Hgt.
    - apply bind_Ok_inv in Hidx. destruct Hidx as (i & _ & Hidx).
      inversion Hidx; subst idx. rewrite Z.gtb_ltb in Hgt. apply Z.ltb_lt in Hgt.
      split; [discriminate | lia].
    - inversion Hidx; subst idx. rewrite Z.gtb_ltb in Hgt. apply Z.ltb_ge in Hgt.
      split; [intros _; exact Hgt | reflexivity]. }
  split; [reflexivity |]. split; [apply Hnonneg |]. split; [reflexivity |].
  split; [reflexivity |].
  intros Hflux. apply Forall_map. generalize (Hnonneg
    (FitPointSource.magnification_via_hessian_from_grid tracer idx pos)).
  apply Forall_impl. intros m Hm.
  replace 0%Qc with (0 * f)%Qc by ring. apply Qcmult_le_compat_r; assumption.
Qed.

(** * The collection of results and the interval counter of phase.py *)

(** X17: the first and the last result of a collection are None for an
    empty collection and otherwise its first and its last element; neither
    ever raises. *)
Theorem ResultsCollection_first_and_last {A : Type} :
  Phase.first (@nil A) = Ok None /\
  Phase.last (@nil A) = Ok None /\
  (forall (x : A) (l : list A),
     Phase.first (x :: l) = Ok (Some x) /\ Phase.last (l ++ [x]) = Ok (Some x)) /\
  (forall l : list A, is_ok (Phase.first l) = true /\ is_ok (Phase.last l) = true).
Proof.
  assert (Hlast : forall (x : A) (l : list A), Phase.last (l ++ [x]) = Ok (Some x)).
  { intros x l. unfold Phase.last.
    assert (Hlen : (len (l ++ [x]) >? 0)%Z = true).
    { unfold len. rewrite length_app, Z.gtb_ltb. apply Z.ltb_lt. simpl. lia. }
    rewrite Hlen, getitem_last_index.
    replace (len (l ++ [x]) - 1)%Z with (Z.of_nat (length l))
      by (unfold len; rewrite length_app; simpl; lia).
    rewrite getitem_nat, nth_error_app2, Nat.sub_diag by lia. reflexivity. }
  split; [reflexivity |]. split; [reflexivity |]. split.
  - intros x l. split; [reflexivity | apply Hlast].
  - intros l. split.
    + destruct l; reflexivity.
    + induction l as [| x l' _] using rev_ind; [reflexivity |].
      rewrite Hlast. reflexivity.
Qed.

Lemma calls_spec (k : nat) (self : Phase.IntervalCounter) :
  Phase.interval self <> (-1)%Z -> Phase.interval self <> 0%Z ->
  Phase.calls k self
  = ({| Phase.count := Phase.count self + Z.of_nat k;
        Phase.interval := Phase.interval self |},
     map (fun j => Returned
                     (((Phase.count self + Z.of_nat j + 1) mod Phase.interval self) =? 0)%Z)
         (seq 0 k)).
Proof.
  intros Hm1 H0. revert self Hm1 H0.
  induction k as [| k IH]; intros [c n] Hm1 H0; simpl in *.
  - rewrite Z.add_0_r. reflexivity.
  - unfold Phase.IntervalCounter_call. simpl.
    destruct (n =? -1)%Z eqn:E1; [apply Z.eqb_eq in E1; contradiction |].
    destruct (n =? 0)%Z eqn:E0; [apply Z.eqb_eq in E0; contradiction |].
    rewrite IH by assumption. simpl. f_equal.
    + f_equal. lia.
    + f_equal; [rewrite Z.add_0_r; reflexivity |].
      rewrite <- seq_shift, map_map. apply map_ext. intros j.
      do 3 f_equal. lia.
Qed.

Lemma div_succ (n k : Z) :
  (0 < n)%Z -> (0 <= k)%Z ->
  ((k + 1) / n = k / n + (if (k + 1) mod n =? 0 then 1 else 0))%Z.
Proof.
  intros Hn Hk. destruct ((k + 1) mod n =? 0)%Z eqn:E.
  - apply Z.eqb_eq in E. symmetry. apply Z.add_move_r. symmetry.
    apply (Z.div_unique k n ((k + 1) / n - 1) (n - 1)); [left; lia |].
    pose proof (Z.div_mod (k + 1) n ltac:(lia)). lia.
  - apply Z.eqb_neq in E. rewrite Z.add_0_r.
    pose proof (Z.mod_pos_bound (k + 1) n Hn).
    apply (Z.div_unique k n ((k + 1) / n) ((k + 1) mod n - 1)); [left; lia |].
    pose proof (Z.div_mod (k + 1) n ltac:(lia)). lia.
Qed.

Lemma count_true_every_nth (n : Z) (k : nat) :
  (0 < n)%Z ->
  Phase.count_true
    (map (fun j => Returned (((0 + Z.of_nat j + 1) mod n) =? 0)%Z) (seq 0 k))
  = Z.to_nat (Z.of_nat k / n).
Proof.
  intros Hn. unfold Phase.count_true. induction k as [| k IH].
  - reflexivity.
  - rewrite seq_S, map_app, filter_app, length_app, IH. cbn [map filter plus].
    replace (Z.of_nat (S k)) with (Z.of_nat k + 1)%Z by lia.
    rewrite (div_succ n (Z.of_nat k) Hn) by lia.
    replace (0 + Z.of_nat k + 1)%Z with (Z.of_nat k + 1)%Z by lia.
    pose proof (Z.div_pos (Z.of_nat k) n ltac:(lia) Hn).
    destruct ((Z.of_nat k + 1) mod n =? 0)%Z; simpl length; lia.
Qed.

(** X18: a counter of interval n > 0 answers True at every n-th call and
    at no other, so k calls give True k / n times and leave the count at
    k; a counter of interval -1 never answers True and never counts; with
    interval 0 a call fails with ZeroDivisionError after the count was
    incremented. *)
Theorem IntervalCounter_every_nth_call (n : Z) (k : nat) :
  ((0 < n)%Z ->
   let (counter, answers) := Phase.calls k (Phase.IntervalCounter_init n) in
   Phase.count counter = Z.of_nat k /\
   (forall j, (j < k)%nat ->
      nth_error answers j = Some (Returned ((Z.of_nat (S j) mod n) =? 0)%Z)) /\
   Phase.count_true answers = Z.to_nat (Z.of_nat k / n)) /\
  Phase.calls k (Phase.IntervalCounter_init (-1))
    = (Phase.IntervalCounter_init (-1), repeat (Returned false) k) /\
  Phase.IntervalCounter_call (Phase.IntervalCounter_init 0)
    = ({| Phase.count := 1; Phase.interval := 0 |}, Failed ZeroDivisionError).
Proof.
  split; [| split; [| reflexivity]].
  - intros Hn. rewrite calls_spec by (simpl; lia). simpl Phase.count.
    simpl Phase.interval. split; [lia |]. split.
    + intros j Hj. rewrite nth_error_map, nth_error_seq.
      assert (Hlt : (j <? k)%nat = true) by (apply Nat.ltb_lt; exact Hj).
      rewrite Hlt. simpl. do 4 f_equal. lia.
    + apply count_true_every_nth, Hn.
  - induction k as [| k IH]; [reflexivity |].
    cbn [Phase.calls repeat]. unfold Phase.IntervalCounter_call at 1. simpl.
    rewrite IH. reflexivity.
Qed.

(** * The galaxies of a plane keep the order of the input *)

Lemma filter_insert_by_redshift (z : Qc) (g : RayTracing.Galaxy)
  (l : list RayTracing.Galaxy) :
  RayTracing.galaxies_of_plane (RayTracing.insert_by_redshift g l) z
  = RayTracing.galaxies_of_plane (g :: l) z.
Proof.
  unfold RayTracing.galaxies_of_plane.
  induction l as [| h t IH]; [reflexivity |].
  cbn [RayTracing.insert_by_redshift].
  destruct (Qcltb (RayTracing.redshift h) (RayTracing.redshift g)) eqn:Hlt;
    [| reflexivity].
  cbn [filter] in *. rewrite IH.
  destruct (Qceqb (RayTracing.redshift g) z) eqn:Hg; [| reflexivity].
  destruct (Qceqb (RayTracing.redshift h) z) eqn:Hh; [| reflexivity].
  apply Qceqb_eq in Hg, Hh. rewrite Hg, Hh in Hlt.
  unfold Qcltb in Hlt.
  assert (Heq : (z ?= z)%Qc = Eq) by (apply Qceq_alt; reflexivity).
  rewrite Heq in Hlt. discriminate Hlt.
Qed.

Lemma galaxies_of_plane_sorted (z : Qc) (gs : list RayTracing.Galaxy) :
  RayTracing.galaxies_of_plane (RayTracing.sorted_by_redshift gs) z
  = RayTracing.galaxies_of_plane gs z.
Proof.
  induction gs as [| g gs IH]; [reflexivity |].
  cbn [RayTracing.sorted_by_redshift fold_right].
  rewrite filter_insert_by_redshift.
  unfold RayTracing.galaxies_of_plane in *. cbn [filter].
  fold (RayTracing.sorted_by_redshift gs). rewrite IH. reflexivity.
Qed.

Lemma Forall2_nth_error {A B : Type} (P : A -> B -> Prop) (xs : list A) (ys : list B) :
  length xs = length ys ->
  (forall i x y, nth_error xs i = Some x -> nth_error ys i = Some y -> P x y) ->
  Forall2 P xs ys.
Proof.
  revert ys. induction xs as [| x xs IH]; intros [| y ys] Hlen H;
    try discriminate; constructor.
  - apply (H 0%nat); reflexivity.
  - apply IH; [simpl in Hlen; lia |]. intros i. apply (H (S i)).
Qed.

(** The galaxies and the grids of the planes, one by one. *)
Lemma MultiTracer_planes_in_input_order (gs : list RayTracing.Galaxy)
  (grids : GridBundle grid) (cosmo : RayTracing.Cosmology) (t : RayTracing.MultiTracer) :
  RayTracing.MultiTracer_init gs grids cosmo = Ok t ->
  Forall2 (fun z plane => RayTracing.galaxies plane = RayTracing.galaxies_of_plane gs z)
          (RayTracing.planes_redshift_order t) (RayTracing.planes t).
Proof.
  intros Hinit.
  pose proof (MultiTracer_planes_galaxies _ _ _ _ Hinit) as Hgalaxies.
  pose proof Hinit as Hfacts. apply MultiTracer_init_planes in Hfacts.
  cbv zeta in Hfacts. destruct Hfacts as (_ & _ & _ & Hpgs & Hlength & _).
  apply Forall2_nth_error; [symmetry; exact Hlength |].
  intros i z plane Hz Hplane.
  assert (Hnth : nth_error (map RayTracing.galaxies (RayTracing.planes t)) i
                 = Some (RayTracing.galaxies plane))
    by (rewrite nth_error_map, Hplane; reflexivity).
  rewrite Hgalaxies, Hpgs, nth_error_map, Hz in Hnth. simpl in Hnth.
  injection Hnth as Heq. rewrite <- Heq. apply galaxies_of_plane_sorted.
Qed.

(** X19: the galaxies of each plane of a MultiTracer are the input
    galaxies at the plane's redshift in the order of the input (the sort is
    stable).  So when all the galaxies share one redshift the MultiTracer
    has a single plane, which holds the input list on the input grids and
    has no deflection field. *)
Theorem planes_keep_input_order
  (gs : list RayTracing.Galaxy) (grids : GridBundle grid) (cosmo : RayTracing.Cosmology)
  (t : RayTracing.MultiTracer) :
  RayTracing.MultiTracer_init gs grids cosmo = Ok t ->
  Forall2 (fun z plane => RayTracing.galaxies plane = RayTracing.galaxies_of_plane gs z)
          (RayTracing.planes_redshift_order t) (RayTracing.planes t) /\
  (forall z, (forall g, In g gs -> RayTracing.redshift g = z) ->
             RayTracing.planes_redshift_order t = [z] /\
             RayTracing.planes t = [RayTracing.Plane_init gs grids false]).
Proof.
  intros Hinit.
  pose proof (MultiTracer_planes_in_input_order _ _ _ _ Hinit) as Horder.
  split; [exact Horder |].
  intros z Hsame.
  pose proof Hinit as Hfacts. apply MultiTracer_init_planes in Hfacts.
  cbv zeta in Hfacts. destruct Hfacts as (_ & Hne & Hzs & _ & Hlength & _).
  assert (Hall : forall x, In x (RayTracing.planes_redshift_order t) -> x = z).
  { intros x Hx. rewrite Hzs in Hx. apply first_occurrences_subset, in_map_iff in Hx.
    destruct Hx as (g & <- & Hg). apply Hsame, sorted_by_redshift_In, Hg. }
  assert (Hnd : NoDup (RayTracing.planes_redshift_order t))
    by (rewrite Hzs; apply first_occurrences_NoDup).
  assert (Hone : RayTracing.planes_redshift_order t = [z]).
  { destruct (RayTracing.planes_redshift_order t) as [| a [| b rest]].
    - congruence.
    - rewrite (Hall a (or_introl eq_refl)). reflexivity.
    - exfalso. inversion Hnd as [| ? ? Hnotin _]; subst. apply Hnotin.
      rewrite (Hall a (or_introl eq_refl)), (Hall b (or_intror (or_introl eq_refl))).
      left. reflexivity. }
  split; [exact Hone |].
  rewrite Hone in Horder, Hlength.
  destruct (RayTracing.planes t) as [| pl [| pl' rest]] eqn:Hplanes;
    try discriminate Hlength.
  inversion Horder as [| ? ? ? ? Hgalaxies _]; subst.
  assert (Hnth : nth_error (RayTracing.planes t) 0 = Some pl)
    by (rewrite Hplanes; reflexivity).
  destruct (MultiTracer_plane_built _ _ _ _ _ _ Hinit Hnth)
    as (gs_0 & terms & _ & Hterms & Hdef).
  change (range (Z.of_nat 0)) with (@nil Z) in Hterms. inversion Hterms; subst terms.
  rewrite Hone in Hdef. simpl in Hdef.
  assert (Hgs : RayTracing.galaxies_of_plane gs z = gs).
  { unfold RayTracing.galaxies_of_plane. apply forallb_filter_id, forallb_forall.
    intros g Hg. apply Qceqb_eq, Hsame, Hg. }
  rewrite Hdef in Hgalaxies. simpl in Hgalaxies. rewrite Hgs in Hgalaxies.
  rewrite Hdef, Hgalaxies. reflexivity.
Qed.

(** * Blurring images *)

Lemma intensities_via_grid_shape (coords : grid) (gs : list RayTracing.Galaxy) :
  gs <> [] -> has_shape (length coords) (RayTracing.intensities_via_grid coords gs).
Proof.
  intros Hne. destruct gs as [| g gs]; [congruence |].
  unfold RayTracing.intensities_via_grid. cbn [map]. apply py_sum_shape.
  change (Forall (has_shape (length coords))
            (map (fun g => RayTracing.intensity_from_grid g coords) (g :: gs))).
  apply Forall_map, Forall_forall. intros x _.
  unfold RayTracing.intensity_from_grid.
  destruct (RayTracing.light_profile x); [simpl; apply length_map | apply np_full_shape].
Qed.

Lemma np_add_shape_either (n : nat) (a b : ndarray Qc) :
  ((exists c, a = Scalar c) \/ has_shape n a) ->
  ((exists c, b = Scalar c) \/ has_shape n b) ->
  has_shape n a \/ has_shape n b ->
  has_shape n (np_add a b).
Proof.
  intros [[x ->] | Ha] [[y ->] | Hb] [H | H]; simpl in H; try contradiction.
  - destruct b as [| ys]; simpl in *; [contradiction |]. rewrite length_map. exact Hb.
  - destruct a as [| xs]; simpl in *; [contradiction |]. rewrite length_map. exact Ha.
  - apply np_add_shape; assumption.
  - apply np_add_shape; assumption.
Qed.

Lemma rectangular_of_shape (n : nat) (rows : list (ndarray Qc)) :
  Forall (has_shape n) rows -> rectangular rows = true.
Proof.
  intros Hall. destruct rows as [| [c | xs] rest]; [reflexivity | |].
  - inversion Hall as [| ? ? H _]; subst. destruct H.
  - inversion Hall as [| ? ? Hxs Hrest]; subst. simpl in *.
    apply forallb_forall. intros r Hr. rewrite Forall_forall in Hrest.
    pose proof (Hrest r Hr) as Hshape.
    destruct r as [c | ys]; simpl in Hshape; [contradiction |].
    apply Nat.eqb_eq. congruence.
Qed.

Lemma MultiTracer_plane_nonempty (gs : list RayTracing.Galaxy)
  (grids : GridBundle grid) (cosmo : RayTracing.Cosmology) (t : RayTracing.MultiTracer) :
  RayTracing.MultiTracer_init gs grids cosmo = Ok t ->
  forall plane, In plane (RayTracing.planes t) -> RayTracing.galaxies plane <> [].
Proof.
  intros Hinit plane Hin.
  pose proof (MultiTracer_planes_in_input_order _ _ _ _ Hinit) as Horder.
  pose proof Hinit as Hfacts. apply MultiTracer_init_planes in Hfacts.
  cbv zeta in Hfacts. destruct Hfacts as (_ & _ & Hzs & _).
  assert (Hz : exists z, In z (RayTracing.planes_redshift_order t) /\
                         RayTracing.galaxies plane = RayTracing.galaxies_of_plane gs z).
  { clear - Horder Hin. induction Horder as [| z p zs ps Hp Hrest IH]; [destruct Hin |].
    destruct Hin as [<- | Hin].
    - exists z. split; [left; reflexivity | exact Hp].
    - destruct (IH Hin) as (z' & Hz' & Hg). exists z'. split; [right |]; assumption. }
  destruct Hz as (z & Hz & Hgalaxies).
  rewrite Hzs in Hz. apply first_occurrences_subset, in_map_iff in Hz.
  destruct Hz as (g & Hg & Hgin).
  apply (proj1 (sorted_by_redshift_In _ _)) in Hgin.
  intros Hnil. rewrite Hgalaxies in Hnil.
  assert (Hmem : In g (RayTracing.galaxies_of_plane gs z)).
  { unfold RayTracing.galaxies_of_plane. apply filter_In. split; [exact Hgin |].
    apply Qceqb_eq, Hg. }
  rewrite Hnil in Hmem. destruct Hmem.
Qed.

(** X20: the blurring image of a two-plane Tracer with at least one galaxy
    is an array with one entry per coordinate of the input blurring grid,
    whereas the blurring image of a MultiTracer is a single number: every
    plane's blurring image is such an array, and the sum is taken over all
    entries of all planes. *)
Theorem blurring_image_array_or_total :
  (forall (lens source : list RayTracing.Galaxy) (grids : GridBundle grid)
          (cosmo : option RayTracing.Cosmology) (t : RayTracing.Tracer),
     RayTracing.Tracer_init lens source grids cosmo = Ok t ->
     lens <> [] \/ source <> [] ->
     has_shape (length (blurring grids))
       (RayTracing.Tracer_generate_blurring_image_of_galaxy_light_profiles t)) /\
  (forall (gs : list RayTracing.Galaxy) (grids : GridBundle grid)
          (cosmo : RayTracing.Cosmology) (t : RayTracing.MultiTracer),
     RayTracing.MultiTracer_init gs grids cosmo = Ok t ->
     Forall (fun plane =>
               has_shape (length (blurring grids))
                 (RayTracing.generate_blurring_image_of_galaxy_light_profiles plane))
            (RayTracing.planes t) /\
     RayTracing.MultiTracer_generate_blurring_image_of_galaxy_light_profiles t
     = Some (fold_left Qcplus
               (concat (map (fun plane =>
                               entries (RayTracing.generate_blurring_image_of_galaxy_light_profiles
                                          plane))
                            (RayTracing.planes t)))
               0%Qc)).
Proof.
  split.
  - intros lens source grids cosmo t Hinit Hne.
    unfold RayTracing.Tracer_init in Hinit.
    apply bind_Ok_inv in Hinit. destruct Hinit as (geom & _ & Hinit).
    apply bind_Ok_inv in Hinit. destruct Hinit as (traced & Htraced & Hinit).
    inversion Hinit; subst t; clear Hinit.
    unfold RayTracing.trace_to_next_plane in Htraced. simpl in Htraced.
    inversion Htraced; subst traced; clear Htraced.
    unfold RayTracing.Tracer_generate_blurring_image_of_galaxy_light_profiles,
      RayTracing.generate_blurring_image_of_galaxy_light_profiles.
    simpl RayTracing.image_plane. simpl RayTracing.source_plane.
    simpl RayTracing.galaxies. simpl RayTracing.coordinates_collection.
    cbn [blurring map_function apply_function].
    pose proof (np_subtract_traced (blurring grids)
                  (RayTracing.calculate_deflections lens (blurring grids))
                  (RayTracing_calculate_deflections_shape _ _)) as [Hlen _].
    assert (Hshape : forall coords gs',
               (exists c, RayTracing.intensities_via_grid coords gs' = Scalar c) \/
               has_shape (length coords) (RayTracing.intensities_via_grid coords gs')).
    { intros coords gs'. destruct gs' as [| g gs''].
      - left. exists 0%Qc. reflexivity.
      - right. apply intensities_via_grid_shape. discriminate. }
    apply np_add_shape_either.
    + apply Hshape.
    + rewrite <- Hlen. apply Hshape.
    + destruct Hne as [Hlens | Hsource].
      * left. apply intensities_via_grid_shape, Hlens.
      * right. rewrite <- Hlen. apply intensities_via_grid_shape, Hsource.
  - intros gs grids cosmo t Hinit.
    assert (Hall : Forall (fun plane =>
               has_shape (length (blurring grids))
                 (RayTracing.generate_blurring_image_of_galaxy_light_profiles plane))
              (RayTracing.planes t)).
    { apply Forall_forall. intros plane Hin.
      unfold RayTracing.generate_blurring_image_of_galaxy_light_profiles.
      pose proof (MultiTracer_plane_grid_length _ _ _ _ Hinit plane Hin Blurring) as Hlen.
      simpl in Hlen. rewrite <- Hlen.
      apply intensities_via_grid_shape.
      apply (MultiTracer_plane_nonempty _ _ _ _ Hinit plane Hin). }
    split; [exact Hall |].
    unfold RayTracing.MultiTracer_generate_blurring_image_of_galaxy_light_profiles,
      np_sum_all.
    rewrite (rectangular_of_shape (length (blurring grids)))
      by (apply Forall_map; exact Hall).
    rewrite map_map. reflexivity.
Qed.

(** * The properties above at concrete inputs *)

Lemma pixelization_matrices_at_most_one_galaxy_witness :
  filter RayTracing.has_pixelization (RayTracing.galaxies Examples.pixelized_plane)
    = [Examples.pixelized_galaxy] /\
  RayTracing.generate_pixelization_matrices_of_galaxy
    (fun g _ (_ : unit) => RayTracing.redshift g) Examples.pixelized_plane tt
    = Ok (Some (qc 2 1)).
Proof.
  split; [reflexivity |].
  pose proof (proj1 (pixelization_matrices_at_most_one_galaxy
                       (fun g _ (_ : unit) => RayTracing.redshift g) tt)
                Examples.pixelized_plane) as H.
  cbv zeta in H. destruct H as (_ & Hone & _).
  apply (Hone Examples.pixelized_galaxy). reflexivity.
Defined.

Lemma Plane_init_succeeds_iff_one_redshift_witness :
  is_ok (LensPlane.Plane_init
           [Examples.isothermal_galaxy (Some (qc 2 1)); Examples.regularized_galaxy]
           Examples.small_bundle None true Examples.planck) = true.
Proof.
  pose proof (Plane_init_succeeds_iff_one_redshift
                [Examples.isothermal_galaxy (Some (qc 2 1)); Examples.regularized_galaxy]
                Examples.small_bundle None true Examples.planck) as H.
  cbv zeta in H. destruct H as (Hok & _). apply Hok.
  split; [discriminate |]. exists (Some (qc 2 1)).
  intros g [<- | [<- | []]]; reflexivity.
Defined.

Lemma regularization_and_mapper_at_most_one_galaxy_witness :
  filter LensPlane.has_regularization (LensPlane.galaxies Examples.regularized_plane)
    = [Examples.regularized_galaxy] /\
  LensPlane.regularization LensPlane.redshift Examples.regularized_plane
    = Ok (Some (Some (qc 2 1))).
Proof.
  split; [reflexivity |].
  pose proof (proj1 (regularization_and_mapper_at_most_one_galaxy
                       LensPlane.redshift (fun _ _ _ => tt))
                Examples.regularized_plane) as H.
  cbv zeta in H. destruct H as (_ & Hone & _).
  apply (Hone Examples.regularized_galaxy). reflexivity.
Defined.

Lemma einstein_radius_arcsec_is_the_sum_witness :
  LensPlane.einstein_radius_arcsec Examples.regularized_plane = Some (qc 8 5 + 0)%Qc /\
  (qc 8 5 + 0 = qc 8 5 + (0 + 0))%Qc.
Proof.
  split; [reflexivity |].
  pose proof (einstein_radius_arcsec_is_the_sum Examples.regularized_plane) as H.
  cbv zeta in H. destruct H as (_ & Hsum & _).
  apply (Hsum (qc 8 5 + 0)%Qc). reflexivity.
Defined.

Lemma PlanePositions_trace_subtracts_deflections_witness :
  LensPlane.PlanePositions_trace_to_next_plane
    (LensPlane.PlanePositions_init None [] [Examples.small_grid] true None)
  = Ok [Examples.small_grid].
Proof.
  destruct (PlanePositions_trace_subtracts_deflections None [] [Examples.small_grid] None)
    as ((traced & Htrace & _ & Hsame) & _).
  rewrite Htrace, (Hsame eq_refl). reflexivity.
Defined.

Lemma max_separation_within_threshold_iff_all_witness :
  exists fit,
    FitPointSource.AbstractFitPositionsSourcePlane_init
      Examples.traced_twice Examples.small_grid [] Examples.point_tracer = Ok fit /\
    FitPointSource.max_separation_of_source_plane_positions Examples.first_coordinates fit
      = Returned (qc 1 1 * qc 1 2)%Qc /\
    In (qc 1 1 * qc 1 2)%Qc
       (FitPointSource.furthest_separations_of_source_plane_positions
          Examples.first_coordinates fit).
Proof.
  eexists. split; [reflexivity |]. split; [reflexivity |].
  pose proof (max_separation_within_threshold_iff_all
                Examples.traced_twice Examples.first_coordinates Examples.small_grid []
                Examples.point_tracer 0%Qc) as H.
  cbv zeta in H. destruct H as (_ & Hfit).
  destruct (Hfit _ eq_refl) as (_ & _ & Hmax & _).
  apply (Hmax (qc 1 1 * qc 1 2)%Qc). reflexivity.
Defined.

Lemma FitFluxes_model_fluxes_witness :
  exists fit,
    FitPointSource.FitFluxes_init "point_0" [] [] Examples.small_grid Examples.point_tracer
      = Ok fit /\
    Forall (fun m => (0 <= m)%Qc) (FitPointSource.magnifications fit).
Proof.
  eexists. split; [reflexivity |].
  destruct (FitFluxes_model_fluxes "point_0" [] [] Examples.small_grid
              Examples.point_tracer _ eq_refl)
    as (f & idx & _ & _ & _ & _ & Hnonneg & _).
  exact Hnonneg.
Defined.

Lemma IntervalCounter_every_nth_call_witness :
  (0 < 3)%Z /\
  Phase.count_true (snd (Phase.calls 7 (Phase.IntervalCounter_init 3))) = 2%nat.
Proof.
  split; [lia |].
  pose proof (proj1 (IntervalCounter_every_nth_call 3 7) ltac:(lia)) as H.
  destruct (Phase.calls 7 (Phase.IntervalCounter_init 3)) as [counter answers].
  destruct H as (_ & _ & Hcount). simpl. rewrite Hcount. reflexivity.
Defined.

Lemma planes_keep_input_order_witness :
  exists t,
    RayTracing.MultiTracer_init [Examples.lens_galaxy; Examples.lens_galaxy]
      Examples.small_bundle Examples.flat_cosmology = Ok t /\
    RayTracing.planes t
      = [RayTracing.Plane_init [Examples.lens_galaxy; Examples.lens_galaxy]
           Examples.small_bundle false].
Proof.
  eexists. split; [reflexivity |].
  apply (proj2 (planes_keep_input_order
                  [Examples.lens_galaxy; Examples.lens_galaxy]
                  Examples.small_bundle Examples.flat_cosmology _ eq_refl) (qc 1 2)).
  intros g [<- | [<- | []]]; reflexivity.
Defined.

Lemma blurring_image_array_or_total_witness :
  exists t,
    RayTracing.Tracer_init [Examples.lens_galaxy] [Examples.source_galaxy]
      Examples.small_bundle None = Ok t /\
    has_shape 1 (RayTracing.Tracer_generate_blurring_image_of_galaxy_light_profiles t).
Proof.
  eexists. split; [reflexivity |].
  apply (proj1 blurring_image_array_or_total [Examples.lens_galaxy]
           [Examples.source_galaxy] Examples.small_bundle None _ eq_refl).
  left. discriminate.
Defined.
